(** * rag-chat-n8n: the natural-language-to-SQL pipeline

    A shallow embedding of the TypeScript sources of the pipeline
    (validators.ts, schema.service.ts, n8n.service.ts, database.service.ts,
    chat.controller.ts) and the properties of the specification that are
    stated about them.

    JavaScript strings are sequences of UTF-16 code units, objects are finite
    maps from property names to values, thrown exceptions are the [Throw]
    branch of a result type, and the services a function awaits (database,
    webhook, completion API, file system, clock) are fields of an explicit
    world record whose answers the function receives. *)

From Stdlib Require Import ZArith NArith QArith Lia Bool String Ascii
  DecimalString.
From stdpp Require Import base option list gmap.

Set Warnings "-register-all".

Local Open Scope Z_scope.

(* ===================================================================== *)
(** * JavaScript values                                                   *)
(* ===================================================================== *)

Module JS.

(** A JavaScript string: its UTF-16 code units. *)
Abbreviation jsstring := (list N).

(** A string literal of the source, written in Basic Latin. *)
Definition lit (s : string) : jsstring :=
  List.map N_of_ascii (list_ascii_of_string s).

(** WhiteSpace and LineTerminator code points of ECMAScript: what [trim]
    strips and what the class [\s] of a regular expression matches. *)
Definition isWhiteSpace (c : N) : bool :=
  ((9 <=? c) && (c <=? 13) || (c =? 32) || (c =? 160) || (c =? 5760)
   || ((8192 <=? c) && (c <=? 8202)) || (c =? 8232) || (c =? 8233)
   || (c =? 8239) || (c =? 8287) || (c =? 12288) || (c =? 65279))%N.

Definition isDigit (c : N) : bool := ((48 <=? c) && (c <=? 57))%N.

Fixpoint trimStart (s : jsstring) : jsstring :=
  match s with
  | c :: s' => if isWhiteSpace c then trimStart s' else s
  | [] => []
  end.

Definition trimEnd (s : jsstring) : jsstring := rev (trimStart (rev s)).

Definition trim (s : jsstring) : jsstring := trimEnd (trimStart s).

Definition streq (a b : jsstring) : bool := bool_decide (a = b).

Fixpoint startsWith (s p : jsstring) {struct p} : bool :=
  match p, s with
  | [], _ => true
  | x :: p', c :: s' => (x =? c)%N && startsWith s' p'
  | _ :: _, [] => false
  end.

Definition endsWith (s p : jsstring) : bool := startsWith (rev s) (rev p).

Fixpoint includes (s p : jsstring) : bool :=
  startsWith s p || match s with [] => false | _ :: s' => includes s' p end.

(** [s.substring(0, n)] and [s.slice(0, -1)]. *)
Definition substring0 (n : nat) (s : jsstring) : jsstring := take n s.
Definition sliceButLast (s : jsstring) : jsstring := take (length s - 1) s.

(** Upper case on Basic Latin; every other code unit is left as it is. *)
Definition asciiUpper (c : N) : N :=
  if ((97 <=? c) && (c <=? 122))%N then (c - 32)%N else c.

(** Number to string, for a natural number that is a safe integer (an
    array index, an HTTP status): its decimal digits. *)
Definition numberToString (n : N) : jsstring :=
  lit (NilZero.string_of_uint (N.to_uint n)).

(** A Number. A finite number other than zero is given by what
    Number::toString reads of it (ECMAScript, Number::toString): its
    sign, the integer [significand] whose decimal digits are its
    significant digits, and the place [point] of the decimal point, so
    that its value is 0.[significand] times 10 to the [point]. The two
    zeros print alike. *)
Inductive number :=
| NaN
| Infinity (negative : bool)
| Zero
| Finite (negative : bool) (significand : positive) (point : Z).

(** The number of an integer that Number::toString prints with all its
    digits, or with as many as are not zeros at its end: a safe integer
    (at most 2^53 in magnitude), a power of ten. *)
Definition Number_ofZ (z : Z) : number :=
  match z with
  | Z0 => Zero
  | Zpos p =>
      Finite false p (Z.of_nat (length (numberToString (Npos p))))
  | Zneg p =>
      Finite true p (Z.of_nat (length (numberToString (Npos p))))
  end.

Fixpoint dropZeros (s : jsstring) : jsstring :=
  match s with
  | c :: s' => if (c =? 48)%N then dropZeros s' else s
  | [] => []
  end.

(** The significant digits: as few as denote the number, so none of the
    zeros at the end. *)
Definition significantDigits (significand : positive) : jsstring :=
  match numberToString (Npos significand) with
  | d :: rest => d :: rev (dropZeros (rev rest))
  | [] => []
  end.

(** Number::toString with the radix 10: [`${x}`]. *)
Definition Number_toString (x : number) : jsstring :=
  match x with
  | NaN => lit "NaN"
  | Infinity negative => (if negative then lit "-" else []) ++ lit "Infinity"
  | Zero => lit "0"
  | Finite negative significand n =>
      let ds := significantDigits significand in
      let k := Z.of_nat (length ds) in
      (if negative then lit "-" else [])
      ++ (if (k <=? n) && (n <=? 21) then
            ds ++ replicate (Z.to_nat (n - k)) 48%N
          else if (0 <? n) && (n <=? 21) then
            take (Z.to_nat n) ds ++ lit "." ++ drop (Z.to_nat n) ds
          else if (-6 <? n) && (n <=? 0) then
            lit "0." ++ replicate (Z.to_nat (- n)) 48%N ++ ds
          else
            let e := n - 1 in
            let exponent :=
              lit "e" ++ (if e <? 0 then lit "-" else lit "+")
              ++ numberToString (Z.to_N (Z.abs e)) in
            match ds with
            | [d] => [d] ++ exponent
            | d :: rest => [d] ++ lit "." ++ rest ++ exponent
            | [] => []
            end)
  end.

(** Values as they come out of [JSON.parse] or a database driver; [VDate]
    is a Date object with its time value ([None] is NaN). *)
Inductive Value :=
| VUndefined
| VNull
| VBool (b : bool)
| VNum (q : Q)
| VStr (s : jsstring)
| VDate (t : option Z)
| VArr (items : list Value)
| VObj (props : gmap (list N) Value).

(** ToBoolean. *)
Definition truthy (v : Value) : bool :=
  match v with
  | VUndefined | VNull => false
  | VBool b => b
  | VNum q => negb (Qeq_bool q 0)
  | VStr s => negb (streq s [])
  | VDate _ | VArr _ | VObj _ => true
  end.

(** Property read [v.name] on a parsed JSON value. *)
Definition getProp (v : Value) (name : jsstring) : Value :=
  match v with
  | VObj props => default VUndefined (props !! name)
  | _ => VUndefined
  end.

(** Thrown exceptions. [AppError] is the class of error.middleware;
    [NamedError] is an error of any other class, or one whose [name] has
    been set: an error of the HTTP client or of the database driver, a
    TimeoutError. *)
Inductive ErrorCode :=
| VALIDATION_ERROR | AUTHENTICATION_ERROR | AUTHORIZATION_ERROR | NOT_FOUND
| CONFLICT | RATE_LIMIT | INTERNAL_ERROR | DATABASE_ERROR
| SERVICE_UNAVAILABLE | TIMEOUT.

Inductive Exn :=
| Error (message : jsstring)
| TypeError (message : jsstring)
| AppError (message : jsstring) (errorCode : ErrorCode)
| NamedError (name : jsstring) (message : jsstring).

Definition message (e : Exn) : jsstring :=
  match e with
  | Error m | TypeError m | AppError m _ | NamedError _ m => m
  end.

(** [error.name] *)
Definition errorName (e : Exn) : jsstring :=
  match e with
  | Error _ => lit "Error"
  | TypeError _ => lit "TypeError"
  | AppError _ _ => lit "AppError"
  | NamedError name _ => name
  end.

Inductive result (A : Type) :=
| Ok (a : A)
| Throw (e : Exn).
Arguments Ok {A} a.
Arguments Throw {A} e.

End JS.
Import JS.

(* ===================================================================== *)
(** * Regular expressions of the sources                                  *)
(* ===================================================================== *)

Module RegExp.

(** One character of a pattern. [ChrI c] is the literal [c] under the
    [i] flag: for a Basic Latin pattern character, canonicalization
    identifies exactly its two cases, and no code unit above 127 is
    canonicalized into Basic Latin. *)
Inductive atom :=
| Chr (c : N)
| ChrI (c : N)
| Space
| Digit
| OneOf (cs : list N).

Inductive node :=
| One (a : atom)
| Plus (a : atom)
| Star (a : atom).

(** [bol] is a leading [^]. *)
Record regexp := RE { bol : bool; nodes : list node }.

Definition atomMatches (a : atom) (c : N) : bool :=
  match a with
  | Chr x => (x =? c)%N
  | ChrI x => (asciiUpper x =? asciiUpper c)%N
  | Space => isWhiteSpace c
  | Digit => isDigit c
  | OneOf cs => existsb (N.eqb c) cs
  end.

(** Greedy repetition of [a], backtracking into the continuation [k]. *)
Fixpoint greedy (a : atom) (k : jsstring -> option jsstring)
    (s : jsstring) : option jsstring :=
  match s with
  | c :: s' =>
      if atomMatches a c then
        match greedy a k s' with
        | Some m => Some (c :: m)
        | None => k s
        end
      else k s
  | [] => k []
  end.

(** The text matched at the start of [s], if the pattern matches there. *)
Fixpoint matchAt (p : list node) (s : jsstring) {struct p}
    : option jsstring :=
  match p with
  | [] => Some []
  | One a :: p' =>
      match s with
      | c :: s' =>
          if atomMatches a c then cons c <$> matchAt p' s' else None
      | [] => None
      end
  | Plus a :: p' =>
      match s with
      | c :: s' =>
          if atomMatches a c then cons c <$> greedy a (matchAt p') s'
          else None
      | [] => None
      end
  | Star a :: p' => greedy a (matchAt p') s
  end.

Fixpoint search (p : list node) (s : jsstring) : option jsstring :=
  match matchAt p s with
  | Some m => Some m
  | None => match s with [] => None | _ :: s' => search p s' end
  end.

(** [re.exec(s)[0]] for a pattern without the [g] flag: the leftmost
    match. *)
Definition exec (re : regexp) (s : jsstring) : option jsstring :=
  if bol re then matchAt (nodes re) s else search (nodes re) s.

Definition test (re : regexp) (s : jsstring) : bool :=
  bool_decide (is_Some (exec re s)).

(** [s.match(/a/g)] for a pattern of one character: all the matches. *)
Definition matchGlobal1 (a : atom) (s : jsstring) : list jsstring :=
  (fun c => [c]) <$> filter (fun c => atomMatches a c = true) s.

(** [s.replace(/a/g, r)] for a pattern of one character. *)
Definition replaceGlobal1 (a : atom) (r : jsstring) (s : jsstring)
    : jsstring :=
  mjoin ((fun c => if atomMatches a c then r else [c]) <$> s).

(** [s.replace(c, r)] for a one-character string pattern: the first
    occurrence only. *)
Fixpoint replaceFirst (c : N) (r : jsstring) (s : jsstring) : jsstring :=
  match s with
  | x :: s' => if (x =? c)%N then r ++ s' else x :: replaceFirst c r s'
  | [] => []
  end.

(** A literal keyword under the [i] flag, and a literal without it. *)
Definition ci (s : string) : list node := (fun c => One (ChrI c)) <$> lit s.
Definition cs (s : string) : list node := (fun c => One (Chr c)) <$> lit s.
Definition digits (n : nat) : list node := replicate n (One Digit).

(** What a pattern denotes: the texts it can match. *)
Inductive Matches : list node -> jsstring -> Prop :=
| M_nil : Matches [] []
| M_one a p c m :
    atomMatches a c = true -> Matches p m -> Matches (One a :: p) (c :: m)
| M_plus a p c w m :
    atomMatches a c = true -> Forall (fun x => atomMatches a x = true) w ->
    Matches p m -> Matches (Plus a :: p) (c :: w ++ m)
| M_star a p w m :
    Forall (fun x => atomMatches a x = true) w ->
    Matches p m -> Matches (Star a :: p) (w ++ m).

(** [s] has a substring that the pattern denotes. *)
Definition Contains (p : list node) (s : jsstring) : Prop :=
  exists pre m post, s = pre ++ m ++ post /\ Matches p m.

End RegExp.
Import RegExp.

(* ===================================================================== *)
(** * The host engine                                                     *)
(* ===================================================================== *)

(** What the sources take from the JavaScript engine and its Unicode and
    time-zone tables, beyond what is written out below:
    [String.prototype.toUpperCase]; the offset of local time from UTC at a
    local time value, in milliseconds; the engine's fallback for date
    strings that are not in the ISO form; and [JSON.stringify], whose
    output the sources only splice into error messages. Every statement
    below holds for every host. *)
Record Host := {
  toUpperCase : jsstring -> jsstring;
  localTZA : Z -> Z;
  legacyDateParse : jsstring -> option Z;
  JSON_stringify : Value -> jsstring;
}.

(** A host for running the model on Basic Latin text, with the clock of the
    machine set to UTC; it prints no payload into error messages. *)
Definition utcHost : Host := {|
  toUpperCase := fun s => asciiUpper <$> s;
  localTZA := fun _ => 0;
  legacyDateParse := fun _ => None;
  JSON_stringify := fun _ => [];
|}.

(* ===================================================================== *)
(** * Date objects (ECMAScript, section Date Objects)                      *)
(* ===================================================================== *)

Module DateModel.

Definition msPerDay : Z := 86400000.
Definition msPerHour : Z := 3600000.
Definition msPerMinute : Z := 60000.
Definition msPerSecond : Z := 1000.

Definition InLeapYear (y : Z) : bool :=
  (y mod 4 =? 0) && (negb (y mod 100 =? 0) || (y mod 400 =? 0)).

Definition DaysInYear (y : Z) : Z := if InLeapYear y then 366 else 365.

Definition DayFromYear (y : Z) : Z :=
  365 * (y - 1970) + (y - 1969) / 4 - (y - 1901) / 100 + (y - 1601) / 400.

(** The year whose first day is the last one not after day [d]. *)
Definition YearFromDay (d : Z) : Z :=
  let y := 1970 + (400 * d) / 146097 in
  if d <? DayFromYear y then y - 1
  else if DayFromYear (y + 1) <=? d then y + 1
  else y.

(** Day number within the year at which month [m] (0 to 11) starts. *)
Definition monthStart (leap : bool) (m : Z) : Z :=
  let L := if leap then 1 else 0 in
  if m <=? 0 then 0 else if m =? 1 then 31 else if m =? 2 then 59 + L
  else if m =? 3 then 90 + L else if m =? 4 then 120 + L
  else if m =? 5 then 151 + L else if m =? 6 then 181 + L
  else if m =? 7 then 212 + L else if m =? 8 then 243 + L
  else if m =? 9 then 273 + L else if m =? 10 then 304 + L
  else if m =? 11 then 334 + L else 365 + L.

Definition MonthFromDayInYear (leap : bool) (dwy : Z) : Z :=
  if dwy <? monthStart leap 1 then 0
  else if dwy <? monthStart leap 2 then 1
  else if dwy <? monthStart leap 3 then 2
  else if dwy <? monthStart leap 4 then 3
  else if dwy <? monthStart leap 5 then 4
  else if dwy <? monthStart leap 6 then 5
  else if dwy <? monthStart leap 7 then 6
  else if dwy <? monthStart leap 8 then 7
  else if dwy <? monthStart leap 9 then 8
  else if dwy <? monthStart leap 10 then 9
  else if dwy <? monthStart leap 11 then 10
  else 11.

Definition Day (t : Z) : Z := t / msPerDay.
Definition TimeWithinDay (t : Z) : Z := t mod msPerDay.
Definition YearFromTime (t : Z) : Z := YearFromDay (Day t).
Definition DayWithinYear (t : Z) : Z := Day t - DayFromYear (YearFromTime t).
Definition MonthFromTime (t : Z) : Z :=
  MonthFromDayInYear (InLeapYear (YearFromTime t)) (DayWithinYear t).
Definition DateFromTime (t : Z) : Z :=
  DayWithinYear t
  - monthStart (InLeapYear (YearFromTime t)) (MonthFromTime t) + 1.
Definition HourFromTime (t : Z) : Z := (t / msPerHour) mod 24.
Definition MinFromTime (t : Z) : Z := (t / msPerMinute) mod 60.
Definition SecFromTime (t : Z) : Z := (t / msPerSecond) mod 60.
Definition msFromTime (t : Z) : Z := t mod msPerSecond.

(** [MakeDay] for a month in 0 to 11; a date beyond the month's end runs
    over into the next month. *)
Definition MakeDay (year month date : Z) : Z :=
  DayFromYear year + monthStart (InLeapYear year) month + date - 1.

Definition MakeTime (hour min sec ms : Z) : Z :=
  hour * msPerHour + min * msPerMinute + sec * msPerSecond + ms.

Definition MakeDate (day time : Z) : Z := day * msPerDay + time.

Definition TimeClip (t : Z) : option Z :=
  if Z.abs t <=? 8640000000000000 then Some t else None.

(** ** Reading the ISO form *)

Definition digitVal (c : N) : Z := Z.of_N c - 48.

(** Exactly [n] decimal digits. *)
Fixpoint readDigits (n : nat) (acc : Z) (s : jsstring)
    : option (Z * jsstring) :=
  match n with
  | O => Some (acc, s)
  | S n' =>
      match s with
      | c :: s' =>
          if isDigit c then readDigits n' (10 * acc + digitVal c) s'
          else None
      | [] => None
      end
  end.

Definition expect (c : string) (s : jsstring) : option jsstring :=
  if startsWith s (lit c) then Some (drop (length (lit c)) s) else None.

(** The longest run of digits at the start of [s], and what follows. *)
Fixpoint spanDigits (s : jsstring) : jsstring * jsstring :=
  match s with
  | c :: s' =>
      if isDigit c then
        let '(ds, rest) := spanDigits s' in (c :: ds, rest)
      else ([], s)
  | [] => ([], [])
  end.

(** The fraction of a second: the first three of its digits count. *)
Definition readFraction (s : jsstring) : option (Z * jsstring) :=
  match expect "." s with
  | Some s1 =>
      let '(ds, rest) := spanDigits s1 in
      match ds with
      | [] => None
      | _ =>
          '(ms, _) ← readDigits 3 0 (take 3 (ds ++ lit "00"));
          Some (ms, rest)
      end
  | None => Some (0, s)
  end.

(** The zone designator: [None] is local time, [Some o] an offset from
    UTC in minutes. *)
Definition readZone (s : jsstring) : option (option Z) :=
  match s with
  | [] => Some None
  | [z] => if (z =? 90)%N then Some (Some 0) else None
  | sign :: s1 =>
      if (sign =? 43)%N || (sign =? 45)%N then
        '(h, s2) ← readDigits 2 0 s1;
        s3 ← expect ":" s2;
        '(m, s4) ← readDigits 2 0 s3;
        match s4 with
        | [] =>
            if (h <=? 23) && (m <=? 59) then
              Some (Some ((if (sign =? 45)%N then -1 else 1) * (60 * h + m)))
            else None
        | _ => None
        end
      else None
  end.

Record Fields := {
  fYear : Z; fMonth : Z; fDay : Z;
  fHour : Z; fMin : Z; fSec : Z; fMs : Z;
  fZone : option Z;
}.

(** [YYYY-MM-DDTHH:mm:ss], an optional fraction, an optional zone. *)
Definition readISO (s : jsstring) : option Fields :=
  '(Y, s) ← readDigits 4 0 s;
  s ← expect "-" s;
  '(M, s) ← readDigits 2 0 s;
  s ← expect "-" s;
  '(D, s) ← readDigits 2 0 s;
  s ← expect "T" s;
  '(h, s) ← readDigits 2 0 s;
  s ← expect ":" s;
  '(m, s) ← readDigits 2 0 s;
  s ← expect ":" s;
  '(sec, s) ← readDigits 2 0 s;
  '(ms, s) ← readFraction s;
  zone ← readZone s;
  Some {| fYear := Y; fMonth := M; fDay := D; fHour := h; fMin := m;
          fSec := sec; fMs := ms; fZone := zone |}.

(** The ranges the engine accepts: months 1 to 12, days 1 to 31, and the
    hour 24 only as 24:00:00.000. *)
Definition fieldsInRange (f : Fields) : bool :=
  (1 <=? fMonth f) && (fMonth f <=? 12)
  && (1 <=? fDay f) && (fDay f <=? 31)
  && (fMin f <=? 59) && (fSec f <=? 59)
  && ((fHour f <=? 23)
      || ((fHour f =? 24) && (fMin f =? 0) && (fSec f =? 0)
          && (fMs f =? 0))).

Definition timeOfFields (h : Host) (f : Fields) : option Z :=
  let t := MakeDate (MakeDay (fYear f) (fMonth f - 1) (fDay f))
             (MakeTime (fHour f) (fMin f) (fSec f) (fMs f)) in
  match fZone f with
  | Some minutes => TimeClip (t - minutes * msPerMinute)
  | None => TimeClip (t - localTZA h t)
  end.

(** Whether the fraction of a second, which follows the nineteen
    characters of the date and the time, has a digit other than 0 after
    its third digit. *)
Definition pastMilliseconds (s : jsstring) : bool :=
  match drop 19 s with
  | c :: r =>
      (c =? 46)%N
      && existsb (fun d => negb (d =? 48)%N) (drop 3 (spanDigits r).1)
  | [] => false
  end.

(** [new Date(s).getTime()], [None] for NaN. The hour 24 with a fraction
    that is zero to the millisecond and not beyond is left to the host,
    like the texts outside the format. *)
Definition parse (h : Host) (s : jsstring) : option Z :=
  match readISO s with
  | Some f =>
      if (fHour f =? 24) && pastMilliseconds s then legacyDateParse h s
      else if fieldsInRange f then timeOfFields h f
      else None
  | None => legacyDateParse h s
  end.

(** ** Writing the ISO form *)

Definition digitChar (v : Z) : N := Z.to_N (48 + v).

(** [v] in [n] decimal digits, padded with zeros. *)
Fixpoint pad (n : nat) (v : Z) : jsstring :=
  match n with
  | O => []
  | S n' => pad n' (v / 10) ++ [digitChar (v mod 10)]
  end.

Definition yearString (y : Z) : jsstring :=
  if (0 <=? y) && (y <=? 9999) then pad 4 y
  else (if y <? 0 then lit "-" else lit "+") ++ pad 6 (Z.abs y).

(** [date.toISOString()] of a date whose time value is [t]. *)
Definition toISOString (t : Z) : jsstring :=
  yearString (YearFromTime t) ++ lit "-" ++ pad 2 (MonthFromTime t + 1)
  ++ lit "-" ++ pad 2 (DateFromTime t) ++ lit "T"
  ++ pad 2 (HourFromTime t) ++ lit ":" ++ pad 2 (MinFromTime t)
  ++ lit ":" ++ pad 2 (SecFromTime t) ++ lit "." ++ pad 3 (msFromTime t)
  ++ lit "Z".

End DateModel.
Import DateModel.

(* ===================================================================== *)
(** * utils/validators.ts                                                 *)
(* ===================================================================== *)

Section Validators.

Context (host : Host).

Definition dangerousPatterns : list regexp :=
  [ RE false (ci "DROP" ++ [Plus Space]);
    RE false (ci "DELETE" ++ [Plus Space]);
    RE false (ci "TRUNCATE" ++ [Plus Space]);
    RE false (ci "INSERT" ++ [Plus Space]);
    RE false (ci "UPDATE" ++ [Plus Space]);
    RE false (ci "ALTER" ++ [Plus Space]);
    RE false (ci "CREATE" ++ [Plus Space]);
    RE false (ci "GRANT" ++ [Plus Space]);
    RE false (ci "REVOKE" ++ [Plus Space]);
    RE false (ci "RENAME" ++ [Plus Space]);
    RE false (ci "LOAD" ++ [Plus Space] ++ ci "DATA");
    RE false (ci "INTO" ++ [Plus Space] ++ ci "OUTFILE");
    RE false (ci "INFORMATION_SCHEMA");
    RE false (ci "SLEEP" ++ [Star Space] ++ ci "(");
    RE false (ci "BENCHMARK" ++ [Star Space] ++ ci "(");
    RE false (ci "SHUTDOWN") ].

(** The messages of the errors [validateSqlQuery] throws. *)
Definition dangerousOperation (matched : jsstring) : Exn :=
  Error (lit "SQL validation failed: Potentially dangerous operation detected ("
         ++ matched ++ lit ")").
Definition notReadOnly : Exn :=
  Error (lit "SQL validation failed: Query must start with SELECT").
Definition unbalancedParens : Exn :=
  Error (lit "SQL validation failed: Unbalanced parentheses").
Definition multipleStatements : Exn :=
  Error (lit "SQL validation failed: Multiple statements detected").
Definition commentInjection : Exn :=
  Error (lit "SQL validation failed: Comments are not allowed").
Definition tooLong : Exn :=
  Error (lit "SQL validation failed: Query too long").

(** [`${match?.[0]}`] *)
Definition matchedText (re : regexp) (s : jsstring) : jsstring :=
  default (lit "undefined") (exec re s).

Definition validateSqlQuery (sql : jsstring) : result bool :=
  match List.find (fun pattern => test pattern sql) dangerousPatterns with
  | Some pattern => Throw (dangerousOperation (matchedText pattern sql))
  | None =>
      if negb (startsWith (toUpperCase host (trim sql)) (lit "SELECT")) then
        Throw notReadOnly
      else
        let openParenCount := length (matchGlobal1 (Chr 40) sql) in
        let closeParenCount := length (matchGlobal1 (Chr 41) sql) in
        if negb (openParenCount =? closeParenCount)%nat then
          Throw unbalancedParens
        else if includes sql (lit ";") && negb (endsWith (trim sql) (lit ";"))
        then Throw multipleStatements
        else if includes sql (lit "--") || includes sql (lit "/*") then
          Throw commentInjection
        else if (2000 <? length sql)%nat then Throw tooLong
        else Ok true
  end.

Definition limitPattern : regexp :=
  RE false (ci "LIMIT" ++ [Plus Space; Plus Digit]).

Definition ensureQueryLimit (sql : jsstring) (limit : number) : jsstring :=
  if test limitPattern sql then sql
  else
    let trimmedSql := trim sql in
    if endsWith trimmedSql (lit ";") then
      sliceButLast trimmedSql ++ lit " LIMIT " ++ Number_toString limit
      ++ lit ";"
    else trimmedSql ++ lit " LIMIT " ++ Number_toString limit.

(** The default value of the parameter [limit]. *)
Definition defaultLimit : number := Number_ofZ 100.

Definition formatDate (date : Value) : jsstring :=
  match date with
  | VDate (Some t) =>
      substring0 19 (replaceFirst 84 (lit " ") (toISOString t))
  | _ => lit "Invalid Date"
  end.

Definition timestampPattern : regexp :=
  RE true (digits 4 ++ cs "-" ++ digits 2 ++ cs "-" ++ digits 2 ++ cs "T"
           ++ digits 2 ++ cs ":" ++ digits 2 ++ cs ":" ++ digits 2).

(** [new Date(value)] for a string. *)
Definition newDate (value : jsstring) : Value := VDate (parse host value).

(** The own enumerable properties that the spread [{ ...row }] copies. *)
Definition indexed (items : list Value) : gmap (list N) Value :=
  list_to_map
    (imap (fun i v => (numberToString (N.of_nat i), v)) items).

Definition spread (row : Value) : gmap (list N) Value :=
  match row with
  | VObj props => props
  | VArr items => indexed items
  | VStr s => indexed ((fun c => VStr [c]) <$> s)
  | _ => ∅
  end.

(** The body of the loop over [Object.entries(formattedRow)]. *)
Definition formatEntry (formattedRow : gmap (list N) Value)
    (entry : list N * Value) : gmap (list N) Value :=
  let '(key, value) := entry in
  match value with
  | VDate _ => <[key := VStr (formatDate value)]> formattedRow
  | VStr s =>
      if test timestampPattern s then
        <[key := VStr (formatDate (newDate s))]> formattedRow
      else formattedRow
  | _ => formattedRow
  end.

Definition formatRow (row : Value) : Value :=
  let formattedRow := spread row in
  VObj (foldl formatEntry formattedRow (map_to_list formattedRow)).

(** [results] is what the caller passes: any value. *)
Definition formatTimestamps (results : Value) : Value :=
  match results with
  | VArr rows => VArr (formatRow <$> rows)
  | _ => results
  end.

(** [message] is a field of the request body: any value. *)
Definition validateChatMessage (message : Value) : result bool :=
  match message with
  | VStr s =>
      if negb (truthy message) then
        Throw (Error (lit "Message is required and must be a string"))
      else if (length (trim s) =? 0)%nat then
        Throw (Error (lit "Message cannot be empty"))
      else if (1000 <? length s)%nat then
        Throw (Error (lit "Message is too long (maximum 1000 characters)"))
      else Ok true
  | _ => Throw (Error (lit "Message is required and must be a string"))
  end.

End Validators.


(* ===================================================================== *)
(** * The services: state, the outside world, and the monad of a handler   *)
(* ===================================================================== *)

Module Types.

Record ColumnMetadata := {
  col_name : jsstring;
  dataType : jsstring;
  isNullable : bool;
  isPrimaryKey : bool;
  isForeignKey : bool;
  defaultValue : Value;
}.

Record Relationship := {
  columnName : jsstring;
  referencedTable : jsstring;
  referencedColumn : jsstring;
}.

Record TableMetadata := {
  name : jsstring;
  columns : list ColumnMetadata;
  primaryKey : option jsstring;
  relationships : list Relationship;
}.

Record DatabaseSchema := { tables : list TableMetadata }.

(** ['success' | 'error' | 'async'] *)
Inductive ResponseStatus := St_success | St_error | St_async.

Record AuditLogEntry := {
  queryText : jsstring;
  userInput : Value;
  executionTime : option Q;
  rowCount : option nat;
  responseStatus : ResponseStatus;
  errorMessage : option jsstring;
}.

Record QueryExecutionResponse := {
  results : Value;
  qRowCount : nat;
  qExecutionTime : Q;
  qAsynchronous : option bool;
}.

Record ChatResponse := {
  message : jsstring;
  sql : option jsstring;
  data : Value;
  conversationId : Value;
  filename : option jsstring;
  asynchronous : option bool;
}.

(** Rows of the information_schema queries of the schema service. *)
Record TableRow := { TABLE_NAME : jsstring }.

Record ColumnRow := {
  COLUMN_NAME : jsstring;
  DATA_TYPE : jsstring;
  IS_NULLABLE : jsstring;
  COLUMN_KEY : jsstring;
  COLUMN_DEFAULT : Value;
  EXTRA : jsstring;
}.

Record KeyUsageRow := {
  k_COLUMN_NAME : jsstring;
  REFERENCED_TABLE_NAME : jsstring;
  REFERENCED_COLUMN_NAME : jsstring;
}.

(** A row of the table audit_logs, as [logQuery] binds its parameters. *)
Record AuditRow := {
  query_text : jsstring;
  user_input : Value;
  execution_time : option Q;
  row_count : option nat;
  response_status : ResponseStatus;
  error_message : option jsstring;
}.

End Types.
Import Types.

Module World.

(** A failed [axios.post]. *)
Record AxiosError := {
  ax_code : option jsstring;
  ax_response : option (N * Value);
  ax_message : jsstring;
}.

Inductive PostOutcome :=
| Responded (data : Value)
| Failed (e : AxiosError)
| Raised (e : Exn).

(** What the outside answers: the database behind [databaseService.query]
    (one field for each statement the services send), the n8n webhook, the
    completion API behind [openAIService], the file system, the clock, and
    the configuration. An answer is a function of what is asked; [now n] is
    the reading of the clock when it is read for the [n]-th time. *)
Record World := {
  queryTables : result (list TableRow);
  queryColumns : jsstring -> result (list ColumnRow);
  queryKeyUsage : jsstring -> result (list KeyUsageRow);
  insertAuditLog : AuditRow -> result unit;
  webhookUrl : jsstring;
  post : jsstring -> PostOutcome;
  generateSql : Value -> option DatabaseSchema -> result jsstring;
  generateResponse : Value -> jsstring -> Value -> result jsstring;
  writeFile : jsstring -> result unit;
  now : nat -> Z;
  uuidv4 : jsstring;
}.

(** The calls a handler makes to the outside, in order. *)
Inductive Call :=
| QueryTables
| QueryColumns (tableName : jsstring)
| QueryKeyUsage (tableName : jsstring)
| InsertAuditLog (row : AuditRow)
| Post (query : jsstring)
| GenerateSql (userQuery : Value)
| GenerateResponse (userQuery : Value) (sql : jsstring) (rows : Value)
| WriteFile (path : jsstring).

(** The fields of the singleton services, the audit table, and the record
    of what has been asked of the outside. *)
Record State := {
  schema : option DatabaseSchema;
  lastRefreshTime : Z;
  audit_logs : list AuditRow;
  calls : list Call;
  clockReads : nat;
}.

Definition initialState : State := {|
  schema := None;
  lastRefreshTime := 0;
  audit_logs := [];
  calls := [];
  clockReads := 0;
|}.

(** An asynchronous function: it runs from a state to a value or a thrown
    exception, and a state. *)
Definition M (A : Type) : Type := State -> result A * State.

Definition ret {A} (a : A) : M A := fun st => (Ok a, st).
Definition throw {A} (e : Exn) : M A := fun st => (Throw e, st).
Definition bind {A B} (m : M A) (k : A -> M B) : M B :=
  fun st =>
    match m st with
    | (Ok a, st') => k a st'
    | (Throw e, st') => (Throw e, st')
    end.
Definition tryCatch {A} (body : M A) (handler : Exn -> M A) : M A :=
  fun st =>
    match body st with
    | (Ok a, st') => (Ok a, st')
    | (Throw e, st') => handler e st'
    end.
Definition lift {A} (r : result A) : M A := fun st => (r, st).
Definition get : M State := fun st => (Ok st, st).
Definition modify (f : State -> State) : M unit := fun st => (Ok tt, f st).

Definition recordCall (c : Call) (st : State) : State :=
  {| schema := schema st; lastRefreshTime := lastRefreshTime st;
     audit_logs := audit_logs st; calls := calls st ++ [c];
     clockReads := clockReads st |}.

Definition tick (st : State) : State :=
  {| schema := schema st; lastRefreshTime := lastRefreshTime st;
     audit_logs := audit_logs st; calls := calls st;
     clockReads := S (clockReads st) |}.

Definition record (c : Call) : M unit := modify (recordCall c).

Fixpoint forEach {A B} (xs : list A) (body : A -> M B) : M (list B) :=
  match xs with
  | [] => ret []
  | x :: xs' =>
      bind (body x)
        (fun y => bind (forEach xs' body) (fun ys => ret (y :: ys)))
  end.

End World.
Import World.

(** The notations [x ← m; k] and [m ;; k] of stdpp, at the monad [M]. *)
#[global] Instance M_ret : MRet M := @ret.
#[global] Instance M_bind : MBind M := fun A B k m => bind m k.

Section Services.

Context (host : Host) (w : World).

(** ** State updates *)

Definition setSchema (x : option DatabaseSchema) (st : State) : State :=
  {| schema := x; lastRefreshTime := lastRefreshTime st;
     audit_logs := audit_logs st; calls := calls st;
     clockReads := clockReads st |}.

Definition setLastRefreshTime (t : Z) (st : State) : State :=
  {| schema := schema st; lastRefreshTime := t;
     audit_logs := audit_logs st; calls := calls st;
     clockReads := clockReads st |}.

Definition appendAuditLog (row : AuditRow) (st : State) : State :=
  {| schema := schema st; lastRefreshTime := lastRefreshTime st;
     audit_logs := audit_logs st ++ [row]; calls := calls st;
     clockReads := clockReads st |}.

(** [Date.now()] and [new Date()]: the next reading of the clock. *)
Definition dateNow : M Z :=
  fun st => (Ok (now w (clockReads st)), tick st).

(** A call to the outside: it is recorded, and answers or throws. *)
Definition ask {A} (c : Call) (answer : result A) : M A :=
  record c;; lift answer.

(** ** services/schema.service.ts *)

Definition refreshIntervalMs : Z := 3600000.

Definition getTables : M (list jsstring) :=
  tryCatch
    (tablesResult ← ask QueryTables (queryTables w);
     mret (TABLE_NAME <$> tablesResult))
    (fun error => throw error).

Definition getColumns (tableName : jsstring) : M (list ColumnMetadata) :=
  tryCatch
    (columnsResult ← ask (QueryColumns tableName) (queryColumns w tableName);
     mret ((fun col =>
              {| col_name := COLUMN_NAME col;
                 dataType := DATA_TYPE col;
                 isNullable := streq (IS_NULLABLE col) (lit "YES");
                 isPrimaryKey := streq (COLUMN_KEY col) (lit "PRI");
                 isForeignKey := streq (COLUMN_KEY col) (lit "MUL");
                 defaultValue := COLUMN_DEFAULT col |}) <$> columnsResult))
    (fun error => throw error).

Definition getRelationships (tableName : jsstring) : M (list Relationship) :=
  tryCatch
    (relationshipsResult ←
       ask (QueryKeyUsage tableName) (queryKeyUsage w tableName);
     mret ((fun rel =>
              {| columnName := k_COLUMN_NAME rel;
                 referencedTable := REFERENCED_TABLE_NAME rel;
                 referencedColumn := REFERENCED_COLUMN_NAME rel |})
           <$> relationshipsResult))
    (fun error => throw error).

Definition refreshSchema : M unit :=
  tryCatch
    (tables ← getTables;
     tablesMetadata ← forEach tables (fun tableName =>
       columns ← getColumns tableName;
       relationships ← getRelationships tableName;
       let primaryKeyColumn := List.find isPrimaryKey columns in
       mret {| name := tableName;
               columns := columns;
               primaryKey := col_name <$> primaryKeyColumn;
               relationships := relationships |});
     modify (setSchema (Some {| tables := tablesMetadata |}));;
     refreshedAt ← dateNow;
     modify (setLastRefreshTime refreshedAt))
    (fun error => throw (Error (lit "Schema discovery failed"))).

Definition getSchema (forceRefresh : bool) : M (option DatabaseSchema) :=
  currentTime ← dateNow;
  st ← get;
  (if (match schema st with None => true | Some _ => false end)
      || forceRefresh
      || (refreshIntervalMs <? currentTime - lastRefreshTime st)
   then refreshSchema else mret tt);;
  st' ← get;
  mret (schema st').

(** ** services/database.service.ts *)

(** [x || null] on an optional field. *)
Definition orNull {A} (falsy : A -> bool) (x : option A) : option A :=
  match x with
  | Some a => if falsy a then None else Some a
  | None => None
  end.

Definition logQuery (entry : AuditLogEntry) : M unit :=
  tryCatch
    (let row :=
       {| query_text := queryText entry;
          user_input := userInput entry;
          execution_time := orNull (Qeq_bool 0) (executionTime entry);
          row_count := orNull (Nat.eqb 0) (rowCount entry);
          response_status := responseStatus entry;
          error_message := orNull (streq []) (errorMessage entry) |} in
     ask (InsertAuditLog row) (insertAuditLog w row);;
     modify (appendAuditLog row))
    (fun error => mret tt).

(** ** services/n8n.service.ts *)

Definition typeOf (v : Value) : jsstring :=
  match v with
  | VUndefined => lit "undefined"
  | VBool _ => lit "boolean"
  | VNum _ => lit "number"
  | VStr _ => lit "string"
  | VNull | VDate _ | VArr _ | VObj _ => lit "object"
  end.

(** [v === s] for a string [s]. *)
Definition isString (v : Value) (s : jsstring) : bool :=
  match v with VStr x => streq x s | _ => false end.

Definition saveResultsAsJson (data requestId : Value) : M jsstring :=
  tryCatch
    (created ← dateNow;
     let timestamp :=
       replaceGlobal1 (OneOf [58; 46]%N) (lit "-") (toISOString created) in
     idPart ←
       (if truthy requestId then
          match requestId with
          | VStr s => mret (lit "_" ++ substring0 8 s)
          | _ => throw (TypeError (lit "requestId.substring is not a function"))
          end
        else mret []);
     let filename := lit "query_" ++ timestamp ++ idPart ++ lit ".json" in
     ask (WriteFile filename) (writeFile w filename);;
     mret filename)
    (fun error => throw error).

(** [axios.post(this.webhookUrl, request, ...)] with the handler of its
    failures. *)
Definition postQuery (query : jsstring) : M Value :=
  record (Post query);;
  match post w query with
  | Responded data => mret data
  | Failed axiosError =>
      if bool_decide (ax_code axiosError = Some (lit "ECONNREFUSED")) then
        throw (Error (lit "Could not connect to n8n at " ++ webhookUrl w
                      ++ lit ". Make sure n8n is running."))
      else if bool_decide (ax_code axiosError = Some (lit "ETIMEDOUT"))
              || bool_decide (ax_code axiosError = Some (lit "ECONNABORTED"))
      then
        throw (Error (lit "Connection to n8n timed out. The server at "
                      ++ webhookUrl w ++ lit " is not responding."))
      else
        match ax_response axiosError with
        | Some (status, body) =>
            throw (Error (lit "n8n returned error status "
                          ++ numberToString status ++ lit ": "
                          ++ JSON_stringify host body))
        | None =>
            throw (Error (lit "Failed to communicate with n8n: "
                          ++ ax_message axiosError))
        end
  | Raised e => throw e
  end.

Definition seconds (ms : Z) : Q := Qmake ms 1000.

Definition executeQuery (query : jsstring) : M QueryExecutionResponse :=
  startTime ← dateNow;
  tryCatch
    ((if negb (truthy (VStr (webhookUrl w)))
         || streq (trim (webhookUrl w)) []
      then throw (Error (lit "n8n webhook URL is missing or empty. Please check your .env configuration."))
      else mret tt);;
     data ← postQuery query;
     finished ← dateNow;
     let executionTime := seconds (finished - startTime) in
     if negb (truthy data) then
       throw (Error (lit "n8n returned an empty response"))
     else if isString (getProp data (lit "message"))
               (lit "Workflow was started")
     then
       mret {| results := VArr [];
               qRowCount := 0;
               qExecutionTime := executionTime;
               qAsynchronous := Some true |}
     else if negb (truthy (getProp data (lit "results"))) then
       throw (Error (lit "n8n response is missing the 'results' field: "
                     ++ JSON_stringify host data))
     else
       match getProp data (lit "results") with
       | VArr rows =>
           tryCatch
             (saveResultsAsJson (VStr query) (VArr rows);; mret tt)
             (fun saveError => mret tt);;
           mret {| results := VArr rows;
                   qRowCount := length rows;
                   qExecutionTime := executionTime;
                   qAsynchronous := None |}
       | other =>
           throw (Error (lit "n8n 'results' field is not an array: "
                         ++ typeOf other))
       end)
    (fun error =>
       dateNow;;
       throw (Error (lit "Failed to execute query via n8n" ++ lit ": "
                     ++ JS.message error))).

(** ** controllers/chat.controller.ts *)

Record Request := {
  body_message : Value;
  body_conversationId : Value;
  x_request_id : option jsstring;
}.

Record Reply := {
  status : N;
  body : ChatResponse;
}.

Definition header (h : option jsstring) : Value :=
  match h with Some s => VStr s | None => VUndefined end.

(** The body of the [try] of [processChat]: steps 1 to 8. *)
Definition chatSteps (req : Request) (message conversationId : Value)
    : M Reply :=
  databaseSchema ← getSchema false;
  generated ← ask (GenerateSql message)
                (generateSql w message databaseSchema);
  sql ← tryCatch
          (lift (validateSqlQuery host generated);;
           mret (ensureQueryLimit generated defaultLimit))
          (fun error =>
             throw (AppError (lit "SQL generation failed: "
                              ++ JS.message error) VALIDATION_ERROR));
  queryExecution ← executeQuery sql;
  if default false (qAsynchronous queryExecution) then
    let response :=
      {| message := lit "Your query is being processed. Results will be available soon.";
         sql := Some sql;
         data := VArr [];
         conversationId := conversationId;
         filename := None;
         asynchronous := Some true |} in
    logQuery {| queryText := sql;
                userInput := message;
                executionTime := None;
                rowCount := None;
                responseStatus := St_async;
                errorMessage := None |};;
    mret {| status := 202; body := response |}
  else
    let formattedResults :=
      formatTimestamps host (results queryExecution) in
    answer ← ask (GenerateResponse message sql formattedResults)
               (generateResponse w message sql formattedResults);
    logQuery {| queryText := sql;
                userInput := message;
                executionTime := Some (qExecutionTime queryExecution);
                rowCount := Some (qRowCount queryExecution);
                responseStatus := St_success;
                errorMessage := None |};;
    stamped ← dateNow;
    let jsonData :=
      VObj (list_to_map
              [(lit "timestamp", VStr (toISOString stamped));
               (lit "query", VStr sql);
               (lit "results", formattedResults);
               (lit "userQuery", message);
               (lit "naturalLanguageResponse", VStr answer)]) in
    tryCatch
      (saveResultsAsJson jsonData (header (x_request_id req));; mret tt)
      (fun error => mret tt);;
    named ←
      (if truthy (header (x_request_id req)) then
         sent ← dateNow;
         mret (Some (lit "query_"
                     ++ replaceGlobal1 (OneOf [58; 46]%N) (lit "-")
                          (toISOString sent)
                     ++ lit "_"
                     ++ substring0 8 (default [] (x_request_id req))
                     ++ lit ".json"))
       else mret None);
    mret {| status := 200;
            body := {| message := answer;
                       sql := Some sql;
                       data := formattedResults;
                       conversationId := conversationId;
                       filename := named;
                       asynchronous := None |} |}.

(** The body of the [catch] of [processChat]. *)
Definition chatFailed (message : Value) (error : Exn) : M Reply :=
  let errorMessage := JS.message error in
  let '(userFriendlyMessage, errorCode) :=
    if includes errorMessage (lit "OpenAI") then
      (lit "Error connecting to AI service. Please try again later.",
       SERVICE_UNAVAILABLE)
    else if includes errorMessage (lit "n8n")
            || includes errorMessage (lit "query") then
      (lit "Error executing database query. The database service may be unavailable.",
       DATABASE_ERROR)
    else if includes errorMessage (lit "timeout")
            || includes errorMessage (lit "timed out") then
      (lit "The request took too long to process. Please try a simpler query.",
       TIMEOUT)
    else (lit "Failed to process your request", INTERNAL_ERROR) in
  tryCatch
    (logQuery {| queryText := [];
                 userInput := message;
                 executionTime := None;
                 rowCount := None;
                 responseStatus := St_error;
                 errorMessage := Some errorMessage |})
    (fun auditError => mret tt);;
  throw (AppError userFriendlyMessage errorCode).

Definition processChat (req : Request) : M Reply :=
  let message := body_message req in
  let existingConversationId := body_conversationId req in
  tryCatch (lift (validateChatMessage message))
    (fun error => throw (AppError (JS.message error) VALIDATION_ERROR));;
  let conversationId :=
    if truthy existingConversationId then existingConversationId
    else VStr (uuidv4 w) in
  tryCatch (chatSteps req message conversationId) (chatFailed message).

End Services.

(* ===================================================================== *)
(** * The vocabulary of the specification                                  *)
(* ===================================================================== *)

(** How often the character [c] occurs in [s]. *)
Definition occurrences (c : N) (s : jsstring) : nat :=
  length (filter (fun x => x = c) s).

(** A finite number that is not negative. *)
Definition NotNegative (x : number) : Prop :=
  match x with
  | Zero | Finite false _ _ => True
  | _ => False
  end.

(** A semicolon stands somewhere in [s] with more than blanks after it: it
    is not just the terminator at the end. *)
Definition SemicolonInside (s : jsstring) : Prop :=
  exists pre post, s = pre ++ lit ";" ++ post /\ trim post <> [].

(** No pattern of the denylist occurs in [sql]. *)
Definition NotDenylisted (sql : jsstring) : Prop :=
  Forall (fun re => ~ Contains (nodes re) sql) dangerousPatterns.

(** The days of month [m] (1 to 12) of year [y]. *)
Definition DaysInMonth (y m : Z) : Z :=
  if m =? 2 then (if InLeapYear y then 29 else 28)
  else if (m =? 4) || (m =? 6) || (m =? 9) || (m =? 11) then 30
  else 31.

(** A date and a time of day of the calendar, in UTC. *)
Record Civil := {
  year : Z; month : Z; day : Z; hour : Z; minute : Z; second : Z;
}.

Definition ValidCivil (c : Civil) : Prop :=
  0 <= year c <= 9999 /\ 1 <= month c <= 12
  /\ 1 <= day c <= DaysInMonth (year c) (month c)
  /\ 0 <= hour c <= 23 /\ 0 <= minute c <= 59 /\ 0 <= second c <= 59.

(** [YYYY-MM-DD] and [HH:MM:SS]. *)
Definition dateText (c : Civil) : jsstring :=
  pad 4 (year c) ++ lit "-" ++ pad 2 (month c) ++ lit "-" ++ pad 2 (day c).
Definition timeText (c : Civil) : jsstring :=
  pad 2 (hour c) ++ lit ":" ++ pad 2 (minute c) ++ lit ":" ++ pad 2 (second c).

(** Nothing, or a point and digits. *)
Definition IsFraction (frac : jsstring) : Prop :=
  frac = [] \/ exists ds, ds <> [] /\ Forall (fun d => isDigit d = true) ds
                          /\ frac = lit "." ++ ds.

(** The ISO-8601 text of [c] in UTC, and its canonical text. *)
Definition isoUtc (c : Civil) (frac : jsstring) : jsstring :=
  dateText c ++ lit "T" ++ timeText c ++ frac ++ lit "Z".
Definition canonical (c : Civil) : jsstring :=
  dateText c ++ lit " " ++ timeText c.

(** The time value of [c] and [ms] milliseconds. *)
Definition timeValue (c : Civil) (ms : Z) : Z :=
  MakeDate (MakeDay (year c) (month c - 1) (day c))
    (MakeTime (hour c) (minute c) (second c) ms).

(** A value of the timestamp shape: a Date object, or a string that starts
    with dddd-dd-ddTdd:dd:dd. *)
Definition TimestampShaped (v : Value) : Prop :=
  match v with
  | VDate _ => True
  | VStr s =>
      exists stamp rest,
        s = stamp ++ rest /\ Matches (nodes timestampPattern) stamp
  | _ => False
  end.

(** What [formatTimestamps] makes of the value of an entry. *)
Definition formatValue (host : Host) (v : Value) : Value :=
  match v with
  | VDate _ => VStr (formatDate v)
  | VStr s =>
      if test timestampPattern s then VStr (formatDate (newDate host s))
      else v
  | _ => v
  end.

(** The rows that the calls [cs] have sent to the table audit_logs. *)
Definition auditWrites (cs : list Call) : list AuditRow :=
  omap (fun c => match c with InsertAuditLog row => Some row | _ => None end)
    cs.

(** The calls among [cs] to the summarization of results. *)
Definition isSummaryCall (c : Call) : bool :=
  match c with GenerateResponse _ _ _ => true | _ => false end.

Definition summaryCalls (cs : list Call) : list Call :=
  filter (fun c => isSummaryCall c = true) cs.

(** A step of a schema refresh fails: the listing of the tables, or the
    columns or the relationships of a listed table. *)
Definition RefreshStepFails (w : World) : Prop :=
  (exists e, queryTables w = Throw e)
  \/ (exists rows tableName e,
         queryTables w = Ok rows /\ tableName ∈ TABLE_NAME <$> rows
         /\ (queryColumns w tableName = Throw e
             \/ queryKeyUsage w tableName = Throw e)).

(** A computation keeps a relation between the state it starts from and
    the state it leaves. *)
Class Keeps {A} (R : relation State) (m : M A) : Prop :=
  keeps : forall st, R st (m st).2.

(** A relation that every reading of the clock keeps, and every call to
    the outside that is [quiet]. *)
Class Quiet (R : relation State) (quiet : Call -> bool) : Prop := {
  Quiet_preorder :: PreOrder R;
  Quiet_tick : forall st, R st (tick st);
  Quiet_record : forall c st, quiet c = true -> R st (recordCall c st);
}.

(** A relation that does not look at the schema cache, or at the table of
    the audit log. *)
Class IgnoresCache (R : relation State) : Prop := {
  ignores_setSchema : forall x st, R st (setSchema x st);
  ignores_setLastRefreshTime : forall t st, R st (setLastRefreshTime t st);
}.

Class IgnoresAuditTable (R : relation State) : Prop :=
  ignores_appendAuditLog : forall row st, R st (appendAuditLog row st).

(** Nothing is written to the audit log. *)
Definition SameAudit : relation State := fun st st' =>
  auditWrites (calls st') = auditWrites (calls st)
  /\ audit_logs st' = audit_logs st.

(** The summarization is not called. *)
Definition SameSummaries : relation State := fun st st' =>
  summaryCalls (calls st') = summaryCalls (calls st).

(** The cached snapshot and the time of its refresh stay. *)
Definition SameCache : relation State := fun st st' =>
  schema st' = schema st /\ lastRefreshTime st' = lastRefreshTime st.

(** Calls are only added. *)
Definition MoreCalls : relation State := fun st st' =>
  calls st `prefix_of` calls st'.

Definition notAudit (c : Call) : bool :=
  match c with InsertAuditLog _ => false | _ => true end.

Definition notSummary (c : Call) : bool := negb (isSummaryCall c).

Definition anyCall (c : Call) : bool := true.

(** The cache is stale when [getSchema] is called: there is no snapshot,
    the caller forces a refresh, or more than the refresh interval has
    passed since the last refresh. *)
Definition Stale (w : World) (forceRefresh : bool) (st : State) : Prop :=
  schema st = None \/ forceRefresh = true
  \/ refreshIntervalMs < now w (clockReads st) - lastRefreshTime st.

(** The outcome of a request: since [st], exactly one row has been sent to
    the audit log, its status tells the outcome, and the table has
    received it if the insertion succeeded. *)
Definition AuditedOnce (w : World) (st : State) (out : result Reply * State)
    : Prop :=
  exists row,
    auditWrites (calls out.2) = auditWrites (calls st) ++ [row]
    /\ match out.1 with
       | Ok reply =>
           (status reply = 200%N /\ response_status row = St_success)
           \/ (status reply = 202%N /\ response_status row = St_async)
       | Throw _ => response_status row = St_error
       end
    /\ audit_logs out.2
       = match insertAuditLog w row with
         | Ok _ => audit_logs st ++ [row]
         | Throw _ => audit_logs st
         end.

(** The outcome of the steps of [processChat] before its [catch]. *)
Definition StepsOutcome (w : World) (st : State) (out : result Reply * State)
    : Prop :=
  match out.1 with
  | Ok _ => AuditedOnce w st out
  | Throw _ => SameAudit st out.2
  end.

(** The row that [logQuery] sends for an entry. *)
Definition auditRow (entry : AuditLogEntry) : AuditRow :=
  {| query_text := queryText entry;
     user_input := userInput entry;
     execution_time := orNull (Qeq_bool 0) (executionTime entry);
     row_count := orNull (Nat.eqb 0) (rowCount entry);
     response_status := responseStatus entry;
     error_message := orNull (streq []) (errorMessage entry) |}.

(** The state after [logQuery] has sent [row]. *)
Definition logged (w : World) (row : AuditRow) (st : State) : State :=
  match insertAuditLog w row with
  | Ok _ => appendAuditLog row (recordCall (InsertAuditLog row) st)
  | Throw _ => recordCall (InsertAuditLog row) st
  end.

(** A world for running the handlers: a database with the table users, a
    webhook that acknowledges every query as started, and a completion API
    that always writes the same statement. *)
Definition startedWorld : World := {|
  queryTables := Ok [ {| TABLE_NAME := lit "users" |} ];
  queryColumns := fun _ =>
    Ok [ {| COLUMN_NAME := lit "id"; DATA_TYPE := lit "int";
            IS_NULLABLE := lit "NO"; COLUMN_KEY := lit "PRI";
            COLUMN_DEFAULT := VNull; EXTRA := lit "auto_increment" |} ];
  queryKeyUsage := fun _ => Ok [];
  insertAuditLog := fun _ => Ok tt;
  webhookUrl := lit "http://localhost:5678/webhook/execute-query";
  post := fun _ =>
    Responded (VObj {[ lit "message" := VStr (lit "Workflow was started") ]});
  generateSql := fun _ _ => Ok (lit "SELECT * FROM users");
  generateResponse := fun _ _ _ => Ok (lit "There is one user.");
  writeFile := fun _ => Ok tt;
  now := fun n => 1697380222000 + 1000 * Z.of_nat n;
  uuidv4 := lit "3f2b8c1e-0000-4000-8000-000000000000";
|}.

(** A world whose database is down. *)
Definition downWorld : World := {|
  queryTables := Throw (Error (lit "connect ECONNREFUSED"));
  queryColumns := fun _ => Throw (Error (lit "connect ECONNREFUSED"));
  queryKeyUsage := fun _ => Throw (Error (lit "connect ECONNREFUSED"));
  insertAuditLog := fun _ => Throw (Error (lit "connect ECONNREFUSED"));
  webhookUrl := webhookUrl startedWorld;
  post := post startedWorld;
  generateSql := generateSql startedWorld;
  generateResponse := generateResponse startedWorld;
  writeFile := writeFile startedWorld;
  now := now startedWorld;
  uuidv4 := uuidv4 startedWorld;
|}.


(* ===================================================================== *)
(** * Further functions of the sources                                     *)
(* ===================================================================== *)

(** ** utils/validators.ts: sanitizeString *)

Definition sanitizeString (input : Value) : jsstring :=
  match input with
  | VStr s =>
      trim
        (replaceGlobal1 (Chr 39) (lit "&#39;")
           (replaceGlobal1 (Chr 34) (lit "&quot;")
              (replaceGlobal1 (Chr 38) (lit "&amp;")
                 (replaceGlobal1 (OneOf [60; 62]%N) [] s))))
  | _ => []
  end.

(** ** services/schema.service.ts: getSchemaDescription *)

(** The line feed of the template strings. *)
Definition nl : jsstring := [10%N].

(** [xs.join(sep)] *)
Definition join (sep : jsstring) (xs : list jsstring) : jsstring :=
  match xs with
  | [] => []
  | x :: rest => x ++ mjoin ((fun y => sep ++ y) <$> rest)
  end.

(** What the loop over the columns of a table appends for a column. *)
Definition columnLine (column : ColumnMetadata) : jsstring :=
  let constraints :=
    (if isPrimaryKey column then [lit "PRIMARY KEY"] else [])
    ++ (if isForeignKey column then [lit "FOREIGN KEY"] else [])
    ++ (if negb (isNullable column) then [lit "NOT NULL"] else []) in
  let constraintStr :=
    if (0 <? length constraints)%nat
    then lit " (" ++ join (lit ", ") constraints ++ lit ")"
    else [] in
  lit "  - " ++ col_name column ++ lit ": " ++ dataType column
  ++ constraintStr ++ nl.

(** What the loop over the relationships appends for a relationship. *)
Definition relationshipLine (rel : Relationship) : jsstring :=
  lit "  - " ++ columnName rel ++ lit " references " ++ referencedTable rel
  ++ lit "(" ++ referencedColumn rel ++ lit ")" ++ nl.

(** The body of the loop over the tables. *)
Definition describeTable (description : jsstring) (table : TableMetadata)
    : jsstring :=
  let description := description ++ lit "Table: " ++ name table ++ nl in
  let description := description ++ lit "Columns:" ++ nl in
  let description :=
    foldl (fun d column => d ++ columnLine column) description
      (columns table) in
  let description :=
    if (0 <? length (relationships table))%nat then
      foldl (fun d rel => d ++ relationshipLine rel)
        (description ++ lit "Relationships:" ++ nl) (relationships table)
    else description in
  description ++ nl.

Definition getSchemaDescription (schema : DatabaseSchema) : jsstring :=
  foldl describeTable (lit "Database Schema:" ++ nl ++ nl) (tables schema).

(** ** middleware/error.middleware.ts *)

Definition ERROR_CODES (code : ErrorCode) : N :=
  match code with
  | VALIDATION_ERROR => 400
  | AUTHENTICATION_ERROR => 401
  | AUTHORIZATION_ERROR => 403
  | NOT_FOUND => 404
  | CONFLICT => 409
  | RATE_LIMIT => 429
  | INTERNAL_ERROR => 500
  | DATABASE_ERROR => 503
  | SERVICE_UNAVAILABLE => 503
  | TIMEOUT => 504
  end.

Record ErrorResponse := {
  er_status : N;
  er_message : jsstring;
  er_errorCode : ErrorCode;
  er_details : option jsstring;
}.

(** The response of [errorHandlerMiddleware] to an error, but for the
    stack trace; [production] is [NODE_ENV === 'production'], and
    [toLowerCase] is [String.prototype.toLowerCase] of the engine. *)
Definition errorHandlerMiddleware (production : bool)
    (toLowerCase : jsstring -> jsstring) (err : Exn) : ErrorResponse :=
  let '(statusCode, errorCode, message) :=
    match err with
    | AppError m code => (ERROR_CODES code, code, m)
    | Error m | TypeError m | NamedError _ m =>
        if includes m (lit "validation") then (400%N, VALIDATION_ERROR, m)
        else if includes m (lit "not found")
                || includes m (lit "does not exist")
        then (404%N, NOT_FOUND, m)
        else if includes m (lit "timeout")
                || includes (toLowerCase m) (lit "timed out")
        then (504%N, TIMEOUT, m)
        else if includes (toLowerCase m) (lit "database")
        then (503%N, DATABASE_ERROR, m)
        else (500%N, INTERNAL_ERROR, m)
    end in
  {| er_status := statusCode;
     er_message := message;
     er_errorCode := errorCode;
     er_details :=
       if production then None
       else
         match errorCode with
         | DATABASE_ERROR =>
             Some (lit "Check database connection and n8n status")
         | SERVICE_UNAVAILABLE =>
             Some (lit "Check if OpenAI API is accessible and key is valid")
         | TIMEOUT =>
             Some (lit "Request took too long. Try a simpler query or check service status")
         | _ => None
         end |}.

(** The error that [asyncHandler] passes on to the error handler: an
    error that is not an [AppError] is wrapped into one, with the code
    TIMEOUT if its name is TimeoutError and INTERNAL_ERROR otherwise. *)
Definition passedOn (error : Exn) : Exn :=
  match error with
  | AppError _ _ => error
  | _ =>
      AppError
        (if truthy (VStr (JS.message error)) then JS.message error
         else lit "An unexpected error occurred")
        (if streq (errorName error) (lit "TimeoutError") then TIMEOUT
         else INTERNAL_ERROR)
  end.

(** [asyncHandler(fn)], as long as the handler has sent nothing when it
    throws. *)
Definition asyncHandler {A} (fn : M A) : M A :=
  tryCatch fn (fun error => throw (passedOn error)).

(** The HTTP status that the client of a route receives, for the outcome
    of its handler: the status the handler sends, or the status that
    [errorHandlerMiddleware] sends for the error that [asyncHandler]
    passes on. *)
Definition httpStatus {A} (sent : A -> N) (production : bool)
    (toLowerCase : jsstring -> jsstring) (outcome : result A) : N :=
  match outcome with
  | Ok a => sent a
  | Throw e =>
      er_status (errorHandlerMiddleware production toLowerCase (passedOn e))
  end.

(** ** controllers/results.controller.ts *)

(** A pattern that ends with [$]: the text matched, which is all of [s]. *)
Fixpoint matchWhole (p : list node) (s : jsstring) {struct p}
    : option jsstring :=
  match p with
  | [] => match s with [] => Some [] | _ :: _ => None end
  | One a :: p' =>
      match s with
      | c :: s' =>
          if atomMatches a c then cons c <$> matchWhole p' s' else None
      | [] => None
      end
  | Plus a :: p' =>
      match s with
      | c :: s' =>
          if atomMatches a c then cons c <$> greedy a (matchWhole p') s'
          else None
      | [] => None
      end
  | Star a :: p' => greedy a (matchWhole p') s
  end.

(** [a-zA-Z0-9_\-\.] *)
Definition filenameChars : list N :=
  (N.of_nat <$> seq 97 26) ++ (N.of_nat <$> seq 65 26)
  ++ (N.of_nat <$> seq 48 10) ++ [95; 45; 46]%N.

(** The pattern of [getJsonResults], between [^] and [$]. *)
Definition filenamePattern : list node :=
  [Plus (OneOf filenameChars)] ++ cs ".json".

Inductive ReadOutcome :=
| FileContent (content : jsstring)
| NoEntry
| ReadFailure (e : Exn).

(** [getJsonResults] for the route parameter [filename]: what it sends, or
    the error it throws. [readFile] is the file system under the directory
    query_results, and [parses] tells whether [JSON.parse] accepts a
    text. *)
Definition getJsonResults (readFile : jsstring -> ReadOutcome)
    (parses : jsstring -> bool) (filename : jsstring) : result jsstring :=
  if negb (truthy (VStr filename))
     || negb (bool_decide (is_Some (matchWhole filenamePattern filename)))
  then Throw (AppError (lit "Invalid filename") VALIDATION_ERROR)
  else
    match readFile filename with
    | FileContent fileContent =>
        if parses fileContent then Ok fileContent
        else Throw (AppError (lit "Failed to retrieve results file")
                      INTERNAL_ERROR)
    | NoEntry => Throw (AppError (lit "Results file not found") NOT_FOUND)
    | ReadFailure _ =>
        Throw (AppError (lit "Failed to retrieve results file")
                 INTERNAL_ERROR)
    end.

Section MoreServices.

Context (host : Host) (w : World).

(** ** controllers/chat.controller.ts: getSchema and executeRawQuery *)

(** The handler of GET /schema, for the query parameter [refresh]. *)
Definition getSchemaRoute (refresh : Value)
    : M (N * option DatabaseSchema) :=
  let forceRefresh := isString refresh (lit "true") in
  schema ← getSchema w forceRefresh;
  mret (200%N, schema).

Record RawReply := {
  raw_status : N;
  raw_results : Value;
  raw_rowCount : nat;
  raw_executionTime : Q;
}.

(** The handler of POST /query, for the field [query] of the body. *)
Definition executeRawQuery (query : Value) : M RawReply :=
  match query with
  | VStr text =>
      if negb (truthy query) then
        throw (AppError (lit "Query is required and must be a string")
                 VALIDATION_ERROR)
      else
        tryCatch (lift (validateSqlQuery host text))
          (fun error =>
             throw (AppError (lit "SQL validation failed: "
                              ++ JS.message error) VALIDATION_ERROR));;
        queryExecution ← executeQuery host w text;
        let formattedResults :=
          formatTimestamps host (results queryExecution) in
        logQuery w {| queryText := text;
                      userInput := VStr (lit "Raw query execution");
                      executionTime := Some (qExecutionTime queryExecution);
                      rowCount := Some (qRowCount queryExecution);
                      responseStatus := St_success;
                      errorMessage := None |};;
        mret {| raw_status := 200;
                raw_results := formattedResults;
                raw_rowCount := qRowCount queryExecution;
                raw_executionTime := qExecutionTime queryExecution |}
  | _ =>
      throw (AppError (lit "Query is required and must be a string")
               VALIDATION_ERROR)
  end.

End MoreServices.

(** ** What the further properties speak of *)

(** The statements that the calls [cs] have posted to the webhook. *)
Definition posted (cs : list Call) : list jsstring :=
  omap (fun c => match c with Post q => Some q | _ => None end) cs.

(** The files that the calls [cs] have written. *)
Definition written (cs : list Call) : list jsstring :=
  omap (fun c => match c with WriteFile f => Some f | _ => None end) cs.

Definition notPost (c : Call) : bool :=
  match c with Post _ => false | _ => true end.

(** Nothing is posted to the webhook. *)
Definition SamePosts : relation State := fun st st' =>
  posted (calls st') = posted (calls st).

(** The messages that the calls [cs] have sent to the model for a
    statement, and the relation of a computation that sends none. *)
Definition asked (cs : list Call) : list Value :=
  omap (fun c => match c with GenerateSql m => Some m | _ => None end) cs.

Definition notGenerate (c : Call) : bool :=
  match c with GenerateSql _ => false | _ => true end.

Definition SameAsked : relation State := fun st st' =>
  asked (calls st') = asked (calls st).

(** The errors of [validateSqlQuery] that do not quote the statement. *)
Definition structuralErrors : list Exn :=
  [notReadOnly; unbalancedParens; multipleStatements; commentInjection;
   tooLong].

(** The error that [processChat] throws for a failure whose message is
    [errorMessage]. *)
Definition chatError (errorMessage : jsstring) : Exn :=
  if includes errorMessage (lit "OpenAI") then
    AppError (lit "Error connecting to AI service. Please try again later.")
      SERVICE_UNAVAILABLE
  else if includes errorMessage (lit "n8n")
          || includes errorMessage (lit "query") then
    AppError (lit "Error executing database query. The database service may be unavailable.")
      DATABASE_ERROR
  else if includes errorMessage (lit "timeout")
          || includes errorMessage (lit "timed out") then
    AppError (lit "The request took too long to process. Please try a simpler query.")
      TIMEOUT
  else AppError (lit "Failed to process your request") INTERNAL_ERROR.

(** The row that [processChat] sends to the audit log for a failure. *)
Definition failureRow (message : Value) (errorMessage : jsstring) : AuditRow :=
  auditRow {| queryText := [];
              userInput := message;
              executionTime := None;
              rowCount := None;
              responseStatus := St_error;
              errorMessage := Some errorMessage |}.

(** Worlds for running the handlers on other paths: a webhook that
    answers every query with one row; a completion API that writes a
    statement that is not a SELECT; and a webhook that refuses the
    connection. *)
Definition rowsWorld : World := {|
  queryTables := queryTables startedWorld;
  queryColumns := queryColumns startedWorld;
  queryKeyUsage := queryKeyUsage startedWorld;
  insertAuditLog := insertAuditLog startedWorld;
  webhookUrl := webhookUrl startedWorld;
  post := fun _ =>
    Responded
      (VObj {[ lit "results"
               := VArr [VObj {[ lit "id" := VNum 1;
                                lit "created_at"
                                := VStr (lit "2023-10-15T14:30:22.000Z") ]}]
            ]});
  generateSql := generateSql startedWorld;
  generateResponse := generateResponse startedWorld;
  writeFile := writeFile startedWorld;
  now := now startedWorld;
  uuidv4 := uuidv4 startedWorld;
|}.

Definition showWorld : World := {|
  queryTables := queryTables startedWorld;
  queryColumns := queryColumns startedWorld;
  queryKeyUsage := queryKeyUsage startedWorld;
  insertAuditLog := insertAuditLog startedWorld;
  webhookUrl := webhookUrl startedWorld;
  post := post startedWorld;
  generateSql := fun _ _ => Ok (lit "SHOW TABLES");
  generateResponse := generateResponse startedWorld;
  writeFile := writeFile startedWorld;
  now := now startedWorld;
  uuidv4 := uuidv4 startedWorld;
|}.

Definition refusedWorld : World := {|
  queryTables := queryTables startedWorld;
  queryColumns := queryColumns startedWorld;
  queryKeyUsage := queryKeyUsage startedWorld;
  insertAuditLog := insertAuditLog startedWorld;
  webhookUrl := webhookUrl startedWorld;
  post := fun _ =>
    Failed {| ax_code := Some (lit "ECONNREFUSED");
              ax_response := None;
              ax_message := lit "connect ECONNREFUSED 127.0.0.1:5678" |};
  generateSql := generateSql startedWorld;
  generateResponse := generateResponse startedWorld;
  writeFile := writeFile startedWorld;
  now := now startedWorld;
  uuidv4 := uuidv4 startedWorld;
|}.

(** A database that has got a second table, orders, whose columns it
    fails to list; and the state of a service that has refreshed its
    snapshot before, against the database with the table users. *)
Definition partialWorld : World := {|
  queryTables :=
    Ok [ {| TABLE_NAME := lit "users" |}; {| TABLE_NAME := lit "orders" |} ];
  queryColumns := fun tableName =>
    if streq tableName (lit "orders") then
      Throw (Error (lit "Lost connection to MySQL server during query"))
    else queryColumns startedWorld tableName;
  queryKeyUsage := queryKeyUsage startedWorld;
  insertAuditLog := insertAuditLog startedWorld;
  webhookUrl := webhookUrl startedWorld;
  post := post startedWorld;
  generateSql := generateSql startedWorld;
  generateResponse := generateResponse startedWorld;
  writeFile := writeFile startedWorld;
  now := now startedWorld;
  uuidv4 := uuidv4 startedWorld;
|}.

Definition cachedState : State := (refreshSchema startedWorld initialState).2.

(** The request of the examples. *)
Definition howManyUsers : Request :=
  {| body_message := VStr (lit "How many users are there?");
     body_conversationId := VUndefined;
     x_request_id := Some (lit "3f2b8c1e-0000-4000-8000-000000000000") |}.

(** ** Proof steps that recur *)

(** A branch of [validateSqlQuery] that throws contradicts one of the
    conditions under which it returns. *)
Ltac refuted :=
  split; [done | split; [done |]];
  intros (_ & Hsel & Hpar' & Hsemi & Hc1 & Hc2 & Hlen);
  try done; try (by specialize (Hsemi eq_refl));
  try (by destruct Hc1); try (by destruct Hc2).

(** Running the executor: its definition and the operations of the
    monad, unfolded. *)
Ltac run_executor :=
  unfold executeQuery, postQuery, saveResultsAsJson, dateNow, ask, record,
    modify, lift, mbind, M_bind, bind, tryCatch, mret, M_ret, ret, throw.

(** A computation that has posted nothing. *)
Ltac nothing_posted :=
  exists []; rewrite ?app_nil_r;
  split; [done | split; [simpl; lia | constructor]].

(* ===================================================================== *)
(** * Strings and regular expressions: what the functions compute          *)
(* ===================================================================== *)

Section StringFacts.

Implicit Types (s p : jsstring) (c : N).

Lemma startsWith_spec s p :
  startsWith s p = true <-> exists rest, s = p ++ rest.
Proof.
  revert s; induction p as [|x p IH]; intros s; simpl.
  - split; [intros _; by exists s | done].
  - destruct s as [|c s]; simpl.
    + split; [done | intros [rest H]; discriminate].
    + rewrite andb_true_iff, N.eqb_eq, IH. split.
      * intros [-> [rest ->]]. by exists rest.
      * intros [rest H]. injection H as -> ->. split; [done | by exists rest].
Qed.

Lemma endsWith_spec s p :
  endsWith s p = true <-> exists pre, s = pre ++ p.
Proof.
  unfold endsWith. rewrite startsWith_spec. split.
  - intros [rest H]. exists (rev rest).
    apply (f_equal (@rev N)) in H. by rewrite rev_involutive, rev_app_distr,
      rev_involutive in H.
  - intros [pre ->]. exists (rev pre). by rewrite rev_app_distr.
Qed.

Lemma includes_spec s p :
  includes s p = true <-> exists pre post, s = pre ++ p ++ post.
Proof.
  induction s as [|c s IH]; simpl.
  - rewrite orb_false_r, startsWith_spec. split.
    + intros [rest H]. by exists [], rest.
    + intros [pre [post H]]. destruct pre; [by exists post | discriminate].
  - rewrite orb_true_iff, startsWith_spec, IH. split.
    + intros [[rest H] | [pre [post H]]].
      * by exists [], rest.
      * exists (c :: pre), post. by rewrite H.
    + intros [pre [post H]]. destruct pre as [|x pre].
      * left. by exists post.
      * right. injection H as -> ->. by exists pre, post.
Qed.

Lemma includes_char s c : includes s [c] = true <-> c ∈ s.
Proof.
  rewrite includes_spec. split.
  - intros [pre [post ->]]. set_solver.
  - intros H. apply list_elem_of_split in H as [pre [post ->]].
    by exists pre, post.
Qed.

Lemma endsWith_char s c : endsWith s [c] = true <-> last s = Some c.
Proof.
  rewrite endsWith_spec. split.
  - intros [pre ->]. by rewrite last_snoc.
  - intros H. destruct (decide (s = [])) as [-> | Hne]; [done |].
    destruct (exists_last Hne) as [pre [x ->]].
    rewrite last_snoc in H. injection H as ->. by exists pre.
Qed.

(** The decimal digits of a number start with a digit. *)
Lemma numberToString_head (n : N) :
  exists d ds, numberToString n = d :: ds /\ isDigit d = true.
Proof.
  unfold numberToString.
  destruct (N.to_uint n); simpl; eexists _, _; split; reflexivity.
Qed.

(** The text of a finite number that is not negative starts with a
    digit. *)
Lemma Number_toString_head (x : number) :
  NotNegative x ->
  exists d ds, Number_toString x = d :: ds /\ isDigit d = true.
Proof.
  destruct x as [| negative | | [|] significand n]; try done; intros _.
  { by exists 48%N, []. }
  unfold Number_toString, significantDigits.
  destruct (numberToString_head (Npos significand)) as (d & rest & -> & Hd).
  cbv zeta. set (ds := d :: rev (dropZeros (rev rest))).
  rewrite app_nil_l.
  destruct ((Z.of_nat (length ds) <=? n) && (n <=? 21)); [by eexists _, _ |].
  destruct (0 <? n) eqn:Hn; cbn [andb].
  - destruct (n <=? 21).
    + apply Z.ltb_lt in Hn.
      destruct (Z.to_nat n) as [|m] eqn:Hm; [lia |]. by eexists _, _.
    + destruct ((-6 <? n) && (n <=? 0)); [by exists 48%N; eexists |].
      unfold ds. destruct (rev (dropZeros (rev rest))); by eexists _, _.
  - destruct ((-6 <? n) && (n <=? 0)); [by exists 48%N; eexists |].
    unfold ds. destruct (rev (dropZeros (rev rest))); by eexists _, _.
Qed.

End StringFacts.

Section RegExpFacts.

Implicit Types (p : list node) (s m : jsstring) (a : atom).

Lemma greedy_sound a (k : jsstring -> option jsstring) s m :
  greedy a k s = Some m ->
  exists w s' m', s = w ++ s' /\ m = w ++ m'
    /\ Forall (fun x => atomMatches a x = true) w /\ k s' = Some m'.
Proof.
  revert m; induction s as [|c s IH]; intros m; simpl.
  - intros H. by exists [], [], m.
  - destruct (atomMatches a c) eqn:Hc.
    + destruct (greedy a k s) as [m0|] eqn:Hg.
      * intros [= <-]. destruct (IH _ eq_refl) as (w & s' & m' & -> & -> & Hw & Hk).
        exists (c :: w), s', m'. repeat split; auto.
      * intros H. by exists [], (c :: s), m.
    + intros H. by exists [], (c :: s), m.
Qed.

Lemma greedy_complete a (k : jsstring -> option jsstring) w s :
  Forall (fun x => atomMatches a x = true) w ->
  is_Some (k s) -> is_Some (greedy a k (w ++ s)).
Proof.
  intros Hw Hk. induction Hw as [|c w Hc Hw IH]; simpl.
  - destruct s as [|c s]; simpl; [done |].
    destruct (atomMatches a c); [|done].
    by destruct (greedy a k s).
  - rewrite Hc. destruct IH as [m0 ->]. done.
Qed.

Lemma matchAt_sound p s m :
  matchAt p s = Some m -> Matches p m /\ exists rest, s = m ++ rest.
Proof.
  revert s m; induction p as [|[a|a|a] p IH]; intros s m; simpl.
  - intros [= <-]. split; [constructor | by exists s].
  - destruct s as [|c s]; [done |].
    destruct (atomMatches a c) eqn:Hc; [|done].
    destruct (matchAt p s) as [m0|] eqn:Hm; [|done].
    intros [= <-]. destruct (IH _ _ Hm) as [HM [rest ->]].
    split; [by constructor | by exists rest].
  - destruct s as [|c s]; [done |].
    destruct (atomMatches a c) eqn:Hc; [|done].
    destruct (greedy a (matchAt p) s) as [m0|] eqn:Hg; [|done].
    intros [= <-].
    destruct (greedy_sound _ _ _ _ Hg) as (w & s' & m' & -> & -> & Hw & Hk).
    destruct (IH _ _ Hk) as [HM [rest ->]].
    split; [by constructor |]. exists rest. simpl. by rewrite <- app_assoc.
  - intros Hg.
    destruct (greedy_sound _ _ _ _ Hg) as (w & s' & m' & -> & -> & Hw & Hk).
    destruct (IH _ _ Hk) as [HM [rest ->]].
    split; [by constructor |]. exists rest. by rewrite <- app_assoc.
Qed.

Lemma matchAt_complete p m rest :
  Matches p m -> is_Some (matchAt p (m ++ rest)).
Proof.
  intros HM. induction HM as [|a p c m Hc HM IH|a p c w m Hc Hw HM IH
                              |a p w m Hw HM IH]; simpl.
  - done.
  - rewrite Hc. destruct IH as [m0 ->]. done.
  - rewrite Hc, <- app_assoc.
    destruct (greedy_complete a (matchAt p) w (m ++ rest) Hw IH) as [m0 ->].
    done.
  - rewrite <- app_assoc. by apply greedy_complete.
Qed.

Lemma search_sound p s m :
  search p s = Some m ->
  Matches p m /\ exists pre post, s = pre ++ m ++ post.
Proof.
  revert m; induction s as [|c s IH]; intros m; simpl.
  - destruct (matchAt p []) as [m0|] eqn:Hm; [|done].
    intros [= <-]. destruct (matchAt_sound _ _ _ Hm) as [HM [rest Hr]].
    split; [done | by exists [], rest].
  - destruct (matchAt p (c :: s)) as [m0|] eqn:Hm.
    + intros [= <-]. destruct (matchAt_sound _ _ _ Hm) as [HM [rest Hr]].
      split; [done | by exists [], rest].
    + intros H. destruct (IH _ H) as [HM (pre & post & ->)].
      split; [done | by exists (c :: pre), post].
Qed.

Lemma search_complete p s : Contains p s -> is_Some (search p s).
Proof.
  intros (pre & m & post & -> & HM). induction pre as [|c pre IH]; simpl.
  - destruct (matchAt_complete p m post HM) as [m0 Hm].
    revert Hm. generalize (m ++ post). intros l Hm.
    destruct l; simpl; by rewrite Hm.
  - destruct (matchAt p (c :: pre ++ m ++ post)); [done | exact IH].
Qed.

(** [test] of an unanchored pattern decides containment. *)
Lemma test_spec p s : test (RE false p) s = true <-> Contains p s.
Proof.
  unfold test, exec; simpl. rewrite bool_decide_eq_true. split.
  - intros [m Hm]. destruct (search_sound _ _ _ Hm) as [HM (pre & post & ->)].
    by exists pre, m, post.
  - apply search_complete.
Qed.

Lemma test_false_spec p s : test (RE false p) s = false <-> ~ Contains p s.
Proof. rewrite <- test_spec. by destruct (test (RE false p) s). Qed.

(** The text that [exec] returns is denoted by the pattern and occurs in
    the subject. *)
Lemma exec_spec p s m :
  exec (RE false p) s = Some m ->
  Matches p m /\ exists pre post, s = pre ++ m ++ post.
Proof. apply search_sound. Qed.

(** A literal under the [i] flag denotes the texts that are equal to it up
    to the case of Basic Latin letters. *)
Lemma Matches_ci (kw : string) p w m :
  asciiUpper <$> w = asciiUpper <$> lit kw ->
  Matches p m -> Matches (ci kw ++ p) (w ++ m).
Proof.
  unfold ci. generalize (lit kw). intros l. revert w.
  induction l as [|x l IH]; intros w Hw HM.
  - destruct w; [done | discriminate].
  - destruct w as [|c w]; [discriminate |]. injection Hw as Hc Hw.
    simpl. constructor; [simpl; by rewrite Hc, N.eqb_refl | by apply IH].
Qed.

End RegExpFacts.

(* ===================================================================== *)
(** * SQL validation (validators.ts)                                       *)
(* ===================================================================== *)

Section ValidatorFacts.

Context (host : Host).

Implicit Types (sql s : jsstring) (re : regexp).

Lemma dangerousPatterns_unanchored re :
  re ∈ dangerousPatterns -> re = RE false (nodes re).
Proof.
  unfold dangerousPatterns. rewrite !elem_of_cons, elem_of_nil.
  intros H; repeat (destruct H as [-> | H]; [reflexivity |]). done.
Qed.

(** The loop over the denylist throws at the first pattern that occurs. *)
Lemma validateSqlQuery_denylist sql :
  (exists re matched,
      re ∈ dangerousPatterns /\ exec re sql = Some matched
      /\ validateSqlQuery host sql = Throw (dangerousOperation matched))
  \/ (List.find (fun re => test re sql) dangerousPatterns = None
      /\ NotDenylisted sql).
Proof.
  unfold validateSqlQuery.
  destruct (List.find _ dangerousPatterns) as [re|] eqn:Hfind.
  - left. apply find_some in Hfind as [Hin Htest].
    unfold test in Htest. apply bool_decide_eq_true in Htest as [m Hm].
    exists re, m. rewrite <- list_elem_of_In in Hin.
    unfold matchedText. by rewrite Hm.
  - right. split; [done |]. apply Forall_forall. intros re Hin.
    rewrite list_elem_of_In in Hin.
    pose proof (find_none _ _ Hfind re Hin) as Htest; simpl in Htest.
    rewrite <- list_elem_of_In in Hin.
    rewrite (dangerousPatterns_unanchored re Hin) in Htest.
    by apply test_false_spec.
Qed.

Lemma NotDenylisted_find sql :
  NotDenylisted sql ->
  List.find (fun re => test re sql) dangerousPatterns = None.
Proof.
  intros Hno. destruct (validateSqlQuery_denylist sql)
    as [(re & m & Hin & Hexec & _) | [H _]]; [|done].
  exfalso. unfold NotDenylisted in Hno. rewrite Forall_forall in Hno.
  apply (Hno re Hin). rewrite (dangerousPatterns_unanchored re Hin) in Hexec.
  destruct (exec_spec _ _ _ Hexec) as [HM (pre & post & ->)].
  by exists pre, m, post.
Qed.

Lemma matchGlobal1_length (c : N) s :
  length (matchGlobal1 (Chr c) s) = occurrences c s.
Proof.
  unfold matchGlobal1, occurrences. rewrite length_fmap.
  induction s as [|x s IH]; [done |].
  rewrite !filter_cons. simpl atomMatches.
  destruct (decide ((c =? x)%N = true)) as [H | H];
    destruct (decide (x = c)) as [H' | H']; simpl.
  - f_equal. exact IH.
  - apply N.eqb_eq in H. congruence.
  - subst. by rewrite N.eqb_refl in H.
  - exact IH.
Qed.

(** C4. Every SQL string in which a pattern of the denylist occurs (a
    keyword in any case, followed by white space where the pattern asks
    for it) is rejected by [validateSqlQuery] with the error "Potentially
    dangerous operation detected"; the text the error names is an
    occurrence in the string of a pattern of the denylist. *)
Theorem validateSqlQuery_rejects_denylisted sql re :
  re ∈ dangerousPatterns -> Contains (nodes re) sql ->
  exists re' matched pre post,
    re' ∈ dangerousPatterns /\ Matches (nodes re') matched
    /\ sql = pre ++ matched ++ post
    /\ validateSqlQuery host sql = Throw (dangerousOperation matched).
Proof.
  intros Hin Hc.
  destruct (validateSqlQuery_denylist sql)
    as [(re' & m & Hin' & Hexec & Hv) | [_ Hno]].
  - rewrite (dangerousPatterns_unanchored re' Hin') in Hexec.
    destruct (exec_spec _ _ _ Hexec) as [HM (pre & post & ->)].
    by exists re', m, pre, post.
  - exfalso. unfold NotDenylisted in Hno. rewrite Forall_forall in Hno.
    by apply (Hno re Hin).
Qed.

(** C2, as amended. Every SQL string in which no pattern of the denylist
    occurs and whose trimmed text, in upper case, does not begin with
    SELECT is rejected with the error "Query must start with SELECT". *)
Theorem validateSqlQuery_rejects_non_select sql :
  NotDenylisted sql ->
  (~ exists rest, toUpperCase host (trim sql) = lit "SELECT" ++ rest) ->
  validateSqlQuery host sql = Throw notReadOnly.
Proof.
  intros Hno Hsel. unfold validateSqlQuery.
  rewrite (NotDenylisted_find sql Hno).
  destruct (startsWith _ _) eqn:Hs; [|done].
  exfalso. apply Hsel. by apply startsWith_spec.
Qed.

(** C1, as amended. Every SQL string in which no pattern of the denylist
    occurs, whose trimmed text in upper case begins with SELECT, whose
    parentheses balance, and which holds a semicolon while its trimmed
    text does not end with one, is rejected with the error "Multiple
    statements detected". *)
Theorem validateSqlQuery_rejects_inner_semicolon sql :
  NotDenylisted sql ->
  (exists rest, toUpperCase host (trim sql) = lit "SELECT" ++ rest) ->
  occurrences 40 sql = occurrences 41 sql ->
  59%N ∈ sql ->
  last (trim sql) <> Some 59%N ->
  validateSqlQuery host sql = Throw multipleStatements.
Proof.
  intros Hno Hsel Hpar Hsemi Hlast. unfold validateSqlQuery.
  rewrite (NotDenylisted_find sql Hno).
  apply startsWith_spec in Hsel. rewrite Hsel. simpl negb. cbv iota.
  rewrite !matchGlobal1_length, Hpar, Nat.eqb_refl. simpl negb. cbv iota.
  apply (includes_char sql 59) in Hsemi.
  change (lit ";") with [59%N]. rewrite Hsemi.
  destruct (endsWith (trim sql) [59%N]) eqn:He; [|done].
  by apply endsWith_char in He.
Qed.

(** ** The row limit *)

Lemma test_limitPattern sql :
  test limitPattern sql = true <-> Contains (nodes limitPattern) sql.
Proof. apply test_spec. Qed.

Lemma test_limitPattern_false sql :
  test limitPattern sql = false <-> ~ Contains (nodes limitPattern) sql.
Proof. apply test_false_spec. Qed.

Lemma limitPattern_after_append (s tail text : jsstring) :
  (exists d ds, text = d :: ds /\ isDigit d = true) ->
  test limitPattern (s ++ lit " LIMIT " ++ text ++ tail) = true.
Proof.
  intros (d & ds & -> & Hd).
  apply test_limitPattern.
  exists (s ++ lit " "), (lit "LIMIT" ++ 32%N :: [] ++ (d :: [] ++ [])),
    (ds ++ tail).
  split.
  - rewrite <- !app_assoc. reflexivity.
  - apply Matches_ci; [reflexivity |].
    repeat constructor; done.
Qed.

(** C5, as amended. [ensureQueryLimit] returns a statement that already
    holds a LIMIT clause (LIMIT in any case, white space, digits) as it
    is, whatever the limit there; to a statement without one it appends
    LIMIT and the limit as a template string prints the number, in front
    of the semicolon that ends its trimmed text if there is one, and at
    the end of its trimmed text otherwise; it is idempotent for every
    limit that is a finite number and not negative; the default limit
    prints as 100, and with it "SELECT * FROM users" becomes
    "SELECT * FROM users LIMIT 100". *)
Theorem ensureQueryLimit_spec sql (limit : number) :
  (Contains (nodes limitPattern) sql -> ensureQueryLimit sql limit = sql)
  /\ (~ Contains (nodes limitPattern) sql ->
      forall body, trim sql = body ++ lit ";" ->
      ensureQueryLimit sql limit
      = body ++ lit " LIMIT " ++ Number_toString limit ++ lit ";")
  /\ (~ Contains (nodes limitPattern) sql ->
      last (trim sql) <> Some 59%N ->
      ensureQueryLimit sql limit
      = trim sql ++ lit " LIMIT " ++ Number_toString limit)
  /\ (NotNegative limit ->
      ensureQueryLimit (ensureQueryLimit sql limit) limit
      = ensureQueryLimit sql limit)
  /\ Number_toString defaultLimit = lit "100"
  /\ ensureQueryLimit (lit "SELECT * FROM users") defaultLimit
     = lit "SELECT * FROM users LIMIT 100".
Proof.
  split; [|split; [|split; [|split; [|split]]]].
  - intros Hc. unfold ensureQueryLimit.
    apply test_limitPattern in Hc. by rewrite Hc.
  - intros Hc body Hbody. unfold ensureQueryLimit.
    apply test_limitPattern_false in Hc. rewrite Hc.
    assert (He : endsWith (trim sql) (lit ";") = true)
      by (apply endsWith_spec; by exists body).
    rewrite He. unfold sliceButLast. rewrite Hbody, length_app. simpl.
    rewrite Nat.add_sub. by rewrite take_app_length.
  - intros Hc Hlast. unfold ensureQueryLimit.
    apply test_limitPattern_false in Hc. rewrite Hc.
    destruct (endsWith (trim sql) (lit ";")) eqn:He; [|done].
    by apply endsWith_char in He.
  - intros Hlimit. pose proof (Number_toString_head limit Hlimit) as Hhead.
    unfold ensureQueryLimit at 2 3.
    destruct (test limitPattern sql) eqn:Ht.
    + unfold ensureQueryLimit. by rewrite Ht.
    + destruct (endsWith (trim sql) (lit ";")).
      * unfold ensureQueryLimit. by rewrite limitPattern_after_append.
      * unfold ensureQueryLimit.
        rewrite <- (app_nil_r (Number_toString limit)).
        by rewrite limitPattern_after_append.
  - vm_compute. reflexivity.
  - vm_compute. reflexivity.
Qed.

End ValidatorFacts.

(* ===================================================================== *)
(** * Dates: the calendar arithmetic and the ISO text                      *)
(* ===================================================================== *)

Section DateFacts.

Lemma DayFromYear_succ y : DayFromYear (y + 1) = DayFromYear y + DaysInYear y.
Proof.
  unfold DayFromYear, DaysInYear, InLeapYear.
  destruct (Z.eqb_spec (y mod 4) 0); destruct (Z.eqb_spec (y mod 100) 0);
    destruct (Z.eqb_spec (y mod 400) 0); simpl;
    Z.div_mod_to_equations; lia.
Qed.

Lemma YearFromDay_spec y doy :
  0 <= doy < DaysInYear y -> YearFromDay (DayFromYear y + doy) = y.
Proof.
  intros Hdoy.
  pose proof (DayFromYear_succ y) as H1.
  pose proof (DayFromYear_succ (y - 1)) as H0.
  pose proof (DayFromYear_succ (y + 1)) as H2.
  replace (y - 1 + 1) with y in H0 by lia.
  assert (Hb : forall z, 365 <= DaysInYear z <= 366)
    by (intros z; unfold DaysInYear; destruct (InLeapYear z); lia).
  pose proof (Hb y). pose proof (Hb (y - 1)). pose proof (Hb (y + 1)).
  unfold YearFromDay.
  set (e := 1970 + 400 * (DayFromYear y + doy) / 146097).
  assert (He : e = y - 1 \/ e = y \/ e = y + 1).
  { subst e. unfold DayFromYear. Z.div_mod_to_equations. lia. }
  destruct He as [-> | [-> | ->]].
  - replace (y - 1 + 1) with y by lia.
    destruct (Z.ltb_spec (DayFromYear y + doy) (DayFromYear (y - 1))); [lia |].
    destruct (Z.leb_spec (DayFromYear y) (DayFromYear y + doy)); lia.
  - destruct (Z.ltb_spec (DayFromYear y + doy) (DayFromYear y)); [lia |].
    destruct (Z.leb_spec (DayFromYear (y + 1)) (DayFromYear y + doy)); lia.
  - destruct (Z.ltb_spec (DayFromYear y + doy) (DayFromYear (y + 1))); [lia |].
    destruct (Z.leb_spec (DayFromYear (y + 1 + 1)) (DayFromYear y + doy)); lia.
Qed.

Lemma monthStart_day_bounds y m d :
  1 <= m <= 12 -> 1 <= d <= DaysInMonth y m ->
  0 <= monthStart (InLeapYear y) (m - 1) + d - 1 < DaysInYear y
  /\ MonthFromDayInYear (InLeapYear y) (monthStart (InLeapYear y) (m - 1) + d - 1) = m - 1.
Proof.
  intros Hm Hd. unfold DaysInMonth, DaysInYear in *.
  assert (m = 1 \/ m = 2 \/ m = 3 \/ m = 4 \/ m = 5 \/ m = 6 \/ m = 7 \/ m = 8
          \/ m = 9 \/ m = 10 \/ m = 11 \/ m = 12) as Hcases by lia.
  destruct (InLeapYear y);
    repeat (destruct Hcases as [-> | Hcases]); try subst m;
    simpl in Hd; unfold MonthFromDayInYear;
    repeat match goal with
           | |- context [monthStart ?l ?k] =>
               let v := eval vm_compute in (monthStart l k) in
               change (monthStart l k) with v
           end;
    (split; [lia |]);
    repeat match goal with
           | |- context [?a <? ?b] => destruct (Z.ltb_spec a b); try lia
           end.
Qed.

Lemma time_of_day_fields d h mi sec ms :
  0 <= h <= 23 -> 0 <= mi <= 59 -> 0 <= sec <= 59 -> 0 <= ms <= 999 ->
  let t := MakeDate d (MakeTime h mi sec ms) in
  Day t = d /\ HourFromTime t = h /\ MinFromTime t = mi
  /\ SecFromTime t = sec /\ msFromTime t = ms.
Proof.
  intros Hh Hmi Hs Hms.
  unfold Day, HourFromTime, MinFromTime, SecFromTime, msFromTime, MakeDate,
    MakeTime, msPerDay, msPerHour, msPerMinute, msPerSecond.
  cbv zeta. repeat split; Z.div_mod_to_equations; lia.
Qed.

Lemma timeValue_fields c ms :
  ValidCivil c -> 0 <= ms <= 999 ->
  let t := timeValue c ms in
  YearFromTime t = year c /\ MonthFromTime t = month c - 1
  /\ DateFromTime t = day c /\ HourFromTime t = hour c
  /\ MinFromTime t = minute c /\ SecFromTime t = second c
  /\ msFromTime t = ms /\ Z.abs t <= 8640000000000000.
Proof.
  intros (Hy & Hm & Hd & Hh & Hmi & Hs) Hms. cbv zeta.
  destruct (monthStart_day_bounds _ _ _ Hm Hd) as [Hdoy Hmonth].
  destruct (time_of_day_fields (MakeDay (year c) (month c - 1) (day c))
              _ _ _ _ Hh Hmi Hs Hms) as (HDay & HH & HM & HS & HMs).
  cbv zeta in *. fold (timeValue c ms) in *.
  assert (HDay' : Day (timeValue c ms)
                  = DayFromYear (year c)
                    + (monthStart (InLeapYear (year c)) (month c - 1)
                       + day c - 1)).
  { rewrite HDay. unfold MakeDay. lia. }
  assert (HYear : YearFromTime (timeValue c ms) = year c).
  { unfold YearFromTime. rewrite HDay'. by apply YearFromDay_spec. }
  assert (HDwy : DayWithinYear (timeValue c ms)
                 = monthStart (InLeapYear (year c)) (month c - 1) + day c - 1).
  { unfold DayWithinYear. rewrite HYear, HDay'. lia. }
  assert (HMonth : MonthFromTime (timeValue c ms) = month c - 1).
  { unfold MonthFromTime. by rewrite HYear, HDwy. }
  repeat split; try done.
  - unfold DateFromTime. rewrite HYear, HMonth, HDwy. lia.
  - unfold timeValue, MakeDate, MakeDay, MakeTime, msPerDay, msPerHour,
      msPerMinute, msPerSecond.
    assert (0 <= monthStart (InLeapYear (year c)) (month c - 1) + day c - 1
            <= 366)
      by (unfold DaysInYear in Hdoy; destruct (InLeapYear (year c)); lia).
    revert H. generalize (monthStart (InLeapYear (year c)) (month c - 1)).
    intros z Hz. unfold DayFromYear. Z.div_mod_to_equations. lia.
Qed.

Lemma digitChar_spec x :
  0 <= x <= 9 ->
  isDigit (digitChar x) = true /\ digitVal (digitChar x) = x.
Proof.
  intros Hx.
  assert (x = 0 \/ x = 1 \/ x = 2 \/ x = 3 \/ x = 4 \/ x = 5 \/ x = 6 \/ x = 7
          \/ x = 8 \/ x = 9) as Hcases by lia.
  repeat (destruct Hcases as [-> | Hcases]); try subst x; by vm_compute.
Qed.

Lemma mod10_digit v : 0 <= v mod 10 <= 9.
Proof. Z.div_mod_to_equations; lia. Qed.

Lemma isDigit_mod10 v : isDigit (digitChar (v mod 10)) = true.
Proof. apply digitChar_spec, mod10_digit. Qed.

Lemma digitVal_mod10 v : digitVal (digitChar (v mod 10)) = v mod 10.
Proof. apply digitChar_spec, mod10_digit. Qed.

Lemma length_pad n v : length (pad n v) = n.
Proof.
  revert v; induction n as [|n IH]; intros v; simpl; [done |].
  rewrite length_app, IH. simpl. lia.
Qed.

Lemma pad_digits n v : Forall (fun d => isDigit d = true) (pad n v).
Proof.
  revert v; induction n as [|n IH]; intros v; simpl; [constructor |].
  apply Forall_app. split; [apply IH |].
  constructor; [apply isDigit_mod10 | constructor].
Qed.

Lemma readDigits_app n m acc s :
  readDigits (n + m) acc s
  = '(a, r) ← readDigits n acc s; readDigits m a r.
Proof.
  revert acc s; induction n as [|n IH]; intros acc s; simpl; [done |].
  destruct s as [|c s]; [done |]. destruct (isDigit c); [apply IH | done].
Qed.

Lemma readDigits_pad n v acc rest :
  0 <= v < 10 ^ Z.of_nat n ->
  readDigits n acc (pad n v ++ rest) = Some (acc * 10 ^ Z.of_nat n + v, rest).
Proof.
  revert v acc rest; induction n as [|n IH]; intros v acc rest Hv.
  - simpl in *. f_equal. f_equal. lia.
  - change (pad (S n) v) with (pad n (v / 10) ++ [digitChar (v mod 10)]).
    rewrite <- app_assoc.
    replace (S n) with (n + 1)%nat in * by lia.
    rewrite readDigits_app.
    assert (Hpow : 10 ^ Z.of_nat (n + 1) = 10 * 10 ^ Z.of_nat n).
    { rewrite Nat2Z.inj_add, Z.pow_add_r by lia. simpl. lia. }
    rewrite Hpow in *.
    assert (0 < 10 ^ Z.of_nat n) by (apply Z.pow_pos_nonneg; lia).
    rewrite IH by (Z.div_mod_to_equations; nia).
    simpl. rewrite isDigit_mod10, digitVal_mod10. f_equal. f_equal.
    Z.div_mod_to_equations. nia.
Qed.

Lemma readDigits_pad0 n v rest :
  0 <= v < 10 ^ Z.of_nat n ->
  readDigits n 0 (pad n v ++ rest) = Some (v, rest).
Proof. intros Hv. rewrite readDigits_pad by done. by rewrite Z.mul_0_l. Qed.

Lemma expect_lit (c : string) rest : expect c (lit c ++ rest) = Some rest.
Proof.
  unfold expect.
  assert (H : startsWith (lit c ++ rest) (lit c) = true).
  { apply startsWith_spec. by exists rest. }
  rewrite H. by rewrite drop_app_length.
Qed.

Lemma bind_Some {A B} (x : A) (f : A -> option B) : (Some x ≫= f) = f x.
Proof. reflexivity. Qed.

Lemma readDigits_digits n acc l :
  Forall (fun d => isDigit d = true) l -> length l = n ->
  exists v, readDigits n acc l = Some (v, [])
            /\ acc * 10 ^ Z.of_nat n <= v < (acc + 1) * 10 ^ Z.of_nat n.
Proof.
  revert acc l; induction n as [|n IH]; intros acc l Hl Hlen.
  - destruct l; [|done]. exists acc. split; [done | simpl; lia].
  - destruct l as [|d l]; [done |]. inversion Hl as [|? ? Hd Hl']; subst.
    simpl. rewrite Hd. injection Hlen as Hlen.
    destruct (IH (10 * acc + digitVal d) l Hl' Hlen) as (v & -> & Hv).
    exists v. split; [done |].
    assert (0 <= digitVal d <= 9).
    { unfold isDigit in Hd. apply andb_true_iff in Hd as [H1 H2].
      apply N.leb_le in H1, H2. unfold digitVal. lia. }
    assert (Hpow : 10 ^ Z.of_nat (S n) = 10 * 10 ^ Z.of_nat n).
    { rewrite Nat2Z.inj_succ, Z.pow_succ_r by lia. done. }
    rewrite Hpow.
    assert (0 < 10 ^ Z.of_nat n) by (apply Z.pow_pos_nonneg; lia).
    nia.
Qed.

Lemma spanDigits_digits ds x rest :
  Forall (fun d => isDigit d = true) ds -> isDigit x = false ->
  spanDigits (ds ++ x :: rest) = (ds, x :: rest).
Proof.
  intros Hds Hx. induction Hds as [|d ds Hd Hds IH]; simpl.
  - by rewrite Hx.
  - by rewrite Hd, IH.
Qed.

Lemma readFraction_utc frac :
  IsFraction frac ->
  exists ms, readFraction (frac ++ lit "Z") = Some (ms, lit "Z")
             /\ 0 <= ms <= 999.
Proof.
  intros [-> | (ds & Hne & Hds & ->)].
  - exists 0. split; [reflexivity | lia].
  - unfold readFraction. rewrite <- app_assoc, expect_lit.
    change (lit "Z") with [90%N].
    rewrite spanDigits_digits by done.
    destruct ds as [|d ds]; [done |].
    destruct (readDigits_digits 3 0 (take 3 ((d :: ds) ++ lit "00")))
      as (ms & Hms & Hb).
    + apply Forall_take, Forall_app. split; [done |].
      repeat constructor.
    + rewrite length_take, length_app.
      change (length (lit "00")) with 2%nat. simpl length. lia.
    + exists ms. rewrite Hms. split; [done |]. simpl in Hb. lia.
Qed.

Lemma parse_isoUtc host c frac :
  ValidCivil c -> IsFraction frac ->
  exists ms, 0 <= ms <= 999
             /\ parse host (isoUtc c frac) = Some (timeValue c ms).
Proof.
  intros Hc Hfrac.
  pose proof Hc as (Hy & Hm & Hd & Hh & Hmi & Hs).
  assert (Hd31 : day c <= 31).
  { unfold DaysInMonth in Hd.
    destruct (month c =? 2); [destruct (InLeapYear (year c)); lia |].
    destruct ((month c =? 4) || (month c =? 6) || (month c =? 9)
              || (month c =? 11)); lia. }
  destruct (readFraction_utc frac Hfrac) as (ms & Hfr & Hms).
  exists ms. split; [done |].
  assert (Hread : readISO (isoUtc c frac)
                  = Some {| fYear := year c; fMonth := month c; fDay := day c;
                            fHour := hour c; fMin := minute c;
                            fSec := second c; fMs := ms; fZone := Some 0 |}).
  { unfold isoUtc, dateText, timeText, readISO. rewrite <- !app_assoc.
    repeat (first
      [ rewrite readDigits_pad0 by (simpl; lia)
      | rewrite expect_lit
      | rewrite Hfr
      | rewrite bind_Some; cbv beta iota ]).
    reflexivity. }
  unfold parse. rewrite Hread. cbn [fHour].
  replace (hour c =? 24) with false by (symmetry; apply Z.eqb_neq; lia).
  cbn [andb].
  destruct (timeValue_fields c ms Hc Hms) as (_ & _ & _ & _ & _ & _ & _ & Habs).
  cbv zeta in Habs.
  assert (Hrange : fieldsInRange
            {| fYear := year c; fMonth := month c; fDay := day c;
               fHour := hour c; fMin := minute c; fSec := second c;
               fMs := ms; fZone := Some 0 |} = true).
  { unfold fieldsInRange; simpl.
    repeat (rewrite (proj2 (Z.leb_le _ _)) by lia). reflexivity. }
  rewrite Hrange. unfold timeOfFields; simpl.
  fold (timeValue c ms). unfold TimeClip.
  replace (timeValue c ms - 0 * msPerMinute) with (timeValue c ms) by lia.
  by rewrite (proj2 (Z.leb_le _ _) Habs).
Qed.

Lemma replaceFirst_skip (c : N) (r pre post : jsstring) :
  Forall (fun x => x <> c) pre ->
  replaceFirst c r (pre ++ c :: post) = pre ++ r ++ post.
Proof.
  intros Hpre. induction Hpre as [|x pre Hx Hpre IH]; simpl.
  - by rewrite N.eqb_refl.
  - destruct (N.eqb_spec x c); [done |]. by rewrite IH.
Qed.

Lemma isDigit_not_T d : isDigit d = true -> d <> 84%N.
Proof. intros H ->. discriminate. Qed.

Lemma dateText_no_T c : Forall (fun x => x <> 84%N) (dateText c).
Proof.
  assert (Hpad : forall n v, Forall (fun x => x <> 84%N) (pad n v)).
  { intros n v. eapply Forall_impl; [apply pad_digits | apply isDigit_not_T]. }
  unfold dateText. rewrite !Forall_app.
  repeat split; try apply Hpad; by repeat constructor.
Qed.

Lemma length_dateText c : length (dateText c) = 10%nat.
Proof. unfold dateText. by rewrite !length_app, !length_pad. Qed.

Lemma length_timeText c : length (timeText c) = 8%nat.
Proof. unfold timeText. by rewrite !length_app, !length_pad. Qed.

Lemma toISOString_timeValue c ms :
  ValidCivil c -> 0 <= ms <= 999 ->
  toISOString (timeValue c ms)
  = dateText c ++ lit "T" ++ timeText c ++ lit "." ++ pad 3 ms ++ lit "Z".
Proof.
  intros Hc Hms.
  destruct (timeValue_fields c ms Hc Hms)
    as (HY & HM & HD & Hh & Hmi & Hs & Hmsf & _).
  cbv zeta in *. unfold toISOString.
  rewrite HY, HM, HD, Hh, Hmi, Hs, Hmsf.
  replace (month c - 1 + 1) with (month c) by lia.
  destruct Hc as (Hy & _). unfold yearString.
  rewrite (proj2 (Z.leb_le 0 (year c))), (proj2 (Z.leb_le (year c) 9999))
    by lia.
  unfold dateText, timeText. simpl andb. cbv iota.
  by rewrite <- !app_assoc.
Qed.

Lemma formatDate_timeValue c ms :
  ValidCivil c -> 0 <= ms <= 999 ->
  formatDate (VDate (Some (timeValue c ms))) = canonical c.
Proof.
  intros Hc Hms. unfold formatDate.
  rewrite toISOString_timeValue by done.
  change (lit "T" ++ timeText c ++ lit "." ++ pad 3 ms ++ lit "Z")
    with (84%N :: (timeText c ++ lit "." ++ pad 3 ms ++ lit "Z")).
  rewrite replaceFirst_skip by apply dateText_no_T.
  unfold substring0, canonical.
  replace (dateText c ++ lit " " ++ timeText c ++ lit "." ++ pad 3 ms
           ++ lit "Z")
    with ((dateText c ++ lit " " ++ timeText c)
          ++ (lit "." ++ pad 3 ms ++ lit "Z"))
    by (by rewrite <- !app_assoc).
  apply take_app_length'.
  rewrite !length_app, length_dateText, length_timeText. done.
Qed.

Lemma test_anchored_spec p s :
  test (RE true p) s = true <-> exists m rest, s = m ++ rest /\ Matches p m.
Proof.
  unfold test, exec; simpl. rewrite bool_decide_eq_true. split.
  - intros [m Hm]. destruct (matchAt_sound _ _ _ Hm) as [HM [rest ->]].
    by exists m, rest.
  - intros (m & rest & -> & HM). by apply matchAt_complete.
Qed.

Lemma Matches_digits n ds p m :
  length ds = n -> Forall (fun d => isDigit d = true) ds ->
  Matches p m -> Matches (digits n ++ p) (ds ++ m).
Proof.
  intros <- Hds HM. induction Hds as [|d ds Hd Hds IH]; simpl; [done |].
  by constructor.
Qed.

Lemma Matches_pad n v p m :
  Matches p m -> Matches (digits n ++ p) (pad n v ++ m).
Proof. apply Matches_digits; [apply length_pad | apply pad_digits]. Qed.

Lemma Matches_cs (k : string) p m :
  Matches p m -> Matches (cs k ++ p) (lit k ++ m).
Proof.
  unfold cs. induction (lit k) as [|x l IH]; intros HM; simpl; [done |].
  constructor; [simpl; apply N.eqb_refl | by apply IH].
Qed.

Lemma timestampPattern_dateTime c rest :
  test timestampPattern (dateText c ++ lit "T" ++ timeText c ++ rest) = true.
Proof.
  apply test_anchored_spec.
  exists (dateText c ++ lit "T" ++ timeText c), rest. split.
  - by rewrite <- !app_assoc.
  - unfold dateText, timeText. rewrite <- !app_assoc. simpl nodes.
    repeat (first [apply Matches_pad | apply Matches_cs]).
    rewrite <- (app_nil_r (pad 2 (second c))), <- (app_nil_r (digits 2)).
    apply Matches_pad. constructor.
Qed.

End DateFacts.

(* ===================================================================== *)
(** * Formatting of result rows (validators.ts)                            *)
(* ===================================================================== *)

Section FormatFacts.

Context (host : Host).

Implicit Types (m props : gmap (list N) Value) (v : Value).

Lemma formatEntry_lookup m key v k :
  m !! key = Some v ->
  formatEntry host m (key, v) !! k
  = if decide (k = key) then Some (formatValue host v) else m !! k.
Proof.
  intros Hm. unfold formatEntry, formatValue.
  destruct (decide (k = key)) as [-> | Hne].
  - destruct v; try done; try (by rewrite lookup_insert_eq).
    destruct (test timestampPattern s); [by rewrite lookup_insert_eq | done].
  - destruct v; try done; try (by rewrite lookup_insert_ne).
    destruct (test timestampPattern s); [by rewrite lookup_insert_ne | done].
Qed.

(** The loop over the entries of a row rewrites each entry in place. *)
Lemma foldl_formatEntry (l : list (list N * Value)) m k :
  NoDup l.*1 ->
  (forall key v, (key, v) ∈ l -> m !! key = Some v) ->
  foldl (formatEntry host) m l !! k
  = match (list_to_map l : gmap (list N) Value) !! k with
    | Some v => Some (formatValue host v)
    | None => m !! k
    end.
Proof.
  revert m; induction l as [|[key v] l IH]; intros m Hnd Hm.
  - simpl. by rewrite lookup_empty.
  - rewrite fmap_cons in Hnd. apply NoDup_cons in Hnd as [Hkey Hnd].
    assert (Hkv : m !! key = Some v) by (apply Hm; left).
    change (foldl (formatEntry host) m ((key, v) :: l))
      with (foldl (formatEntry host) (formatEntry host m (key, v)) l).
    rewrite list_to_map_cons.
    rewrite IH; [|done|].
    + rewrite formatEntry_lookup by done.
      destruct (decide (k = key)) as [-> | Hne].
      * rewrite lookup_insert_eq.
        by rewrite (not_elem_of_list_to_map_1 l key Hkey).
      * by rewrite lookup_insert_ne.
    + intros key' v' Hin. rewrite formatEntry_lookup by done.
      destruct (decide (key' = key)) as [-> | Hne].
      * exfalso. apply Hkey. apply list_elem_of_fmap. by exists (key, v').
      * apply Hm. by right.
Qed.

Lemma formatRow_fmap (row : Value) :
  formatRow host row = VObj (formatValue host <$> spread row).
Proof.
  unfold formatRow. f_equal. apply map_eq. intros k.
  rewrite foldl_formatEntry.
  - rewrite list_to_map_to_list, lookup_fmap.
    by destruct (spread row !! k).
  - apply NoDup_fst_map_to_list.
  - intros key v. apply elem_of_map_to_list.
Qed.

Lemma formatValue_changes v :
  formatValue host v <> v -> TimestampShaped v.
Proof.
  destruct v; simpl; try done.
  destruct (test timestampPattern s) eqn:Ht; [|done].
  intros _. by apply test_anchored_spec.
Qed.

Lemma formatValue_keeps v : ~ TimestampShaped v -> formatValue host v = v.
Proof.
  intros Hv. destruct v; simpl in *; try done.
  destruct (test timestampPattern s) eqn:Ht; [|done].
  exfalso. by apply Hv, test_anchored_spec.
Qed.

Lemma formatValue_isoUtc c frac :
  ValidCivil c -> IsFraction frac ->
  formatValue host (VStr (isoUtc c frac)) = VStr (canonical c).
Proof.
  intros Hc Hfrac. unfold formatValue, isoUtc.
  rewrite timestampPattern_dateTime. fold (isoUtc c frac).
  destruct (parse_isoUtc host c frac Hc Hfrac) as (ms & Hms & Hparse).
  unfold newDate. rewrite Hparse. by rewrite formatDate_timeValue.
Qed.

(** C10. [formatTimestamps] returns as many rows as it is given, in the
    same order; the row at each position has the properties of the row
    it is given there (for a row that is an object, its entries), every
    entry whose value is neither a Date object nor a string starting with
    dddd-dd-ddTdd:dd:dd is unchanged, and an entry that has changed held
    a value of that shape. *)
Theorem formatTimestamps_frame (rows : list Value) :
  exists out,
    formatTimestamps host (VArr rows) = VArr out
    /\ length out = length rows
    /\ forall i row, rows !! i = Some row ->
       exists props,
         out !! i = Some (VObj props)
         /\ (forall key, is_Some (props !! key)
                         <-> is_Some (spread row !! key))
         /\ (forall key v, spread row !! key = Some v ->
                           ~ TimestampShaped v -> props !! key = Some v)
         /\ (forall key v, spread row !! key = Some v ->
                           props !! key <> Some v -> TimestampShaped v).
Proof.
  exists (formatRow host <$> rows). split; [done |].
  split; [by rewrite length_fmap |].
  intros i row Hrow. exists (formatValue host <$> spread row).
  split; [|split; [|split]].
  - by rewrite list_lookup_fmap, Hrow, <- formatRow_fmap.
  - intros key. rewrite lookup_fmap. by rewrite fmap_is_Some.
  - intros key v Hv Hshape. rewrite lookup_fmap, Hv. simpl.
    by rewrite formatValue_keeps.
  - intros key v Hv Hne. rewrite lookup_fmap, Hv in Hne. simpl in Hne.
    apply formatValue_changes. congruence.
Qed.

(** C9. In every list of result rows, the value of an entry that is the
    ISO-8601 text of a date and time in UTC, YYYY-MM-DDTHH:MM:SS with an
    optional fraction of a second and the designator Z, is replaced by
    [formatTimestamps] with YYYY-MM-DD HH:MM:SS, the same date and time;
    the row with created_at "2023-10-15T14:30:22.000Z" comes out with
    created_at "2023-10-15 14:30:22". *)
Theorem formatTimestamps_iso_utc (rows : list Value) (i : nat) props
    (key : list N) (c : Civil) (frac : jsstring) :
  ValidCivil c -> IsFraction frac ->
  rows !! i = Some (VObj props) ->
  props !! key = Some (VStr (isoUtc c frac)) ->
  (exists out props',
      formatTimestamps host (VArr rows) = VArr out
      /\ out !! i = Some (VObj props')
      /\ props' !! key = Some (VStr (canonical c)))
  /\ formatTimestamps host
       (VArr [VObj {[ lit "created_at"
                      := VStr (lit "2023-10-15T14:30:22.000Z") ]}])
     = VArr [VObj {[ lit "created_at"
                     := VStr (lit "2023-10-15 14:30:22") ]}].
Proof.
  intros Hc Hfrac Hrow Hkey. split.
  - exists (formatRow host <$> rows), (formatValue host <$> props).
    split; [done |]. split.
    + rewrite list_lookup_fmap, Hrow.
      change (formatRow host <$> Some (VObj props))
        with (Some (formatRow host (VObj props))).
      by rewrite formatRow_fmap.
    + rewrite lookup_fmap, Hkey.
      change (Some (formatValue host (VStr (isoUtc c frac)))
              = Some (VStr (canonical c))).
      by rewrite formatValue_isoUtc.
  - vm_compute. reflexivity.
Qed.

End FormatFacts.


(* ===================================================================== *)
(** * The services: what a computation keeps                               *)
(* ===================================================================== *)

Lemma run_mbind {A B} (m : M A) (k : A -> M B) st :
  (m ≫= k) st
  = match m st with
    | (Ok a, st1) => k a st1
    | (Throw e, st1) => (Throw e, st1)
    end.
Proof. reflexivity. Qed.

Lemma run_mret {A} (a : A) st : (mret a : M A) st = (Ok a, st).
Proof. reflexivity. Qed.

Lemma run_tryCatch {A} (body : M A) (handler : Exn -> M A) st :
  tryCatch body handler st
  = match body st with
    | (Ok a, st1) => (Ok a, st1)
    | (Throw e, st1) => handler e st1
    end.
Proof. reflexivity. Qed.

Section KeepsRules.

Context (R : relation State) (quiet : Call -> bool) `{!Quiet R quiet}.

#[export] Instance Keeps_mret {A} (a : A) : Keeps R (mret a).
Proof. intros st. reflexivity. Qed.

#[export] Instance Keeps_throw {A} (e : Exn) : Keeps R (@throw A e).
Proof. intros st. reflexivity. Qed.

#[export] Instance Keeps_lift {A} (r : result A) : Keeps R (lift r).
Proof. intros st. reflexivity. Qed.

#[export] Instance Keeps_get : Keeps R get.
Proof. intros st. reflexivity. Qed.

#[export] Instance Keeps_mbind {A B} (m : M A) (k : A -> M B) :
  Keeps R m -> (forall a, Keeps R (k a)) -> Keeps R (m ≫= k).
Proof.
  intros Hm Hk st. rewrite run_mbind. specialize (Hm st).
  destruct (m st) as [[a | e] st1]; simpl in *; [|done].
  etrans; [exact Hm | apply Hk].
Qed.

#[export] Instance Keeps_tryCatch {A} (body : M A) (handler : Exn -> M A) :
  Keeps R body -> (forall e, Keeps R (handler e)) ->
  Keeps R (tryCatch body handler).
Proof.
  intros Hm Hk st. rewrite run_tryCatch. specialize (Hm st).
  destruct (body st) as [[a | e] st1]; simpl in *; [done |].
  etrans; [exact Hm | apply Hk].
Qed.

#[export] Instance Keeps_forEach {A B} (xs : list A) (body : A -> M B) :
  (forall x, Keeps R (body x)) -> Keeps R (forEach xs body).
Proof.
  intros Hbody. induction xs as [|x xs IH]; simpl.
  - apply Keeps_mret.
  - apply (Keeps_mbind (body x)); [apply Hbody |]. intros y.
    apply (Keeps_mbind (forEach xs body)); [apply IH |]. intros ys.
    apply Keeps_mret.
Qed.

#[export] Instance Keeps_if {A} (b : bool) (m1 m2 : M A) :
  Keeps R m1 -> Keeps R m2 -> Keeps R (if b then m1 else m2).
Proof. by destruct b. Qed.

#[export] Instance Keeps_dateNow w : Keeps R (dateNow w).
Proof. intros st. apply Quiet_tick. Qed.

#[export] Instance Keeps_ask {A} (c : Call) (r : result A) :
  TCEq (quiet c) true -> Keeps R (ask c r).
Proof.
  intros Hc%TCEq_eq. unfold ask. apply Keeps_mbind; [|apply _].
  intros st. by apply Quiet_record.
Qed.

(** ** schema.service.ts *)

Section Schema.
Context (w : World).
Context `{!TCEq (quiet QueryTables) true}
        `{!forall t, TCEq (quiet (QueryColumns t)) true}
        `{!forall t, TCEq (quiet (QueryKeyUsage t)) true}.

#[export] Instance Keeps_getTables : Keeps R (getTables w).
Proof. unfold getTables. apply _. Qed.

#[export] Instance Keeps_getColumns t : Keeps R (getColumns w t).
Proof. unfold getColumns. apply _. Qed.

#[export] Instance Keeps_getRelationships t :
  Keeps R (getRelationships w t).
Proof. unfold getRelationships. apply _. Qed.

Context `{!IgnoresCache R}.

#[export] Instance Keeps_setSchema x : Keeps R (modify (setSchema x)).
Proof. intros st. apply ignores_setSchema. Qed.

#[export] Instance Keeps_setLastRefreshTime t :
  Keeps R (modify (setLastRefreshTime t)).
Proof. intros st. apply ignores_setLastRefreshTime. Qed.

#[export] Instance Keeps_refreshSchema : Keeps R (refreshSchema w).
Proof. unfold refreshSchema. apply _. Qed.

#[export] Instance Keeps_getSchema force : Keeps R (getSchema w force).
Proof. unfold getSchema. apply _. Qed.
End Schema.

(** ** n8n.service.ts *)

Section Executor.
Context (host : Host) (w : World).
Context `{!forall q, TCEq (quiet (Post q)) true}
        `{!forall p, TCEq (quiet (WriteFile p)) true}.

#[export] Instance Keeps_saveResultsAsJson data requestId :
  Keeps R (saveResultsAsJson w data requestId).
Proof.
  unfold saveResultsAsJson.
  apply Keeps_tryCatch; [|apply _].
  apply Keeps_mbind; [apply _ |]. intros created.
  apply Keeps_mbind; [|apply _].
  destruct (truthy requestId); [|apply _].
  destruct requestId; apply _.
Qed.

#[export] Instance Keeps_postQuery query : Keeps R (postQuery host w query).
Proof.
  unfold postQuery. apply Keeps_mbind.
  - intros st. apply Quiet_record. by apply TCEq_eq.
  - intros _. destruct (post w query) as [data | e | e]; [apply _ | | apply _].
    destruct (ax_response e) as [[]|]; apply _.
Qed.

#[export] Instance Keeps_executeQuery query :
  Keeps R (executeQuery host w query).
Proof.
  unfold executeQuery.
  apply Keeps_mbind; [apply _ |]. intros startTime.
  apply Keeps_tryCatch; [|apply _].
  apply Keeps_mbind; [apply _ |]. intros _.
  apply Keeps_mbind; [apply _ |]. intros data.
  apply Keeps_mbind; [apply _ |]. intros finished.
  repeat (apply Keeps_if; [apply _ |]).
  destruct (getProp data (lit "results")); apply _.
Qed.
End Executor.

(** ** database.service.ts *)

Section Audit.
Context (w : World).
Context `{!forall row, TCEq (quiet (InsertAuditLog row)) true}
        `{!IgnoresAuditTable R}.

#[export] Instance Keeps_logQuery entry : Keeps R (logQuery w entry).
Proof.
  unfold logQuery. apply Keeps_tryCatch; [|apply _].
  apply Keeps_mbind; [apply _ |]. intros _ st.
  apply ignores_appendAuditLog.
Qed.
End Audit.

End KeepsRules.

Section Relations.

#[export] Instance SameAudit_quiet : Quiet SameAudit notAudit.
Proof.
  split.
  - split; [by intros st |].
    intros a b c [H1 H2] [H3 H4]. split; congruence.
  - by intros st.
  - intros c st Hc. split; [|done]. simpl. unfold auditWrites.
    rewrite omap_app. simpl. destruct c; try done; by rewrite app_nil_r.
Qed.

#[export] Instance SameAudit_cache : IgnoresCache SameAudit.
Proof. by split. Qed.

#[export] Instance SameSummaries_quiet : Quiet SameSummaries notSummary.
Proof.
  split.
  - split; [by intros st |].
    intros a b c H1 H2. unfold SameSummaries in *. congruence.
  - by intros st.
  - intros c st Hc. unfold SameSummaries, summaryCalls, notSummary in *.
    simpl. rewrite filter_app, filter_cons, filter_nil.
    destruct (isSummaryCall c); [done |].
    rewrite decide_False by done. by rewrite app_nil_r.
Qed.

#[export] Instance SameSummaries_cache : IgnoresCache SameSummaries.
Proof. by split. Qed.

#[export] Instance SameSummaries_audit : IgnoresAuditTable SameSummaries.
Proof. by intros row st. Qed.

#[export] Instance SameCache_quiet : Quiet SameCache anyCall.
Proof.
  split.
  - split; [by intros st |].
    intros a b c [H1 H2] [H3 H4]. split; congruence.
  - by intros st.
  - by intros c st _.
Qed.

#[export] Instance MoreCalls_quiet : Quiet MoreCalls anyCall.
Proof.
  split.
  - split; [intros st; unfold MoreCalls; reflexivity |].
    intros a b c H1 H2. unfold MoreCalls in *. by etrans.
  - intros st. unfold MoreCalls. reflexivity.
  - intros c st _. unfold MoreCalls; simpl. by apply prefix_app_r.
Qed.

#[export] Instance MoreCalls_cache : IgnoresCache MoreCalls.
Proof. split; intros; unfold MoreCalls; reflexivity. Qed.

End Relations.

(* ===================================================================== *)
(** * The schema cache (schema.service.ts)                                 *)
(* ===================================================================== *)

Section SchemaFacts.

Context (w : World).

Lemma getTables_run st :
  exists r, getTables w st = (r, recordCall QueryTables st).
Proof.
  unfold getTables, ask, record, modify, lift.
  rewrite run_tryCatch, !run_mbind.
  destruct (queryTables w); simpl; eauto.
Qed.

(** A refresh starts by listing the tables. *)
Lemma refreshSchema_calls st :
  exists more,
    calls (refreshSchema w st).2 = calls st ++ QueryTables :: more.
Proof.
  unfold refreshSchema. rewrite run_tryCatch, run_mbind.
  destruct (getTables_run st) as [r ->].
  set (st1 := recordCall QueryTables st).
  assert (Hst1 : forall st2, MoreCalls st1 st2 ->
            exists more, calls st2 = calls st ++ QueryTables :: more).
  { intros st2 [more Hmore]. exists more. rewrite Hmore. subst st1.
    simpl. by rewrite <- app_assoc. }
  destruct r as [tables | e]; [|by apply Hst1].
  match goal with
  | |- context [?m st1] =>
      pose proof (keeps (R := MoreCalls) (m := m) st1) as Hk;
      destruct (m st1) as [[[] | e] st2]
  end; by apply Hst1.
Qed.

Lemma Stale_dec force st : {Stale w force st} + {~ Stale w force st}.
Proof.
  unfold Stale. destruct (schema st) as [s|]; [|left; by left].
  destruct force; [left; right; by left |].
  destruct (Z_lt_dec refreshIntervalMs
              (now w (clockReads st) - lastRefreshTime st)) as [H | H].
  - left. right. by right.
  - right. intros [? | [? | ?]]; done.
Qed.

Lemma getSchema_stale force st :
  Stale w force st ->
  getSchema w force st
  = match refreshSchema w (tick st) with
    | (Ok _, st1) => (Ok (schema st1), st1)
    | (Throw e, st1) => (Throw e, st1)
    end.
Proof.
  intros Hs. unfold getSchema, dateNow, get.
  rewrite !run_mbind. simpl.
  assert (Hcond : (match schema st with None => true | Some _ => false end)
                  || force
                  || (refreshIntervalMs
                      <? now w (clockReads st) - lastRefreshTime st)
                  = true).
  { destruct Hs as [-> | [-> | H]]; [done | by rewrite orb_true_r |].
    apply Z.ltb_lt in H. rewrite H. by rewrite orb_true_r. }
  rewrite Hcond.
  by destruct (refreshSchema w (tick st)) as [[[] | e] st1].
Qed.

Lemma getSchema_fresh force st :
  ~ Stale w force st -> getSchema w force st = (Ok (schema st), tick st).
Proof.
  intros Hs. unfold getSchema, dateNow, get.
  rewrite !run_mbind. simpl.
  assert (Hcond : (match schema st with None => true | Some _ => false end)
                  || force
                  || (refreshIntervalMs
                      <? now w (clockReads st) - lastRefreshTime st)
                  = false).
  { unfold Stale in Hs. destruct (schema st); [|tauto].
    destruct force; [tauto |]. simpl. apply Z.ltb_ge. lia. }
  by rewrite Hcond.
Qed.

(** C7. [getSchema] refreshes (it lists the tables of the database, and
    goes on as [refreshSchema] does) if and only if there is no snapshot,
    [forceRefresh] is set, or more than the refresh interval, one hour,
    has passed since the last refresh; otherwise it returns the cached
    snapshot and calls nothing: the state is as before, but for the
    reading of the clock. *)
Theorem getSchema_refreshes_iff (forceRefresh : bool) (st : State) :
  refreshIntervalMs = 3600000
  /\ ((exists more,
         calls (getSchema w forceRefresh st).2
         = calls st ++ QueryTables :: more)
      <-> Stale w forceRefresh st)
  /\ (Stale w forceRefresh st ->
      getSchema w forceRefresh st
      = match refreshSchema w (tick st) with
        | (Ok _, st1) => (Ok (schema st1), st1)
        | (Throw e, st1) => (Throw e, st1)
        end)
  /\ (~ Stale w forceRefresh st ->
      getSchema w forceRefresh st = (Ok (schema st), tick st)).
Proof.
  split; [done |]. split; [|split].
  - split.
    + intros [more Hmore].
      destruct (Stale_dec forceRefresh st) as [|Hfresh]; [done |].
      rewrite (getSchema_fresh _ _ Hfresh) in Hmore. simpl in Hmore.
      apply (f_equal length) in Hmore. rewrite length_app in Hmore.
      simpl in Hmore. lia.
    + intros Hs. rewrite (getSchema_stale _ _ Hs).
      destruct (refreshSchema_calls (tick st)) as [more Hmore].
      exists more.
      by destruct (refreshSchema w (tick st)) as [[[] | e] st1].
  - apply getSchema_stale.
  - apply getSchema_fresh.
Qed.

(** ** A refresh that fails *)

Lemma forEach_throws {A B} (xs : list A) (body : A -> M B) x :
  x ∈ xs -> (forall st, exists e, (body x st).1 = Throw e) ->
  forall st, exists e, (forEach xs body st).1 = Throw e.
Proof.
  intros Hin Hx. induction xs as [|y xs IH]; intros st.
  - by apply elem_of_nil in Hin.
  - simpl. unfold bind at 1.
    destruct (body y st) as [[b | e] st1] eqn:Ey.
    + apply elem_of_cons in Hin as [-> | Hin].
      * destruct (Hx st) as [e He]. rewrite Ey in He. done.
      * destruct (IH Hin st1) as [e He]. unfold bind.
        destruct (forEach xs body st1) as [[bs | e'] st2]; [done |].
        by exists e'.
    + by exists e.
Qed.

Lemma refreshSchema_throws st e st' :
  refreshSchema w st = (Throw e, st') ->
  e = Error (lit "Schema discovery failed") /\ SameCache st st'.
Proof.
  unfold refreshSchema. rewrite run_tryCatch, run_mbind.
  pose proof (keeps (R := SameCache) (m := getTables w) st) as H1.
  destruct (getTables w st) as [[tables | e1] st1]; simpl in H1.
  - rewrite run_mbind.
    match goal with
    | |- context [forEach ?xs ?body st1] =>
        pose proof (keeps (R := SameCache) (m := forEach xs body) st1) as H2;
        destruct (forEach xs body st1) as [[meta | e2] st2]
    end; simpl in H2.
    + done.
    + intros [= <- <-]. split; [done | by etrans].
  - intros [= <- <-]. done.
Qed.

Lemma refreshSchema_step_fails st :
  RefreshStepFails w -> exists e, (refreshSchema w st).1 = Throw e.
Proof.
  intros Hfail. unfold refreshSchema. rewrite run_tryCatch, run_mbind.
  destruct Hfail as [[e He] | (rows & t & e & Hrows & Ht & Hstep)].
  - unfold getTables, ask, record, modify, lift.
    rewrite run_tryCatch, !run_mbind, He. simpl. eauto.
  - unfold getTables at 1, ask, record, modify, lift.
    rewrite run_tryCatch, !run_mbind, Hrows. simpl. rewrite run_mbind.
    match goal with
    | |- context [forEach ?xs ?body ?s] =>
        destruct (forEach_throws xs body t Ht) with (st := s) as [e' He']
    end.
    + intros st0. rewrite run_mbind.
      unfold getColumns at 1, ask, record, modify, lift.
      rewrite run_tryCatch, !run_mbind. simpl.
      destruct Hstep as [Hc | Hk].
      * rewrite Hc. simpl. eauto.
      * destruct (queryColumns w t) as [cols | e0]; simpl; [|eauto].
        rewrite run_mbind.
        unfold getRelationships, ask, record, modify, lift.
        rewrite run_tryCatch, !run_mbind, Hk. simpl. eauto.
    + match goal with
      | H : (forEach ?xs ?body ?s).1 = _ |- _ =>
          destruct (forEach xs body s) as [[meta | e2] st2]
      end; [done |]. simpl. eauto.
Qed.

(** C8. When a step of a schema refresh fails, be it the listing of the
    tables or the columns or the relationships of a table, the refresh
    throws "Schema discovery failed", and the snapshot and the time of
    the last refresh are what they were. *)
Theorem refreshSchema_failure_keeps_cache (st : State) :
  RefreshStepFails w ->
  exists st',
    refreshSchema w st = (Throw (Error (lit "Schema discovery failed")), st')
    /\ schema st' = schema st
    /\ lastRefreshTime st' = lastRefreshTime st.
Proof.
  intros Hfail. destruct (refreshSchema_step_fails st Hfail) as [e He].
  destruct (refreshSchema w st) as [r st'] eqn:E. simpl in He. subst r.
  destruct (refreshSchema_throws _ _ _ E) as [-> [Hs Ht]].
  by exists st'.
Qed.

End SchemaFacts.


(* ===================================================================== *)
(** * The chat orchestrator (chat.controller.ts)                           *)
(* ===================================================================== *)

Section ChatFacts.

Context (host : Host) (w : World).

Lemma logQuery_run entry st :
  logQuery w entry st = (Ok tt, logged w (auditRow entry) st).
Proof.
  unfold logQuery, logged, ask, record, modify, lift.
  rewrite run_tryCatch, !run_mbind. fold (auditRow entry).
  by destruct (insertAuditLog w (auditRow entry)) as [[] | e].
Qed.

Lemma logged_audit row st :
  auditWrites (calls (logged w row st)) = auditWrites (calls st) ++ [row]
  /\ audit_logs (logged w row st)
     = match insertAuditLog w row with
       | Ok _ => audit_logs st ++ [row]
       | Throw _ => audit_logs st
       end.
Proof.
  unfold logged, auditWrites.
  destruct (insertAuditLog w row); simpl; by rewrite omap_app.
Qed.

Lemma AuditedOnce_from st st1 out :
  SameAudit st st1 -> AuditedOnce w st1 out -> AuditedOnce w st out.
Proof.
  intros [Hc Ha] (row & H1 & H2 & H3). exists row.
  rewrite <- Hc, <- Ha. done.
Qed.

Lemma StepsOutcome_from st st1 out :
  SameAudit st st1 -> StepsOutcome w st1 out -> StepsOutcome w st out.
Proof.
  intros Hs. unfold StepsOutcome. destruct out.1.
  - by apply AuditedOnce_from.
  - intros H. by etrans.
Qed.

Lemma steps_prefix {A} (m : M A) (k : A -> M Reply) st :
  Keeps SameAudit m ->
  (forall a st1, StepsOutcome w st1 (k a st1)) ->
  StepsOutcome w st ((m ≫= k) st).
Proof.
  intros Hm Hk. rewrite run_mbind. specialize (Hm st).
  destruct (m st) as [[a | e] st1]; simpl in Hm.
  - by apply (StepsOutcome_from st st1).
  - exact Hm.
Qed.

Lemma steps_logged entry (rest : M Reply) st :
  Keeps SameAudit rest ->
  (forall st1, exists reply,
      (rest st1).1 = Ok reply
      /\ ((status reply = 200%N /\ responseStatus entry = St_success)
          \/ (status reply = 202%N /\ responseStatus entry = St_async))) ->
  StepsOutcome w st ((logQuery w entry;; rest) st).
Proof.
  intros Hrest Hok. rewrite run_mbind, logQuery_run.
  set (st1 := logged w (auditRow entry) st).
  destruct (Hok st1) as (reply & Hreply & Hstatus).
  specialize (Hrest st1). destruct Hrest as [Hc Ha].
  destruct (logged_audit (auditRow entry) st) as [Hc1 Ha1]. fold st1 in Hc1, Ha1.
  unfold StepsOutcome. rewrite Hreply. exists (auditRow entry).
  rewrite Hreply, Hc, Ha. done.
Qed.

Lemma chatFailed_audited message e st :
  AuditedOnce w st (chatFailed w message e st)
  /\ exists m code, (chatFailed w message e st).1 = Throw (AppError m code).
Proof.
  unfold chatFailed.
  match goal with
  | |- context [let '(_, _) := ?p in _] => destruct p as [m code]
  end.
  rewrite run_mbind, run_tryCatch, logQuery_run. simpl.
  split; [|by exists m, code].
  match goal with
  | |- context [logged w ?r st] =>
      exists r; destruct (logged_audit r st) as [Hc Ha]
  end.
  done.
Qed.

Lemma chatSteps_outcome req message conversationId st :
  StepsOutcome w st (chatSteps host w req message conversationId st).
Proof.
  unfold chatSteps.
  apply steps_prefix; [apply _ |]. intros databaseSchema st1.
  apply steps_prefix; [apply _ |]. intros generated st2.
  apply steps_prefix; [apply _ |]. intros sql st3.
  apply steps_prefix; [apply _ |]. intros queryExecution st4.
  destruct (default false (qAsynchronous queryExecution)).
  - apply steps_logged; [apply _ |]. intros st5.
    eexists. split; [reflexivity |]. by right.
  - apply steps_prefix; [apply _ |]. intros answer st5.
    apply steps_logged.
    + apply (Keeps_mbind SameAudit notAudit); [apply _ |]. intros stamped.
      cbv zeta. apply _.
    + intros st6. rewrite run_mbind. unfold dateNow at 1.
      cbv beta iota zeta. rewrite run_mbind, run_tryCatch, run_mbind.
      match goal with
      | |- context [saveResultsAsJson w ?d ?r ?s] =>
          destruct (saveResultsAsJson w d r s) as [[f | e] st7]
      end; simpl;
        (destruct (truthy (header (x_request_id req)));
         [unfold dateNow; rewrite run_mbind |];
         simpl; eexists; (split; [reflexivity |]); by left).
Qed.

(** C3, as amended. For every chat request whose message passes the input
    validation, [processChat] sends exactly one row to the audit log,
    wherever the request fails afterwards: with status 'success' when it
    answers 200, 'async' when it answers 202, and 'error' when it throws;
    the row is in the table audit_logs if its insertion succeeded. *)
Theorem processChat_audits_once (req : Request) (st : State) :
  validateChatMessage (body_message req) = Ok true ->
  AuditedOnce w st (processChat host w req st).
Proof.
  intros Hvalid. unfold processChat.
  rewrite run_mbind, run_tryCatch. unfold lift. rewrite Hvalid.
  rewrite run_tryCatch.
  match goal with
  | |- context [chatSteps host w req ?m ?c st] =>
      pose proof (chatSteps_outcome req m c st) as Hsteps;
      destruct (chatSteps host w req m c st) as [[reply | e] st1]
  end; unfold StepsOutcome in Hsteps; simpl in Hsteps.
  - exact Hsteps.
  - apply (AuditedOnce_from st st1); [exact Hsteps |].
    apply chatFailed_audited.
Qed.

(** ** The asynchronous acknowledgement *)

Lemma executeQuery_started query data st :
  trim (webhookUrl w) <> [] ->
  post w query = Responded data ->
  getProp data (lit "message") = VStr (lit "Workflow was started") ->
  executeQuery host w query st
  = (Ok {| results := VArr [];
           qRowCount := 0;
           qExecutionTime :=
             seconds (now w (S (clockReads st)) - now w (clockReads st));
           qAsynchronous := Some true |},
     tick (recordCall (Post query) (tick st))).
Proof.
  intros Hurl Hpost Hmsg. unfold executeQuery.
  rewrite run_mbind. unfold dateNow at 1. cbv beta iota.
  rewrite run_tryCatch, run_mbind.
  assert (Hcheck : negb (truthy (VStr (webhookUrl w)))
                   || streq (trim (webhookUrl w)) [] = false).
  { unfold truthy, streq. rewrite (bool_decide_eq_false_2 _ Hurl).
    destruct (webhookUrl w); [done |]. by rewrite bool_decide_eq_false_2. }
  rewrite Hcheck. cbv beta iota. rewrite run_mret.
  cbv beta iota. rewrite run_mbind.
  unfold postQuery, record, modify. rewrite run_mbind, Hpost.
  cbv beta iota. rewrite run_mret. cbv beta iota.
  rewrite run_mbind. unfold dateNow at 1. cbv beta iota zeta.
  assert (Htruthy : truthy data = true).
  { destruct data; try discriminate Hmsg; done. }
  rewrite Htruthy, Hmsg. reflexivity.
Qed.

(** C6. When the webhook answers a query with a payload whose [message]
    is "Workflow was started", [executeQuery] returns, without throwing,
    a result with no rows, the row count 0 and the asynchronous flag set;
    and [processChat], for a request that has reached the executor,
    answers 202 with [asynchronous: true] and no data, sends one row
    with status 'async' to the audit log, and does not call the
    summarization. *)
Theorem started_workflow_is_acknowledged (req : Request) (st st1 : State)
    (databaseSchema : option DatabaseSchema) (generated : jsstring)
    (payload : Value) :
  validateChatMessage (body_message req) = Ok true ->
  getSchema w false st = (Ok databaseSchema, st1) ->
  generateSql w (body_message req) databaseSchema = Ok generated ->
  validateSqlQuery host generated = Ok true ->
  trim (webhookUrl w) <> [] ->
  post w (ensureQueryLimit generated defaultLimit) = Responded payload ->
  getProp payload (lit "message") = VStr (lit "Workflow was started") ->
  (forall st0, exists t st0',
      executeQuery host w (ensureQueryLimit generated defaultLimit) st0
      = (Ok {| results := VArr []; qRowCount := 0; qExecutionTime := t;
               qAsynchronous := Some true |}, st0'))
  /\ exists reply st' row,
      processChat host w req st = (Ok reply, st')
      /\ status reply = 202%N
      /\ asynchronous (body reply) = Some true
      /\ data (body reply) = VArr []
      /\ auditWrites (calls st') = auditWrites (calls st) ++ [row]
      /\ response_status row = St_async
      /\ summaryCalls (calls st') = summaryCalls (calls st).
Proof.
  intros Hvalid Hschema Hgen Hsql Hurl Hpost Hmsg. split.
  { intros st0. eexists _, _. by apply (executeQuery_started _ payload). }
  pose proof (keeps (R := SameAudit) (m := getSchema w false) st) as [Ha1 _].
  pose proof (keeps (R := SameSummaries) (m := getSchema w false) st) as Hs1.
  rewrite Hschema in Ha1, Hs1. simpl in Ha1, Hs1.
  unfold processChat.
  rewrite run_mbind, run_tryCatch. unfold lift. rewrite Hvalid.
  rewrite run_tryCatch. unfold chatSteps.
  rewrite run_mbind, Hschema. cbv beta iota.
  rewrite run_mbind. unfold ask at 1, record, modify, lift.
  rewrite run_mbind, Hgen. cbv beta iota.
  rewrite run_mbind, run_tryCatch, run_mbind, Hsql.
  cbv beta iota. rewrite run_mret. cbv beta iota.
  rewrite run_mbind, (executeQuery_started _ payload) by done.
  cbv beta iota. simpl (default false _). cbv beta iota zeta.
  rewrite run_mbind, logQuery_run. cbv beta iota. rewrite run_mret.
  match goal with
  | |- context [logged w ?r ?s] => set (row := r); set (st4 := s)
  end.
  eexists _, _, row. split; [reflexivity |].
  do 3 (split; [reflexivity |]). split; [|split; [reflexivity |]].
  - destruct (logged_audit row st4) as [-> _]. subst st4.
    simpl. unfold auditWrites in *. rewrite !omap_app. simpl.
    by rewrite !app_nil_r, Ha1.
  - assert (Hlog : SameSummaries st4 (logged w row st4)).
    { unfold logged. destruct (insertAuditLog w row).
      - etrans; [apply (Quiet_record (R := SameSummaries)) | by idtac].
        reflexivity.
      - by apply (Quiet_record (R := SameSummaries)). }
    unfold SameSummaries in Hlog, Hs1. simpl. rewrite Hlog. subst st4.
    unfold summaryCalls in *. simpl.
    rewrite !filter_app, !filter_cons, !filter_nil. simpl.
    by rewrite !app_nil_r.
Qed.

End ChatFacts.

(* ===================================================================== *)
(** * The properties at concrete inputs                                    *)
(* ===================================================================== *)

Section Instances.

Lemma NotDenylisted_by_test (sql : jsstring) :
  forallb (fun re => negb (test re sql)) dangerousPatterns = true ->
  NotDenylisted sql.
Proof.
  intros H. unfold NotDenylisted. apply Forall_forall. intros re Hin.
  rewrite forallb_forall in H. rewrite list_elem_of_In in Hin.
  specialize (H re Hin). rewrite <- list_elem_of_In in Hin.
  rewrite (dangerousPatterns_unanchored re Hin) in H.
  apply test_false_spec. by destruct (test _ sql).
Qed.

(** "SELECT 1; SELECT 2" is rejected as multiple statements. *)
Lemma validateSqlQuery_rejects_inner_semicolon_witness :
  validateSqlQuery utcHost (lit "SELECT 1; SELECT 2")
  = Throw multipleStatements.
Proof.
  apply (validateSqlQuery_rejects_inner_semicolon utcHost
           (lit "SELECT 1; SELECT 2")).
  - apply NotDenylisted_by_test. vm_compute. reflexivity.
  - exists (lit " 1; SELECT 2"). vm_compute. reflexivity.
  - vm_compute. reflexivity.
  - apply includes_char. vm_compute. reflexivity.
  - vm_compute. discriminate.
Defined.

(** "SELECT 1; DROP TABLE users;" has a semicolon inside, and is rejected
    by the denylist, which is checked first: the error names DROP, it is
    not the error of multiple statements. *)
Lemma drop_after_semicolon_is_dangerous_operation :
  SemicolonInside (lit "SELECT 1; DROP TABLE users;")
  /\ validateSqlQuery utcHost (lit "SELECT 1; DROP TABLE users;")
     = Throw (dangerousOperation (lit "DROP "))
  /\ validateSqlQuery utcHost (lit "SELECT 1; DROP TABLE users;")
     <> Throw multipleStatements.
Proof.
  split; [|split].
  - exists (lit "SELECT 1"), (lit " DROP TABLE users;").
    split; [reflexivity | vm_compute; discriminate].
  - vm_compute. reflexivity.
  - vm_compute. discriminate.
Qed.

(** "SHOW TABLES" is rejected as not starting with SELECT. *)
Lemma validateSqlQuery_rejects_non_select_witness :
  validateSqlQuery utcHost (lit "SHOW TABLES") = Throw notReadOnly.
Proof.
  apply (validateSqlQuery_rejects_non_select utcHost (lit "SHOW TABLES")).
  - apply NotDenylisted_by_test. vm_compute. reflexivity.
  - intros [rest H]. vm_compute in H. discriminate H.
Defined.

(** "UPDATE users SET x=1" does not begin with SELECT, and is rejected by
    the denylist, which is checked first: the error names UPDATE, it is
    not "Query must start with SELECT". *)
Lemma update_is_dangerous_operation :
  (~ exists rest,
       toUpperCase utcHost (trim (lit "UPDATE users SET x=1"))
       = lit "SELECT" ++ rest)
  /\ validateSqlQuery utcHost (lit "UPDATE users SET x=1")
     = Throw (dangerousOperation (lit "UPDATE "))
  /\ validateSqlQuery utcHost (lit "UPDATE users SET x=1")
     <> Throw notReadOnly.
Proof.
  split; [|split].
  - intros [rest H]. vm_compute in H. discriminate H.
  - vm_compute. reflexivity.
  - vm_compute. discriminate.
Qed.

(** "DROP TABLE x" is rejected as a dangerous operation. *)
Lemma validateSqlQuery_rejects_denylisted_witness :
  exists re' matched pre post,
    re' ∈ dangerousPatterns /\ Matches (nodes re') matched
    /\ lit "DROP TABLE x" = pre ++ matched ++ post
    /\ validateSqlQuery utcHost (lit "DROP TABLE x")
       = Throw (dangerousOperation matched).
Proof.
  apply (validateSqlQuery_rejects_denylisted utcHost (lit "DROP TABLE x")
           (RE false (ci "DROP" ++ [Plus Space]))).
  - unfold dangerousPatterns. apply elem_of_cons. by left.
  - exists [], (lit "DROP "), (lit "TABLE x"). split; [reflexivity |].
    apply (Matches_ci "DROP" [Plus Space] (lit "DROP") [32%N] eq_refl).
    apply (M_plus Space [] 32%N [] [] eq_refl).
    + constructor.
    + apply M_nil.
Defined.

(** A statement that is already limited, with a larger limit than the
    default, is returned as it is. *)
Example ensureQueryLimit_keeps_larger_limit :
  ensureQueryLimit (lit "SELECT * FROM users LIMIT 5000") defaultLimit
  = lit "SELECT * FROM users LIMIT 5000"
  /\ ensureQueryLimit (lit "select * from users limit 5;") defaultLimit
     = lit "select * from users limit 5;"
  /\ ensureQueryLimit (lit "SELECT * FROM users;") (Number_ofZ 25)
     = lit "SELECT * FROM users LIMIT 25;".
Proof. repeat split; vm_compute; reflexivity. Qed.

(** Numbers as a template string prints them. *)
Example Number_toString_known_values :
  Number_toString (Number_ofZ 100) = lit "100"
  /\ Number_toString (Number_ofZ (-1)) = lit "-1"
  /\ Number_toString (Number_ofZ 1200) = lit "1200"
  /\ Number_toString (Number_ofZ (10 ^ 20)) = lit "100000000000000000000"
  /\ Number_toString (Number_ofZ (10 ^ 21)) = lit "1e+21"
  /\ Number_toString (Number_ofZ (123 * 10 ^ 21)) = lit "1.23e+23"
  /\ Number_toString (Finite false 5 0) = lit "0.5"
  /\ Number_toString (Finite false 15 1) = lit "1.5"
  /\ Number_toString (Finite true 123456 3) = lit "-123.456"
  /\ Number_toString (Finite false 1 (-5)) = lit "0.000001"
  /\ Number_toString (Finite false 1 (-6)) = lit "1e-7"
  /\ Number_toString (Finite false 25 (-6)) = lit "2.5e-7"
  /\ Number_toString Zero = lit "0"
  /\ Number_toString NaN = lit "NaN"
  /\ Number_toString (Infinity true) = lit "-Infinity".
Proof. repeat split; vm_compute; reflexivity. Qed.

(** With the limit -1 the text that is appended holds no LIMIT clause of
    digits, so that a second call appends it again: [ensureQueryLimit]
    is not idempotent there. *)
Lemma negative_limit_is_appended_twice :
  ensureQueryLimit (lit "SELECT 1") (Number_ofZ (-1))
  = lit "SELECT 1 LIMIT -1"
  /\ ensureQueryLimit (ensureQueryLimit (lit "SELECT 1") (Number_ofZ (-1)))
       (Number_ofZ (-1))
     = lit "SELECT 1 LIMIT -1 LIMIT -1"
  /\ ensureQueryLimit (ensureQueryLimit (lit "SELECT 1") (Number_ofZ (-1)))
       (Number_ofZ (-1))
     <> ensureQueryLimit (lit "SELECT 1") (Number_ofZ (-1))
  /\ ~ Contains (nodes limitPattern)
        (ensureQueryLimit (lit "SELECT 1") (Number_ofZ (-1))).
Proof.
  split; [|split; [|split]].
  - vm_compute. reflexivity.
  - vm_compute. reflexivity.
  - vm_compute. discriminate.
  - apply test_limitPattern_false. vm_compute. reflexivity.
Qed.

(** A limited statement is limited once. *)
Lemma ensureQueryLimit_spec_witness :
  ensureQueryLimit
    (ensureQueryLimit (lit "SELECT * FROM users;") (Number_ofZ 25))
    (Number_ofZ 25)
  = ensureQueryLimit (lit "SELECT * FROM users;") (Number_ofZ 25).
Proof.
  apply (ensureQueryLimit_spec (lit "SELECT * FROM users;") (Number_ofZ 25)).
  exact I.
Defined.

(** A statement with a semicolon inside that also ends with a semicolon
    passes the check of the semicolons, and the validation. *)
Example inner_semicolon_before_terminator :
  validateSqlQuery utcHost (lit "SELECT 1; SELECT 2;") = Ok true.
Proof. vm_compute. reflexivity. Qed.

(** The Date model on known time values. *)
Example date_model_known_values :
  toISOString 1697380222000 = lit "2023-10-15T14:30:22.000Z"
  /\ toISOString 951782400000 = lit "2000-02-29T00:00:00.000Z"
  /\ toISOString (-62135596800000) = lit "0001-01-01T00:00:00.000Z"
  /\ toISOString 253402300799000 = lit "9999-12-31T23:59:59.000Z"
  /\ toISOString (-1) = lit "1969-12-31T23:59:59.999Z"
  /\ parse utcHost (lit "2023-10-15T14:30:22+05:30")
     = Some (1697380222000 - 330 * 60000)
  /\ parse utcHost (lit "2023-10-15T14:30:60Z") = None
  /\ parse utcHost (lit "2023-10-15T24:00:00.000Z") = Some 1697414400000
  /\ parse utcHost (lit "2023-10-15T24:00:00.001Z") = None
  /\ parse utcHost (lit "2023-10-15T24:00:00.0001Z") = None
  /\ parse utcHost (lit "2023-10-15T14:30:22.0009Z") = Some 1697380222000.
Proof. repeat split; vm_compute; reflexivity. Qed.

(** A request with a question. *)
Lemma processChat_audits_once_witness :
  AuditedOnce startedWorld initialState
    (processChat utcHost startedWorld
       {| body_message := VStr (lit "How many users are there?");
          body_conversationId := VUndefined;
          x_request_id := None |}
       initialState).
Proof.
  apply (processChat_audits_once utcHost startedWorld).
  vm_compute. reflexivity.
Defined.

(** A request whose message is blank is rejected by the input validation
    with VALIDATION_ERROR, and nothing is sent to the audit log. *)
Lemma rejected_message_is_not_audited :
  processChat utcHost startedWorld
    {| body_message := VStr (lit "   ");
       body_conversationId := VUndefined;
       x_request_id := None |}
    initialState
  = (Throw (AppError (lit "Message cannot be empty") VALIDATION_ERROR),
     initialState)
  /\ ~ AuditedOnce startedWorld initialState
       (processChat utcHost startedWorld
          {| body_message := VStr (lit "   ");
             body_conversationId := VUndefined;
             x_request_id := None |}
          initialState).
Proof.
  assert (Hrun : processChat utcHost startedWorld
            {| body_message := VStr (lit "   ");
               body_conversationId := VUndefined;
               x_request_id := None |}
            initialState
          = (Throw (AppError (lit "Message cannot be empty")
                      VALIDATION_ERROR), initialState))
    by (vm_compute; reflexivity).
  split; [exact Hrun |].
  rewrite Hrun. intros (row & Hrow & _). simpl in Hrow.
  by destruct (auditWrites []).
Qed.

(** The acknowledgement of a started workflow. *)
Lemma started_workflow_is_acknowledged_witness :
  exists reply st' row,
    processChat utcHost startedWorld
      {| body_message := VStr (lit "How many users are there?");
         body_conversationId := VUndefined;
         x_request_id := None |}
      initialState
    = (Ok reply, st')
    /\ status reply = 202%N
    /\ asynchronous (body reply) = Some true
    /\ data (body reply) = VArr []
    /\ auditWrites (calls st') = auditWrites (calls initialState) ++ [row]
    /\ response_status row = St_async
    /\ summaryCalls (calls st') = summaryCalls (calls initialState).
Proof.
  eapply proj2.
  eapply (started_workflow_is_acknowledged utcHost startedWorld
            {| body_message := VStr (lit "How many users are there?");
               body_conversationId := VUndefined;
               x_request_id := None |}
            initialState _ _ (lit "SELECT * FROM users")).
  - vm_compute. reflexivity.
  - vm_compute. reflexivity.
  - reflexivity.
  - vm_compute. reflexivity.
  - vm_compute. discriminate.
  - reflexivity.
  - vm_compute. reflexivity.
Defined.

(** A refresh that fails at the columns of the second table, after the
    first table has been read, with a snapshot in the cache: the
    snapshot, which holds the table users, and the time of its refresh
    stay. *)
Lemma refreshSchema_failure_keeps_cache_witness :
  (exists users,
      schema cachedState = Some {| tables := [users] |}
      /\ name users = lit "users")
  /\ lastRefreshTime cachedState = 1697380222000
  /\ (refreshSchema partialWorld cachedState).2.(calls)
     = calls cachedState
       ++ [QueryTables; QueryColumns (lit "users");
           QueryKeyUsage (lit "users"); QueryColumns (lit "orders")]
  /\ exists st',
      refreshSchema partialWorld cachedState
      = (Throw (Error (lit "Schema discovery failed")), st')
      /\ schema st' = schema cachedState
      /\ lastRefreshTime st' = lastRefreshTime cachedState.
Proof.
  split; [|split; [|split]].
  - eexists. split; vm_compute; reflexivity.
  - vm_compute. reflexivity.
  - vm_compute. reflexivity.
  - apply (refreshSchema_failure_keeps_cache partialWorld cachedState).
    right.
    exists [ {| TABLE_NAME := lit "users" |};
             {| TABLE_NAME := lit "orders" |} ], (lit "orders"),
      (Error (lit "Lost connection to MySQL server during query")).
    split; [reflexivity |]. split.
    + apply elem_of_cons. right. apply elem_of_cons. by left.
    + left. vm_compute. reflexivity.
Defined.

(** The timestamp of the specification. *)
Lemma formatTimestamps_iso_utc_witness :
  (exists out props',
      formatTimestamps utcHost
        (VArr [VObj {[ lit "created_at"
                       := VStr (lit "2023-10-15T14:30:22.000Z") ]}])
      = VArr out
      /\ out !! 0%nat = Some (VObj props')
      /\ props' !! lit "created_at"
         = Some (VStr (lit "2023-10-15 14:30:22")))
  /\ formatTimestamps utcHost
       (VArr [VObj {[ lit "created_at"
                      := VStr (lit "2023-10-15T14:30:22.000Z") ]}])
     = VArr [VObj {[ lit "created_at"
                     := VStr (lit "2023-10-15 14:30:22") ]}].
Proof.
  apply (formatTimestamps_iso_utc utcHost
           [VObj {[ lit "created_at"
                    := VStr (lit "2023-10-15T14:30:22.000Z") ]}]
           0
           {[ lit "created_at" := VStr (lit "2023-10-15T14:30:22.000Z") ]}
           (lit "created_at")
           {| year := 2023; month := 10; day := 15;
              hour := 14; minute := 30; second := 22 |}
           (lit ".000")).
  - repeat split; vm_compute; discriminate.
  - right. exists (lit "000"). split; [discriminate |].
    split; [repeat constructor | reflexivity].
  - reflexivity.
  - vm_compute. reflexivity.
Defined.

End Instances.

(* ===================================================================== *)
(** * More of the validators                                               *)
(* ===================================================================== *)

Section MoreValidatorFacts.

Context (host : Host).

Implicit Types (sql s : jsstring).

(** X1. [validateSqlQuery] never returns false: it returns true or
    throws. It returns true exactly for the statements in which no
    pattern of the denylist occurs, whose trimmed text in upper case
    begins with SELECT, whose parentheses balance, whose trimmed text ends
    with a semicolon if they hold one, which hold neither "--" nor "/*",
    and which are at most 2000 characters long. *)
Theorem validateSqlQuery_accepts_iff sql :
  validateSqlQuery host sql <> Ok false
  /\ (validateSqlQuery host sql = Ok true <->
      NotDenylisted sql
      /\ (exists rest, toUpperCase host (trim sql) = lit "SELECT" ++ rest)
      /\ occurrences 40 sql = occurrences 41 sql
      /\ (59%N ∈ sql -> last (trim sql) = Some 59%N)
      /\ ~ (exists pre post, sql = pre ++ lit "--" ++ post)
      /\ ~ (exists pre post, sql = pre ++ lit "/*" ++ post)
      /\ (length sql <= 2000)%nat).
Proof.
  rewrite <- !includes_spec, <- startsWith_spec, <- includes_char,
    <- endsWith_char, <- !matchGlobal1_length.
  change [59%N] with (lit ";").
  destruct (validateSqlQuery_denylist host sql)
    as [(re & m & Hin & Hexec & Hv) | [Hfind Hno]].
  - rewrite Hv. split; [done |]. split; [done |].
    intros (Hno & _). exfalso.
    unfold NotDenylisted in Hno. rewrite Forall_forall in Hno.
    apply (Hno re Hin). rewrite (dangerousPatterns_unanchored re Hin) in Hexec.
    destruct (exec_spec _ _ _ Hexec) as [HM (pre & post & ->)].
    by exists pre, m, post.
  - unfold validateSqlQuery. rewrite Hfind.
    destruct (startsWith _ _); simpl negb; cbv iota; [|by refuted].
    destruct (Nat.eqb_spec (length (matchGlobal1 (Chr 40) sql))
                (length (matchGlobal1 (Chr 41) sql))) as [Hpar | Hpar];
      simpl negb; cbv iota; [|by refuted].
    destruct (includes sql (lit ";")), (endsWith (trim sql) (lit ";"));
      simpl andb; simpl negb; cbv iota; try (by refuted).
    all: destruct (includes sql (lit "--")), (includes sql (lit "/*"));
      simpl orb; cbv iota; try (by refuted).
    all: destruct (Nat.ltb_spec 2000 (length sql)); [refuted; lia |].
    all: split; [done | split; [intros _ | done]].
    all: repeat split; try done; lia.
Qed.

(** X2. A statement in which no pattern of the denylist occurs and which
    begins with SELECT, but whose opening and closing parentheses differ
    in number, is rejected with the error "Unbalanced parentheses". *)
Theorem validateSqlQuery_rejects_unbalanced sql :
  NotDenylisted sql ->
  (exists rest, toUpperCase host (trim sql) = lit "SELECT" ++ rest) ->
  occurrences 40 sql <> occurrences 41 sql ->
  validateSqlQuery host sql = Throw unbalancedParens.
Proof.
  intros Hno Hsel Hpar. unfold validateSqlQuery.
  rewrite (NotDenylisted_find host sql Hno).
  apply startsWith_spec in Hsel. rewrite Hsel. simpl negb. cbv iota.
  rewrite !matchGlobal1_length.
  by destruct (Nat.eqb_spec (occurrences 40 sql) (occurrences 41 sql)).
Qed.

(** X3. A statement that passes the checks of the denylist, of SELECT, of
    the parentheses and of the semicolon, and that holds "--" or "/*", is
    rejected with the error "Comments are not allowed". *)
Theorem validateSqlQuery_rejects_comments sql :
  NotDenylisted sql ->
  (exists rest, toUpperCase host (trim sql) = lit "SELECT" ++ rest) ->
  occurrences 40 sql = occurrences 41 sql ->
  (59%N ∈ sql -> last (trim sql) = Some 59%N) ->
  (exists pre post, sql = pre ++ lit "--" ++ post)
  \/ (exists pre post, sql = pre ++ lit "/*" ++ post) ->
  validateSqlQuery host sql = Throw commentInjection.
Proof.
  intros Hno Hsel Hpar Hsemi Hcomment. unfold validateSqlQuery.
  rewrite (NotDenylisted_find host sql Hno).
  apply startsWith_spec in Hsel. rewrite Hsel. simpl negb. cbv iota.
  rewrite !matchGlobal1_length, Hpar, Nat.eqb_refl. simpl negb. cbv iota.
  rewrite <- includes_char, <- endsWith_char in Hsemi.
  change [59%N] with (lit ";") in Hsemi.
  assert (Hs : includes sql (lit ";")
               && negb (endsWith (trim sql) (lit ";")) = false).
  { destruct (includes sql (lit ";")); [|done]. by rewrite Hsemi. }
  rewrite Hs. rewrite <- !includes_spec in Hcomment.
  by destruct Hcomment as [-> | ->]; [|rewrite orb_true_r].
Qed.

(** X4. A statement that passes every other check and is longer than
    2000 characters is rejected with the error "Query too long". *)
Theorem validateSqlQuery_rejects_long sql :
  NotDenylisted sql ->
  (exists rest, toUpperCase host (trim sql) = lit "SELECT" ++ rest) ->
  occurrences 40 sql = occurrences 41 sql ->
  (59%N ∈ sql -> last (trim sql) = Some 59%N) ->
  ~ (exists pre post, sql = pre ++ lit "--" ++ post) ->
  ~ (exists pre post, sql = pre ++ lit "/*" ++ post) ->
  (2000 < length sql)%nat ->
  validateSqlQuery host sql = Throw tooLong.
Proof.
  intros Hno Hsel Hpar Hsemi Hc1 Hc2 Hlen. unfold validateSqlQuery.
  rewrite (NotDenylisted_find host sql Hno).
  apply startsWith_spec in Hsel. rewrite Hsel. simpl negb. cbv iota.
  rewrite !matchGlobal1_length, Hpar, Nat.eqb_refl. simpl negb. cbv iota.
  rewrite <- includes_char, <- endsWith_char in Hsemi.
  change [59%N] with (lit ";") in Hsemi.
  assert (Hs : includes sql (lit ";")
               && negb (endsWith (trim sql) (lit ";")) = false).
  { destruct (includes sql (lit ";")); [|done]. by rewrite Hsemi. }
  rewrite Hs. rewrite <- includes_spec in Hc1, Hc2.
  apply not_true_is_false in Hc1, Hc2. rewrite Hc1, Hc2. simpl orb. cbv iota.
  by destruct (Nat.ltb_spec 2000 (length sql)); [|lia].
Qed.

(** X5. For every limit that is a finite number and not negative, the
    statement that [ensureQueryLimit] returns holds a LIMIT clause: LIMIT
    in any case, white space, digits. *)
Theorem ensureQueryLimit_has_limit sql (limit : number) :
  NotNegative limit ->
  Contains (nodes limitPattern) (ensureQueryLimit sql limit).
Proof.
  intros Hlimit. pose proof (Number_toString_head limit Hlimit) as Hhead.
  apply test_limitPattern. unfold ensureQueryLimit.
  destruct (test limitPattern sql) eqn:Ht; [done |].
  destruct (endsWith (trim sql) (lit ";")).
  - by apply limitPattern_after_append.
  - rewrite <- (app_nil_r (Number_toString limit)).
    by apply limitPattern_after_append.
Qed.

(** X6. [validateChatMessage] never returns false. It returns true
    exactly for a string that is not blank and at most 1000 characters
    long; anything else is rejected with an error. *)
Theorem validateChatMessage_accepts_iff (message : Value) :
  validateChatMessage message <> Ok false
  /\ (validateChatMessage message = Ok true <->
      exists s, message = VStr s /\ trim s <> []
                /\ (length s <= 1000)%nat).
Proof.
  destruct message as [| | | | s | | |];
    try (split; [done | split; [done | intros (s & ? & _); done]]).
  unfold validateChatMessage.
  destruct s as [|c s].
  { split; [done | split; [done | intros (s & [= <-] & H & _); done]]. }
  change (truthy (VStr (c :: s))) with true. simpl negb. cbv iota.
  destruct (Nat.eqb_spec (length (trim (c :: s))) 0) as [Hblank | Hblank].
  { split; [done | split; [done |]]. intros (s' & [= <-] & H & _).
    by destruct (trim (c :: s)). }
  destruct (Nat.ltb_spec 1000 (length (c :: s))).
  { split; [done | split; [done |]]. intros (s' & [= <-] & _ & H'). lia. }
  split; [done | split; [|done]]. intros _. exists (c :: s).
  repeat split; [|lia]. intros Hnil. by rewrite Hnil in Hblank.
Qed.

End MoreValidatorFacts.

(* ===================================================================== *)
(** * Sanitizing, and formatting twice                                     *)
(* ===================================================================== *)

Section SanitizeFacts.

Implicit Types (s r : jsstring) (c : N).

Lemma elem_of_replaceGlobal1 a r s c :
  c ∈ replaceGlobal1 a r s ->
  c ∈ r \/ (c ∈ s /\ atomMatches a c = false).
Proof.
  unfold replaceGlobal1. induction s as [|x s IH]; simpl.
  - by intros ?%elem_of_nil.
  - rewrite elem_of_app. intros [H | H].
    + destruct (atomMatches a x) eqn:Hx; [by left |].
      apply list_elem_of_singleton in H as ->. right. split; [left | done].
    + destruct (IH H) as [? | [? ?]]; [by left |].
      right. split; [by right | done].
Qed.

Lemma replaceGlobal1_id a r s :
  Forall (fun c => atomMatches a c = false) s -> replaceGlobal1 a r s = s.
Proof.
  unfold replaceGlobal1. induction 1 as [|x s Hx Hs IH]; simpl; [done |].
  rewrite Hx. simpl. by f_equal.
Qed.

Lemma elem_of_trimStart s c : c ∈ trimStart s -> c ∈ s.
Proof.
  induction s as [|x s IH]; simpl; [done |].
  destruct (isWhiteSpace x); [|done]. intros H. right. by apply IH.
Qed.

Lemma elem_of_rev s c : c ∈ rev s <-> c ∈ s.
Proof. rewrite !list_elem_of_In. symmetry. apply in_rev. Qed.

Lemma elem_of_trim s c : c ∈ trim s -> c ∈ s.
Proof.
  unfold trim, trimEnd. rewrite elem_of_rev. intros H.
  apply elem_of_trimStart in H. rewrite elem_of_rev in H.
  by apply elem_of_trimStart.
Qed.

(** X7. Whatever it is given, [sanitizeString] returns a string that
    holds none of the characters <, >, double quote and single quote; for
    a value that is not a string it returns the empty string. *)
Theorem sanitizeString_no_markup (input : Value) :
  (60%N ∉ sanitizeString input) /\ (62%N ∉ sanitizeString input)
  /\ (34%N ∉ sanitizeString input) /\ (39%N ∉ sanitizeString input)
  /\ ((forall s, input <> VStr s) -> sanitizeString input = []).
Proof.
  assert (Hc : forall c, c ∈ [60; 62; 34; 39]%N -> c ∉ sanitizeString input).
  { intros c Hc Hin. destruct input; try (by apply elem_of_nil in Hin).
    unfold sanitizeString in Hin. apply elem_of_trim in Hin.
    apply elem_of_replaceGlobal1 in Hin as [Hin | [Hin H39]].
    { apply list_elem_of_In in Hin.
      rewrite !elem_of_cons, elem_of_nil in Hc.
      destruct Hc as [-> | [-> | [-> | [-> | []]]]];
        vm_compute in Hin; intuition discriminate. }
    apply elem_of_replaceGlobal1 in Hin as [Hin | [Hin H34]].
    { apply list_elem_of_In in Hin.
      rewrite !elem_of_cons, elem_of_nil in Hc.
      destruct Hc as [-> | [-> | [-> | [-> | []]]]];
        vm_compute in Hin; intuition discriminate. }
    apply elem_of_replaceGlobal1 in Hin as [Hin | [Hin H38]].
    { apply list_elem_of_In in Hin.
      rewrite !elem_of_cons, elem_of_nil in Hc.
      destruct Hc as [-> | [-> | [-> | [-> | []]]]];
        vm_compute in Hin; intuition discriminate. }
    apply elem_of_replaceGlobal1 in Hin as [Hin | [Hin H60]];
      [by apply elem_of_nil in Hin |].
    rewrite !elem_of_cons, elem_of_nil in Hc.
    destruct Hc as [-> | [-> | [-> | [-> | []]]]]; done. }
  repeat split; try (apply Hc; rewrite !elem_of_cons; tauto).
  intros Hns. destruct input; try done. by destruct (Hns s).
Qed.

(** X8. A string that holds none of <, >, &, double quote and single
    quote is only trimmed by [sanitizeString]. *)
Theorem sanitizeString_plain s :
  Forall (fun c => c ∉ [60; 62; 38; 34; 39]%N) s ->
  sanitizeString (VStr s) = trim s.
Proof.
  intros Hs.
  assert (Hid : forall a r,
             (forall c, atomMatches a c = true ->
                        c ∈ [60; 62; 38; 34; 39]%N) ->
             replaceGlobal1 a r s = s).
  { intros a r Ha. apply replaceGlobal1_id.
    eapply Forall_impl; [exact Hs |]. intros c Hc.
    destruct (atomMatches a c) eqn:E; [|done]. by destruct Hc; apply Ha. }
  unfold sanitizeString.
  rewrite (Hid (OneOf _)), (Hid (Chr 38)), (Hid (Chr 34)), (Hid (Chr 39));
    [done |..]; intros c; cbn [atomMatches existsb]; rewrite !elem_of_cons;
    repeat match goal with
           | |- context [(?x =? ?y)%N] => destruct (N.eqb_spec x y)
           end;
    cbn [orb]; intros H; try discriminate H; subst; auto 10.
Qed.

End SanitizeFacts.

Section MoreFormatFacts.

Context (host : Host).

Lemma Matches_elem (c : N) p1 p2 m :
  Matches (p1 ++ One (Chr c) :: p2) m -> c ∈ m.
Proof.
  revert m. induction p1 as [|n p1 IH]; intros m HM; simpl in HM.
  - inversion HM as [| a p c' m' Ha HM' | |]; subst.
    apply N.eqb_eq in Ha as ->. left.
  - inversion HM; subst.
    + right. by apply IH.
    + right. apply elem_of_app. right. by apply IH.
    + apply elem_of_app. right. by apply IH.
Qed.

Lemma pad_no_T n v : Forall (fun x => x <> 84%N) (pad n v).
Proof. eapply Forall_impl; [apply pad_digits | apply isDigit_not_T]. Qed.

Lemma yearString_no_T y : Forall (fun x => x <> 84%N) (yearString y).
Proof.
  unfold yearString. destruct (_ && _); [apply pad_no_T |].
  apply Forall_app. split; [|apply pad_no_T].
  destruct (y <? 0); by repeat constructor.
Qed.

(** The text that [formatDate] returns holds no T. *)
Lemma formatDate_no_T (date : Value) : 84%N ∉ formatDate date.
Proof.
  assert (Hinv : 84%N ∉ lit "Invalid Date").
  { intros H%list_elem_of_In. vm_compute in H. intuition discriminate. }
  destruct date as [| | | | | [t|] | |]; try exact Hinv.
  unfold formatDate, substring0. intros Hin.
  apply elem_of_take in Hin as (i & Hin & _).
  apply list_elem_of_lookup_2 in Hin.
  set (A := yearString (YearFromTime t) ++ lit "-"
            ++ pad 2 (MonthFromTime t + 1) ++ lit "-"
            ++ pad 2 (DateFromTime t)).
  set (B := pad 2 (HourFromTime t) ++ lit ":" ++ pad 2 (MinFromTime t)
            ++ lit ":" ++ pad 2 (SecFromTime t) ++ lit "."
            ++ pad 3 (msFromTime t) ++ lit "Z").
  assert (Hiso : toISOString t = A ++ 84%N :: B)
    by (unfold toISOString, A, B; by rewrite <- !app_assoc).
  assert (HA : Forall (fun x => x <> 84%N) A).
  { unfold A. rewrite !Forall_app.
    repeat split; try apply pad_no_T; try apply yearString_no_T;
      by repeat constructor. }
  assert (HB : Forall (fun x => x <> 84%N) B).
  { unfold B. rewrite !Forall_app.
    repeat split; try apply pad_no_T; by repeat constructor. }
  rewrite Hiso, replaceFirst_skip in Hin by done.
  rewrite !elem_of_app in Hin. rewrite Forall_forall in HA, HB.
  destruct Hin as [Hin | [Hin | Hin]].
  - by apply (HA _ Hin).
  - apply list_elem_of_In in Hin. vm_compute in Hin. intuition discriminate.
  - by apply (HB _ Hin).
Qed.

(** A value that [formatTimestamps] has written is not of the timestamp
    shape any more. *)
Lemma formatValue_idempotent (v : Value) :
  formatValue host (formatValue host v) = formatValue host v.
Proof.
  assert (Hfd : forall d,
             formatValue host (VStr (formatDate d)) = VStr (formatDate d)).
  { intros d. unfold formatValue.
    destruct (test timestampPattern (formatDate d)) eqn:Ht; [|done].
    exfalso. apply test_anchored_spec in Ht as (m & rest & Hs & HM).
    apply (formatDate_no_T d). rewrite Hs. apply elem_of_app. left.
    apply (Matches_elem 84
             (digits 4 ++ cs "-" ++ digits 2 ++ cs "-" ++ digits 2)
             (digits 2 ++ cs ":" ++ digits 2 ++ cs ":" ++ digits 2)).
    exact HM. }
  destruct v as [| | | | s | t | |]; try done.
  - unfold formatValue at 2 3.
    destruct (test timestampPattern s) eqn:Ht; [apply Hfd |].
    unfold formatValue. by rewrite Ht.
  - apply Hfd.
Qed.

(** X9. [formatTimestamps] is idempotent: formatting rows that are already
    formatted changes nothing, since no text that [formatDate] returns is
    of the timestamp shape. *)
Theorem formatTimestamps_idempotent (results : Value) :
  formatTimestamps host (formatTimestamps host results)
  = formatTimestamps host results.
Proof.
  destruct results as [| | | | | | rows |]; try done.
  unfold formatTimestamps. f_equal. rewrite <- list_fmap_compose.
  apply list_fmap_ext. intros i row _. simpl.
  rewrite (formatRow_fmap host row), formatRow_fmap. f_equal.
  simpl spread. rewrite <- map_fmap_compose.
  apply map_fmap_ext. intros k v _. apply formatValue_idempotent.
Qed.

(** X10. For a Date that is not a valid date, and for anything that is
    not a Date, [formatDate] returns "Invalid Date"; for the Date of a
    date and time of the calendar in the years 0 to 9999, with any
    milliseconds, it returns the 19 characters YYYY-MM-DD HH:MM:SS of that
    date and time in UTC: the milliseconds are cut off, not rounded. *)
Theorem formatDate_spec (date : Value) :
  ((forall t, date <> VDate (Some t)) -> formatDate date = lit "Invalid Date")
  /\ (forall c ms, ValidCivil c -> 0 <= ms <= 999 ->
      date = VDate (Some (timeValue c ms)) ->
      formatDate date = canonical c /\ length (formatDate date) = 19%nat).
Proof.
  split.
  - intros Hd. destruct date as [| | | | | [t|] | |]; try done.
    by destruct (Hd t).
  - intros c ms Hc Hms ->. rewrite formatDate_timeValue by done.
    split; [done |]. unfold canonical.
    by rewrite !length_app, length_dateText, length_timeText.
Qed.

End MoreFormatFacts.

(* ===================================================================== *)
(** * More of the schema service                                           *)
(* ===================================================================== *)

Section MoreSchemaFacts.

Context (w : World).

Lemma forEach_ok {A B} (xs : list A) (body : A -> M B) (f : A -> B)
    (g : A -> State -> State) st :
  (forall x st, x ∈ xs -> body x st = (Ok (f x), g x st)) ->
  forEach xs body st = (Ok (f <$> xs), foldl (fun s x => g x s) st xs).
Proof.
  revert st. induction xs as [|x xs IH]; intros st Hbody; [done |].
  simpl. unfold bind at 1. rewrite Hbody by left.
  unfold bind. rewrite IH; [done |]. intros y st' Hy. apply Hbody. by right.
Qed.

(** The state after the columns and the relationships of the tables [ts]
    have been asked for. *)
Lemma asked_tables (ts : list jsstring) st :
  let st' :=
    foldl (fun s t => recordCall (QueryKeyUsage t)
                        (recordCall (QueryColumns t) s)) st ts in
  schema st' = schema st /\ lastRefreshTime st' = lastRefreshTime st
  /\ audit_logs st' = audit_logs st /\ clockReads st' = clockReads st
  /\ calls st'
     = calls st ++ (ts ≫= fun t => [QueryColumns t; QueryKeyUsage t]).
Proof.
  revert st. induction ts as [|t ts IH]; intros st; simpl.
  - by rewrite app_nil_r.
  - destruct (IH (recordCall (QueryKeyUsage t)
                    (recordCall (QueryColumns t) st)))
      as (-> & -> & -> & -> & ->).
    simpl. by rewrite <- !app_assoc.
Qed.

(** X11. When the database answers every statement of a refresh,
    [refreshSchema] lists the tables, then asks for the columns and for
    the relationships of each table in the order of the listing, and
    nothing else; the snapshot it stores has one entry for each listed
    table, in that order, with the columns in the order the database
    returns them and the first column whose key is PRI as the primary
    key; and the time of the last refresh is the reading of the clock
    after the queries. *)
Theorem refreshSchema_succeeds (st : State) (rows : list TableRow) :
  queryTables w = Ok rows ->
  (forall t, t ∈ TABLE_NAME <$> rows ->
             (exists cols, queryColumns w t = Ok cols)
             /\ (exists rels, queryKeyUsage w t = Ok rels)) ->
  exists tablesMetadata st',
    refreshSchema w st = (Ok tt, st')
    /\ schema st' = Some {| tables := tablesMetadata |}
    /\ name <$> tablesMetadata = TABLE_NAME <$> rows
    /\ Forall (fun table =>
                 exists cols,
                   queryColumns w (name table) = Ok cols
                   /\ col_name <$> columns table = COLUMN_NAME <$> cols
                   /\ dataType <$> columns table = DATA_TYPE <$> cols
                   /\ isPrimaryKey <$> columns table
                      = (fun col => streq (COLUMN_KEY col) (lit "PRI"))
                          <$> cols
                   /\ primaryKey table
                      = col_name <$> List.find isPrimaryKey (columns table))
         tablesMetadata
    /\ lastRefreshTime st' = now w (clockReads st)
    /\ calls st'
       = calls st
         ++ QueryTables
            :: ((TABLE_NAME <$> rows)
                  ≫= fun t => [QueryColumns t; QueryKeyUsage t]).
Proof.
  intros Hrows Hall.
  set (column := fun col =>
         {| col_name := COLUMN_NAME col;
            dataType := DATA_TYPE col;
            isNullable := streq (IS_NULLABLE col) (lit "YES");
            isPrimaryKey := streq (COLUMN_KEY col) (lit "PRI");
            isForeignKey := streq (COLUMN_KEY col) (lit "MUL");
            defaultValue := COLUMN_DEFAULT col |}).
  set (relationship := fun rel =>
         {| columnName := k_COLUMN_NAME rel;
            referencedTable := REFERENCED_TABLE_NAME rel;
            referencedColumn := REFERENCED_COLUMN_NAME rel |}).
  set (columnsOf := fun t =>
         match queryColumns w t with
         | Ok cols => column <$> cols
         | Throw _ => []
         end).
  set (relationshipsOf := fun t =>
         match queryKeyUsage w t with
         | Ok rels => relationship <$> rels
         | Throw _ => []
         end).
  set (table := fun t =>
         {| name := t;
            columns := columnsOf t;
            primaryKey := col_name <$> List.find isPrimaryKey (columnsOf t);
            relationships := relationshipsOf t |}).
  set (ts := TABLE_NAME <$> rows) in *.
  set (asked := fun (t : jsstring) (s : State) =>
         recordCall (QueryKeyUsage t) (recordCall (QueryColumns t) s)).
  set (st1 := foldl (fun s t => asked t s) (recordCall QueryTables st) ts).
  exists (table <$> ts),
    (setLastRefreshTime (now w (clockReads st1))
       (tick (setSchema (Some {| tables := table <$> ts |}) st1))).
  pose proof (asked_tables ts (recordCall QueryTables st)) as Hst1.
  cbv zeta in Hst1. change (foldl _ _ ts) with st1 in Hst1.
  destruct Hst1 as (Hs & Ht & Ha & Hc & Hcalls).
  split; [|split; [done | split; [|split; [|split]]]].
  - unfold refreshSchema. rewrite run_tryCatch, run_mbind.
    unfold getTables at 1, ask, record, modify, lift.
    rewrite run_tryCatch, !run_mbind, Hrows. simpl. rewrite run_mbind.
    fold ts.
    rewrite (forEach_ok ts _ table asked); [done |].
    intros t s Hin. destruct (Hall t Hin) as [[cols Hcols] [rels Hrels]].
    rewrite run_mbind.
    unfold getColumns at 1, ask, record, modify, lift.
    rewrite run_tryCatch, !run_mbind, Hcols. simpl. rewrite run_mbind.
    unfold getRelationships at 1, ask, record, modify, lift.
    rewrite run_tryCatch, !run_mbind, Hrels. simpl.
    unfold table, columnsOf, relationshipsOf. by rewrite Hcols, Hrels.
  - rewrite <- list_fmap_compose. by apply list_fmap_id.
  - apply Forall_fmap, Forall_forall. intros t Hin.
    destruct (Hall t Hin) as [[cols Hcols] _]. exists cols. simpl.
    unfold columnsOf. rewrite Hcols, <- !list_fmap_compose. done.
  - simpl. by rewrite Hc.
  - simpl. rewrite Hcalls. simpl. by rewrite <- app_assoc.
Qed.

(** A refresh that returns has stored a snapshot. *)
Lemma refreshSchema_returns st st' :
  (refreshSchema w st).1 = Ok tt -> st' = (refreshSchema w st).2 ->
  is_Some (schema st').
Proof.
  unfold refreshSchema. rewrite run_tryCatch, run_mbind.
  destruct (getTables w st) as [[tables | e1] st1]; [|done].
  rewrite run_mbind.
  match goal with
  | |- context [forEach ?xs ?body st1] =>
      destruct (forEach xs body st1) as [[meta | e2] st2]
  end; [|done].
  simpl. intros _ ->. simpl. eauto.
Qed.

(** X12. [getSchema] never returns null: either it returns a snapshot,
    which is then the cached one, or it throws "Schema discovery failed"
    and the cache is what it was. *)
Theorem getSchema_returns_snapshot (forceRefresh : bool) (st : State) :
  match getSchema w forceRefresh st with
  | (Ok s, st') => is_Some s /\ schema st' = s
  | (Throw e, st') =>
      e = Error (lit "Schema discovery failed") /\ SameCache st st'
  end.
Proof.
  destruct (Stale_dec w forceRefresh st) as [Hs | Hs].
  - rewrite (getSchema_stale w _ _ Hs).
    destruct (refreshSchema w (tick st)) as [[[] | e] st1] eqn:E.
    + split; [|done].
      apply (refreshSchema_returns (tick st)); by rewrite E.
    + apply refreshSchema_throws in E as [-> [? ?]]. done.
  - rewrite (getSchema_fresh w _ _ Hs). split; [|done].
    unfold Stale in Hs. destruct (schema st); [eauto | tauto].
Qed.

(** X13. A snapshot that [getSchema] has returned is served from the
    cache by the next call that does not force a refresh, as long as the
    clock then reads no more than an hour after the last refresh: the
    call returns the same snapshot and asks the database nothing. *)
Theorem getSchema_second_call (forceRefresh : bool) (st st1 : State) s :
  getSchema w forceRefresh st = (Ok s, st1) ->
  now w (clockReads st1) - lastRefreshTime st1 <= refreshIntervalMs ->
  getSchema w false st1 = (Ok s, tick st1).
Proof.
  intros Hfirst Hclock.
  pose proof (getSchema_returns_snapshot forceRefresh st) as H.
  rewrite Hfirst in H. destruct H as [[d ->] Hs].
  rewrite getSchema_fresh; [by rewrite Hs |].
  unfold Stale. rewrite Hs. intros [? | [? | ?]]; [done | done | lia].
Qed.

(** X14. GET /schema forces a refresh exactly when the query parameter
    refresh is the string "true": then it lists the tables whatever the
    cache holds; with any other value and a fresh cache it answers 200
    with the cached snapshot and asks the database nothing. *)
Theorem getSchemaRoute_refresh (refresh : Value) (st : State) :
  (refresh = VStr (lit "true") ->
   exists more,
     calls (getSchemaRoute w refresh st).2 = calls st ++ QueryTables :: more)
  /\ (refresh <> VStr (lit "true") -> ~ Stale w false st ->
      getSchemaRoute w refresh st = (Ok (200%N, schema st), tick st)).
Proof.
  unfold getSchemaRoute. rewrite run_mbind. split.
  - intros ->.
    assert (Hs : Stale w true st) by (right; by left).
    change (isString (VStr (lit "true")) (lit "true")) with true.
    rewrite (getSchema_stale w _ _ Hs).
    destruct (refreshSchema_calls w (tick st)) as [more Hmore].
    exists more.
    by destruct (refreshSchema w (tick st)) as [[[] | e] st1].
  - intros Hne Hfresh.
    assert (Hf : isString refresh (lit "true") = false).
    { destruct refresh; try done. unfold isString. simpl.
      apply bool_decide_eq_false. congruence. }
    rewrite Hf, (getSchema_fresh w _ _ Hfresh). done.
Qed.

End MoreSchemaFacts.

Section DescriptionFacts.

Lemma foldl_append {A} (f : A -> jsstring) (d : jsstring) (xs : list A) :
  foldl (fun d x => d ++ f x) d xs = d ++ mjoin (f <$> xs).
Proof.
  revert d. induction xs as [|x xs IH]; intros d; simpl.
  - by rewrite app_nil_r.
  - by rewrite IH, <- app_assoc.
Qed.

(** What the loop over the tables appends for a table. *)
Lemma describeTable_app (d : jsstring) (table : TableMetadata) :
  describeTable d table
  = d ++ lit "Table: " ++ name table ++ nl ++ lit "Columns:" ++ nl
      ++ mjoin (columnLine <$> columns table)
      ++ (if (0 <? length (relationships table))%nat
          then lit "Relationships:" ++ nl
               ++ mjoin (relationshipLine <$> relationships table)
          else [])
      ++ nl.
Proof.
  unfold describeTable. cbv zeta.
  destruct (0 <? length (relationships table))%nat;
    rewrite !foldl_append, <- !app_assoc; reflexivity.
Qed.

Lemma foldl_describeTable (d : jsstring) (ts : list TableMetadata) :
  foldl describeTable d ts = d ++ mjoin (describeTable [] <$> ts).
Proof.
  revert d. induction ts as [|t ts IH]; intros d; simpl.
  - by rewrite app_nil_r.
  - rewrite IH, (describeTable_app d), (describeTable_app []).
    by rewrite <- !app_assoc.
Qed.

Lemma mjoin_elem {A} (f : A -> jsstring) (xs : list A) (x : A) :
  x ∈ xs -> exists pre post, mjoin (f <$> xs) = pre ++ f x ++ post.
Proof.
  intros (l1 & l2 & ->)%list_elem_of_split.
  exists (mjoin (f <$> l1)), (mjoin (f <$> l2)).
  by rewrite fmap_app, join_app.
Qed.

(** X15. The description that [getSchemaDescription] writes for the
    prompt starts with the heading "Database Schema:" and an empty line,
    and is only that for a schema without tables; for every table of the
    schema it holds the line "Table: " with its name, the line
    "Columns:", and, further on, for every column of the table, the line
    of the column; that line gives the name, the type and, in
    parentheses, the constraints of the column: PRIMARY KEY, FOREIGN KEY,
    NOT NULL, in this order. *)
Theorem getSchemaDescription_mentions (schema : DatabaseSchema) :
  (exists rest,
      getSchemaDescription schema = lit "Database Schema:" ++ nl ++ nl ++ rest
      /\ (tables schema = [] -> rest = []))
  /\ (forall table column,
        table ∈ tables schema -> column ∈ columns table ->
        exists pre mid post,
          getSchemaDescription schema
          = pre ++ (lit "Table: " ++ name table ++ nl ++ lit "Columns:" ++ nl)
              ++ mid ++ columnLine column ++ post)
  /\ (forall column,
        columnLine column
        = lit "  - " ++ col_name column ++ lit ": " ++ dataType column
          ++ match isPrimaryKey column, isForeignKey column,
                   isNullable column with
             | true, true, true => lit " (PRIMARY KEY, FOREIGN KEY)"
             | true, true, false =>
                 lit " (PRIMARY KEY, FOREIGN KEY, NOT NULL)"
             | true, false, true => lit " (PRIMARY KEY)"
             | true, false, false => lit " (PRIMARY KEY, NOT NULL)"
             | false, true, true => lit " (FOREIGN KEY)"
             | false, true, false => lit " (FOREIGN KEY, NOT NULL)"
             | false, false, true => []
             | false, false, false => lit " (NOT NULL)"
             end
          ++ nl).
Proof.
  unfold getSchemaDescription. rewrite foldl_describeTable.
  split; [|split].
  - eexists. split; [by rewrite <- !app_assoc |]. by intros ->.
  - intros table column Ht Hc.
    destruct (mjoin_elem (describeTable []) _ _ Ht) as (pre & post & ->).
    destruct (mjoin_elem columnLine _ _ Hc) as (pre' & post' & Hcols).
    rewrite describeTable_app, Hcols.
    eexists ((lit "Database Schema:" ++ nl ++ nl) ++ pre), pre', _.
    rewrite <- !app_assoc. reflexivity.
  - intros column. unfold columnLine.
    by destruct (isPrimaryKey column), (isForeignKey column),
      (isNullable column).
Qed.

End DescriptionFacts.

(* ===================================================================== *)
(** * More of the executor and the results files                           *)
(* ===================================================================== *)

Section MoreExecutorFacts.

Context (host : Host) (w : World).

Lemma posted_app cs1 cs2 : posted (cs1 ++ cs2) = posted cs1 ++ posted cs2.
Proof. apply omap_app. Qed.

Lemma written_app cs1 cs2 : written (cs1 ++ cs2) = written cs1 ++ written cs2.
Proof. apply omap_app. Qed.

(** X16. [executeQuery] posts the statement it is given to the webhook at
    most once, and nothing else; it never writes a results file, since
    the call that should save the rows passes them as the request
    identifier; a result it returns is the acknowledgement of a workflow
    that was started, with no rows, or the rows of the payload with
    their number; and every error it throws is an Error whose message
    starts with "Failed to execute query via n8n: ". *)
Theorem executeQuery_outcome (query : jsstring) (st : State) :
  match executeQuery host w query st with
  | (Ok r, st') =>
      ((results r = VArr [] /\ qRowCount r = 0%nat
        /\ qAsynchronous r = Some true)
       \/ (exists rows, results r = VArr rows /\ qRowCount r = length rows
                        /\ qAsynchronous r = None))
      /\ posted (calls st') = posted (calls st) ++ [query]
      /\ written (calls st') = written (calls st)
  | (Throw e, st') =>
      (exists m, e = Error (lit "Failed to execute query via n8n: " ++ m))
      /\ (posted (calls st') = posted (calls st) ++ [query]
          \/ posted (calls st') = posted (calls st))
      /\ written (calls st') = written (calls st)
  end.
Proof.
  run_executor.
  destruct (negb (truthy (VStr (webhookUrl w)))
            || streq (trim (webhookUrl w)) []).
  { cbn [calls tick recordCall fst snd]. split; [eauto | split; [by right | done]]. }
  cbn [calls tick recordCall fst snd].
  destruct (post w query) as [data | e | e].
  - destruct (negb (truthy data)).
    { cbn [calls tick recordCall fst snd].
      rewrite posted_app, written_app, app_nil_r.
      split; [eauto | split; [by left | done]]. }
    destruct (isString (getProp data (lit "message")) _).
    { cbn [calls tick recordCall fst snd results qRowCount qAsynchronous].
      rewrite posted_app, written_app, app_nil_r.
      split; [by left | done]. }
    destruct (negb (truthy (getProp data (lit "results")))).
    { cbn [calls tick recordCall fst snd].
      rewrite posted_app, written_app, app_nil_r.
      split; [eauto | split; [by left | done]]. }
    destruct (getProp data (lit "results")) as [| | | | | | rows |];
      cbn [calls tick recordCall fst snd truthy results qRowCount
             qAsynchronous];
      rewrite posted_app, written_app, app_nil_r;
      try (split; [eauto | split; [by left | done]]).
    split; [right; by exists rows | done].
  - destruct (bool_decide (ax_code e = Some (lit "ECONNREFUSED"))).
    { cbn [calls tick recordCall fst snd].
      rewrite posted_app, written_app, app_nil_r.
      split; [eauto | split; [by left | done]]. }
    destruct (bool_decide _ || bool_decide _).
    { cbn [calls tick recordCall fst snd].
      rewrite posted_app, written_app, app_nil_r.
      split; [eauto | split; [by left | done]]. }
    destruct (ax_response e) as [[status body]|];
      cbn [calls tick recordCall fst snd];
      rewrite posted_app, written_app, app_nil_r;
      (split; [eauto | split; [by left | done]]).
  - cbn [calls tick recordCall fst snd].
    rewrite posted_app, written_app, app_nil_r.
    split; [eauto | split; [by left | done]].
Qed.

(** X17. When the webhook is configured and answers a statement with a
    payload whose [results] is an array, and which is not the
    acknowledgement of a started workflow, [executeQuery] returns these
    rows as they are, their number as the row count, and the seconds
    between its two readings of the clock as the execution time; an empty
    array is a result of no rows, not an asynchronous one. *)
Theorem executeQuery_returns_rows (query : jsstring) (data : Value)
    (rows : list Value) (st : State) :
  trim (webhookUrl w) <> [] ->
  post w query = Responded data ->
  getProp data (lit "message") <> VStr (lit "Workflow was started") ->
  getProp data (lit "results") = VArr rows ->
  (executeQuery host w query st).1
  = Ok {| results := VArr rows;
          qRowCount := length rows;
          qExecutionTime :=
            seconds (now w (S (clockReads st)) - now w (clockReads st));
          qAsynchronous := None |}.
Proof.
  intros Hurl Hpost Hmsg Hres. run_executor.
  assert (Hcheck : negb (truthy (VStr (webhookUrl w)))
                   || streq (trim (webhookUrl w)) [] = false).
  { unfold truthy, streq. rewrite (bool_decide_eq_false_2 _ Hurl).
    destruct (webhookUrl w); [done |]. by rewrite bool_decide_eq_false_2. }
  rewrite Hcheck, Hpost.
  assert (Htruthy : truthy data = true).
  { destruct data; try discriminate Hres; done. }
  assert (Hstarted : isString (getProp data (lit "message"))
                       (lit "Workflow was started") = false).
  { unfold isString. destruct (getProp data (lit "message")); try done.
    apply bool_decide_eq_false. congruence. }
  rewrite Htruthy, Hstarted, Hres. reflexivity.
Qed.

End MoreExecutorFacts.

Section ResultsFacts.

Implicit Types (p : list node) (s m : jsstring) (a : atom).

Lemma matchWhole_sound p s m :
  matchWhole p s = Some m -> Matches p m /\ s = m.
Proof.
  revert s m; induction p as [|[a|a|a] p IH]; intros s m; simpl.
  - destruct s; [|done]. intros [= <-]. split; [constructor | done].
  - destruct s as [|c s]; [done |].
    destruct (atomMatches a c) eqn:Hc; [|done].
    destruct (matchWhole p s) as [m0|] eqn:Hm; [|done].
    intros [= <-]. destruct (IH _ _ Hm) as [HM ->].
    split; [by constructor | done].
  - destruct s as [|c s]; [done |].
    destruct (atomMatches a c) eqn:Hc; [|done].
    destruct (greedy a (matchWhole p) s) as [m0|] eqn:Hg; [|done].
    intros [= <-].
    destruct (greedy_sound _ _ _ _ Hg) as (w & s' & m' & -> & -> & Hw & Hk).
    destruct (IH _ _ Hk) as [HM ->].
    split; [by constructor | done].
  - intros Hg.
    destruct (greedy_sound _ _ _ _ Hg) as (w & s' & m' & -> & -> & Hw & Hk).
    destruct (IH _ _ Hk) as [HM ->].
    split; [by constructor | done].
Qed.

Lemma matchWhole_complete p m : Matches p m -> is_Some (matchWhole p m).
Proof.
  intros HM. induction HM as [|a p c m Hc HM IH|a p c w m Hc Hw HM IH
                              |a p w m Hw HM IH]; simpl.
  - done.
  - rewrite Hc. destruct IH as [m0 ->]. done.
  - rewrite Hc.
    destruct (greedy_complete a (matchWhole p) w m Hw IH) as [m0 ->].
    done.
  - by apply greedy_complete.
Qed.

(** A pattern between [^] and [$] decides whether it denotes the text. *)
Lemma matchWhole_spec p s : is_Some (matchWhole p s) <-> Matches p s.
Proof.
  split.
  - intros [m Hm]. by destruct (matchWhole_sound _ _ _ Hm) as [HM ->].
  - apply matchWhole_complete.
Qed.

Lemma Matches_cs_inv (k : string) m : Matches (cs k) m -> m = lit k.
Proof.
  unfold cs. revert m. induction (lit k) as [|x l IH]; intros m HM.
  - by inversion HM.
  - simpl in HM. inversion HM as [| a p c m' Hc HM' | |]; subst.
    apply N.eqb_eq in Hc as ->. f_equal. by apply IH.
Qed.

Lemma atomMatches_OneOf (chars : list N) (c : N) :
  atomMatches (OneOf chars) c = true <-> c ∈ chars.
Proof.
  simpl. rewrite existsb_exists. split.
  - intros (x & Hin & ->%N.eqb_eq). by apply list_elem_of_In.
  - intros Hin. exists c. split; [by apply list_elem_of_In | apply N.eqb_refl].
Qed.

(** The names that the pattern of [getJsonResults] denotes. *)
Lemma filenamePattern_spec (filename : jsstring) :
  Matches filenamePattern filename
  <-> exists stem,
        filename = stem ++ lit ".json" /\ stem <> []
        /\ Forall (fun c => c ∈ filenameChars) stem.
Proof.
  unfold filenamePattern. split.
  - intros HM. inversion HM as [| | a p c w m Hc Hw HM' |]; subst.
    apply Matches_cs_inv in HM' as ->. exists (c :: w).
    split; [done | split; [done |]].
    constructor; [by apply atomMatches_OneOf |].
    eapply Forall_impl; [exact Hw |]. intros x. apply atomMatches_OneOf.
  - intros (stem & -> & Hne & Hstem). destruct stem as [|c w]; [done |].
    apply Forall_cons in Hstem as [Hc Hw].
    apply (M_plus (OneOf filenameChars) (cs ".json")).
    + by apply atomMatches_OneOf.
    + eapply Forall_impl; [exact Hw |]. intros x. apply atomMatches_OneOf.
    + rewrite <- (app_nil_r (lit ".json")), <- (app_nil_r (cs ".json")).
      apply Matches_cs. constructor.
Qed.

Lemma inChars (c : N) :
  existsb (N.eqb c) filenameChars = true -> c ∈ filenameChars.
Proof. apply (atomMatches_OneOf filenameChars c). Qed.

Lemma truthy_filename (filename : jsstring) :
  is_Some (matchWhole filenamePattern filename) ->
  truthy (VStr filename) = true.
Proof.
  intros Hm. destruct filename; [|done].
  destruct Hm as [m Hm]. vm_compute in Hm. discriminate.
Qed.

(** The guard of [getJsonResults]. *)
Lemma getJsonResults_guard (readFile : jsstring -> ReadOutcome)
    (parses : jsstring -> bool) (filename : jsstring) :
  getJsonResults readFile parses filename
  = Throw (AppError (lit "Invalid filename") VALIDATION_ERROR)
  <-> ~ Matches filenamePattern filename.
Proof.
  rewrite <- matchWhole_spec. unfold getJsonResults.
  destruct (decide (is_Some (matchWhole filenamePattern filename)))
    as [Hm | Hm].
  - rewrite (bool_decide_eq_true_2 _ Hm), (truthy_filename _ Hm). simpl.
    split; [|done].
    destruct (readFile filename) as [content | | e];
      [destruct (parses content) |..]; discriminate.
  - rewrite (bool_decide_eq_false_2 _ Hm), orb_true_r. done.
Qed.

(** X18. [getJsonResults] answers "Invalid filename" exactly for the names
    that are not a non-empty stem of letters, digits, underscores, hyphens
    and points followed by ".json", and then whatever the directory
    holds; a name it accepts holds no slash and no backslash, so the file
    it reads is in the directory of the results. *)
Theorem getJsonResults_filename (readFile : jsstring -> ReadOutcome)
    (parses : jsstring -> bool) (filename : jsstring) :
  let accepted :=
    exists stem,
      filename = stem ++ lit ".json" /\ stem <> []
      /\ Forall (fun c => c ∈ filenameChars) stem in
  (getJsonResults readFile parses filename
   = Throw (AppError (lit "Invalid filename") VALIDATION_ERROR)
   <-> ~ accepted)
  /\ (accepted -> (47%N ∉ filename) /\ (92%N ∉ filename)).
Proof.
  cbv zeta. split.
  - rewrite <- filenamePattern_spec. apply getJsonResults_guard.
  - intros (stem & -> & _ & Hstem).
    assert (Hno : forall c, c ∉ filenameChars -> c ∉ lit ".json" ->
                            c ∉ stem ++ lit ".json").
    { intros c H1 H2 [Hin | Hin]%elem_of_app; [|done].
      rewrite Forall_forall in Hstem. by apply H1, Hstem. }
    split; apply Hno; intros H%list_elem_of_In; vm_compute in H;
      intuition discriminate.
Qed.

(** X19. For a name that [getJsonResults] accepts, it sends the content of
    the file when the file is there and holds JSON; it answers "Results
    file not found" with the code NOT_FOUND when there is no such file;
    and "Failed to retrieve results file" with INTERNAL_ERROR for every
    other failure, also when the content is not JSON. The status of the
    response is then 200, 404 or 500. *)
Theorem getJsonResults_outcome (readFile : jsstring -> ReadOutcome)
    (parses : jsstring -> bool) (filename : jsstring) (production : bool)
    (toLowerCase : jsstring -> jsstring) :
  Matches filenamePattern filename ->
  let reply := getJsonResults readFile parses filename in
  let sent := httpStatus (fun _ => 200%N) production toLowerCase reply in
  match readFile filename with
  | FileContent content =>
      if parses content then reply = Ok content /\ sent = 200%N
      else reply = Throw (AppError (lit "Failed to retrieve results file")
                            INTERNAL_ERROR)
           /\ sent = 500%N
  | NoEntry =>
      reply = Throw (AppError (lit "Results file not found") NOT_FOUND)
      /\ sent = 404%N
  | ReadFailure _ =>
      reply = Throw (AppError (lit "Failed to retrieve results file")
                       INTERNAL_ERROR)
      /\ sent = 500%N
  end.
Proof.
  intros HM. cbv zeta. unfold getJsonResults.
  apply matchWhole_spec in HM.
  rewrite (bool_decide_eq_true_2 _ HM), (truthy_filename _ HM). simpl negb. cbv iota. simpl orb. cbv iota.
  destruct (readFile filename) as [content | | e];
    [destruct (parses content) |..]; done.
Qed.

End ResultsFacts.

Section SaveFacts.

Context (w : World).

Lemma isDigit_inChars (d : N) : isDigit d = true -> d ∈ filenameChars.
Proof.
  unfold isDigit. rewrite andb_true_iff, !N.leb_le. intros [H1 H2].
  unfold filenameChars. rewrite !elem_of_app. right. right. left.
  apply list_elem_of_fmap. exists (N.to_nat d).
  split; [by rewrite N2Nat.id |]. apply elem_of_seq. lia.
Qed.

(** The text of a date of the years 0 to 9999 is made of digits and of
    the marks of the format. *)
Lemma toISOString_chars (t : Z) :
  0 <= YearFromTime t <= 9999 ->
  Forall (fun c => isDigit c = true \/ c ∈ [45; 84; 58; 46; 90]%N)
    (toISOString t).
Proof.
  intros Hy.
  assert (Hpad : forall n v,
             Forall (fun c => isDigit c = true
                              \/ c ∈ [45; 84; 58; 46; 90]%N) (pad n v)).
  { intros n v. eapply Forall_impl; [apply pad_digits |]. by left. }
  unfold toISOString, yearString.
  rewrite (proj2 (Z.leb_le 0 _)), (proj2 (Z.leb_le _ 9999)) by lia.
  simpl andb. cbv iota. rewrite !Forall_app.
  repeat split; try apply Hpad;
    (constructor; [|constructor]); right; rewrite !elem_of_cons; auto 10.
Qed.

Lemma timestamp_chars (t : Z) :
  0 <= YearFromTime t <= 9999 ->
  Forall (fun c => c ∈ filenameChars)
    (replaceGlobal1 (OneOf [58; 46]%N) (lit "-") (toISOString t)).
Proof.
  intros Hy. apply Forall_forall. intros c Hin.
  apply elem_of_replaceGlobal1 in Hin as [Hin | [Hin Hc]].
  - apply list_elem_of_singleton in Hin as ->. by apply inChars.
  - pose proof (toISOString_chars t Hy) as Hiso.
    rewrite Forall_forall in Hiso. destruct (Hiso c Hin) as [Hd | Hm].
    + by apply isDigit_inChars.
    + rewrite !elem_of_cons, elem_of_nil in Hm.
      destruct Hm as [-> | [-> | [-> | [-> | [-> | []]]]]];
        try discriminate Hc; by apply inChars.
Qed.

(** X20. With a request identifier that is absent or a string,
    [saveResultsAsJson] writes one file: query_, the ISO text of the
    clock with - for every colon and point, an underscore and the first
    eight characters of the identifier if there is one, and .json; it
    returns that name if the file is written and throws the error of the
    file system otherwise. If the year of the clock has four digits and
    these eight characters are letters, digits, underscores, hyphens or
    points (those of a UUID are), [getJsonResults] accepts the name. *)
Theorem saveResultsAsJson_retrievable (data : Value)
    (requestId : option jsstring) (st : State) :
  let filename :=
    lit "query_"
    ++ replaceGlobal1 (OneOf [58; 46]%N) (lit "-")
         (toISOString (now w (clockReads st)))
    ++ match requestId with
       | Some (c :: s) => lit "_" ++ take 8 (c :: s)
       | _ => []
       end
    ++ lit ".json" in
  calls (saveResultsAsJson w data (header requestId) st).2
  = calls st ++ [WriteFile filename]
  /\ (saveResultsAsJson w data (header requestId) st).1
     = match writeFile w filename with
       | Ok _ => Ok filename
       | Throw e => Throw e
       end
  /\ (0 <= YearFromTime (now w (clockReads st)) <= 9999 ->
      Forall (fun c => c ∈ filenameChars) (take 8 (default [] requestId)) ->
      forall readFile parses,
        getJsonResults readFile parses filename
        <> Throw (AppError (lit "Invalid filename") VALIDATION_ERROR)).
Proof.
  cbv zeta.
  set (stamp := replaceGlobal1 (OneOf [58; 46]%N) (lit "-")
                  (toISOString (now w (clockReads st)))).
  set (idPart := match requestId with
                 | Some (c :: s) => lit "_" ++ take 8 (c :: s)
                 | _ => []
                 end).
  assert (Hrun : saveResultsAsJson w data (header requestId) st
                 = (match writeFile w (lit "query_" ++ stamp ++ idPart
                                       ++ lit ".json") with
                    | Ok _ => Ok (lit "query_" ++ stamp ++ idPart
                                  ++ lit ".json")
                    | Throw e => Throw e
                    end,
                    recordCall (WriteFile (lit "query_" ++ stamp ++ idPart
                                           ++ lit ".json")) (tick st))).
  { unfold saveResultsAsJson, dateNow, ask, record, modify, lift, mbind,
      M_bind, bind, tryCatch, mret, M_ret, ret, throw.
    fold stamp.
    destruct requestId as [[|c s]|]; cbn [header truthy negb idPart];
      try change (streq [] []) with true;
      try change (streq (c :: s) []) with false; cbn [negb];
      unfold substring0; by destruct (writeFile w _) as [[] | e]. }
  rewrite Hrun. split; [done | split; [done |]].
  intros Hy Hid readFile parses.
  rewrite getJsonResults_guard, filenamePattern_spec.
  intros Hno. apply Hno.
  exists (lit "query_" ++ stamp ++ idPart).
  split; [by rewrite <- !app_assoc | split; [done |]].
  rewrite !Forall_app. split; [|split].
  - apply Forall_forall. intros c Hc. apply inChars.
    apply list_elem_of_In in Hc. vm_compute in Hc.
    repeat (destruct Hc as [<- | Hc]; [reflexivity |]). done.
  - by apply timestamp_chars.
  - unfold idPart. destruct requestId as [[|c s]|]; try constructor.
    + by apply inChars.
    + exact Hid.
Qed.

End SaveFacts.

(* ===================================================================== *)
(** * More of the chat controller                                          *)
(* ===================================================================== *)

Section PostsRelations.

#[export] Instance SamePosts_quiet : Quiet SamePosts notPost.
Proof.
  split.
  - split; [by intros st | intros st1 st2 st3 H1 H2].
    unfold SamePosts in *. congruence.
  - by intros st.
  - intros c st Hc. unfold SamePosts, posted. simpl. rewrite omap_app.
    destruct c; try discriminate Hc; simpl; by rewrite app_nil_r.
Qed.

#[export] Instance SamePosts_cache : IgnoresCache SamePosts.
Proof. by split. Qed.

#[export] Instance SamePosts_audit : IgnoresAuditTable SamePosts.
Proof. by intros row st. Qed.

#[export] Instance SameAsked_quiet : Quiet SameAsked notGenerate.
Proof.
  split.
  - split; [by intros st | intros st1 st2 st3 H1 H2].
    unfold SameAsked in *. congruence.
  - by intros st.
  - intros c st Hc. unfold SameAsked, asked. simpl. rewrite omap_app.
    destruct c; try discriminate Hc; simpl; by rewrite app_nil_r.
Qed.

#[export] Instance SameAsked_cache : IgnoresCache SameAsked.
Proof. by split. Qed.

End PostsRelations.

Section SaveKeeps.

Context (R : relation State) (quiet : Call -> bool) `{!Quiet R quiet}.
Context `{!forall p, TCEq (quiet (WriteFile p)) true}.

(** Saving the results posts nothing. *)
#[export] Instance Keeps_saveResultsAsJson_writes w data requestId :
  Keeps R (saveResultsAsJson w data requestId).
Proof.
  unfold saveResultsAsJson.
  apply (Keeps_tryCatch R quiet); [|apply _].
  apply (Keeps_mbind R quiet); [apply _ |]. intros created.
  apply (Keeps_mbind R quiet); [|apply _].
  destruct (truthy requestId); [|apply _].
  destruct requestId; apply _.
Qed.

End SaveKeeps.

Section MoreChatFacts.

Context (host : Host) (w : World).

Lemma validateChatMessage_cases (message : Value) :
  validateChatMessage message = Ok true
  \/ exists e, validateChatMessage message = Throw e.
Proof.
  unfold validateChatMessage. destruct message; eauto.
  repeat match goal with |- context [if ?b then _ else _] => destruct b end;
    eauto.
Qed.

Lemma validateSqlQuery_cases (sql : jsstring) :
  validateSqlQuery host sql = Ok true
  \/ exists e, validateSqlQuery host sql = Throw e.
Proof.
  unfold validateSqlQuery. destruct (List.find _ _); [eauto |].
  repeat match goal with |- context [if ?b then _ else _] => destruct b end;
    eauto.
Qed.

(** The calls of [executeQuery]: the statement is posted, once, unless the
    webhook is not configured. *)
Lemma executeQuery_calls (query : jsstring) (st : State) :
  calls (executeQuery host w query st).2
  = calls st
    ++ (if negb (truthy (VStr (webhookUrl w)))
           || streq (trim (webhookUrl w)) []
        then [] else [Post query]).
Proof.
  unfold executeQuery, postQuery, saveResultsAsJson, dateNow, ask, record,
    modify, lift, mbind, M_bind, bind, tryCatch, mret, M_ret, ret, throw.
  destruct (negb (truthy (VStr (webhookUrl w)))
            || streq (trim (webhookUrl w)) []).
  { simpl. by rewrite app_nil_r. }
  cbn [calls tick recordCall fst snd].
  destruct (post w query) as [data | e | e].
  - destruct (negb (truthy data)); [done |].
    destruct (isString (getProp data (lit "message")) _); [done |].
    destruct (negb (truthy (getProp data (lit "results")))); [done |].
    by destruct (getProp data (lit "results")).
  - destruct (bool_decide (ax_code e = Some (lit "ECONNREFUSED"))); [done |].
    destruct (bool_decide _ || bool_decide _); [done |].
    by destruct (ax_response e) as [[status body]|].
  - done.
Qed.

(** What the [catch] of [processChat] does. *)
Lemma chatFailed_run (message : Value) (error : Exn) (st : State) :
  chatFailed w message error st
  = (Throw (chatError (JS.message error)),
     logged w (failureRow message (JS.message error)) st).
Proof.
  unfold chatFailed, chatError, failureRow.
  destruct (includes (JS.message error) (lit "OpenAI"));
    [|destruct (includes (JS.message error) (lit "n8n")
               || includes (JS.message error) (lit "query"));
      [|destruct (includes (JS.message error) (lit "timeout")
                 || includes (JS.message error) (lit "timed out"))]];
    by rewrite run_mbind, run_tryCatch, logQuery_run.
Qed.

Lemma processChat_valid (req : Request) (st : State) :
  validateChatMessage (body_message req) = Ok true ->
  processChat host w req st
  = match chatSteps host w req (body_message req)
            (if truthy (body_conversationId req)
             then body_conversationId req else VStr (uuidv4 w)) st with
    | (Ok reply, st1) => (Ok reply, st1)
    | (Throw e, st1) =>
        (Throw (chatError (JS.message e)),
         logged w (failureRow (body_message req) (JS.message e)) st1)
    end.
Proof.
  intros Hvalid. unfold processChat.
  rewrite run_mbind, run_tryCatch. unfold lift. rewrite Hvalid.
  rewrite run_tryCatch.
  destruct (chatSteps _ _ _ _ _ st) as [[reply | e] st1]; [done |].
  apply chatFailed_run.
Qed.

Lemma processChat_invalid (req : Request) (st : State) (e : Exn) :
  validateChatMessage (body_message req) = Throw e ->
  processChat host w req st
  = (Throw (AppError (JS.message e) VALIDATION_ERROR), st).
Proof.
  intros Hinvalid. unfold processChat.
  rewrite run_mbind, run_tryCatch. unfold lift. by rewrite Hinvalid.
Qed.

Lemma chatError_code (m : jsstring) :
  exists text code,
    chatError m = AppError text code
    /\ code ∈ [SERVICE_UNAVAILABLE; DATABASE_ERROR; TIMEOUT; INTERNAL_ERROR].
Proof.
  unfold chatError.
  repeat match goal with |- context [if ?b then _ else _] => destruct b end;
    eexists _, _; (split; [reflexivity |]); rewrite !elem_of_cons; auto 10.
Qed.

(** X21. A request whose message fails the input validation is answered
    with the error of the validator and the code VALIDATION_ERROR, and
    nothing else happens: no call to the outside, no row in the audit
    log. The status 400 is the answer to exactly these requests; every
    other request is answered 200, 202, 500, 503 or 504. *)
Theorem processChat_bad_request (req : Request) (st : State)
    (production : bool) (toLowerCase : jsstring -> jsstring) :
  let sent :=
    httpStatus status production toLowerCase (processChat host w req st).1 in
  (forall e, validateChatMessage (body_message req) = Throw e ->
             processChat host w req st
             = (Throw (AppError (JS.message e) VALIDATION_ERROR), st))
  /\ (sent = 400%N
      <-> exists e, validateChatMessage (body_message req) = Throw e)
  /\ sent ∈ [200; 202; 400; 500; 503; 504]%N.
Proof.
  cbv zeta. split; [intros e; apply processChat_invalid |].
  destruct (validateChatMessage_cases (body_message req))
    as [Hvalid | [e Hinvalid]].
  - rewrite (processChat_valid req st Hvalid).
    match goal with
    | |- context [chatSteps host w req ?m ?c st] =>
        pose proof (chatSteps_outcome host w req m c st) as Hsteps;
        destruct (chatSteps host w req m c st) as [[reply | e] st1]
    end; unfold StepsOutcome in Hsteps; simpl in Hsteps.
    + destruct Hsteps as (row & _ & [[Hs _] | [Hs _]] & _);
        simpl; rewrite Hs, Hvalid; rewrite !elem_of_cons;
        (split; [split; [done | by intros [? ?]] | auto 10]).
    + destruct (chatError_code (JS.message e)) as (text & code & -> & Hcode).
      simpl. rewrite Hvalid. rewrite !elem_of_cons, elem_of_nil in Hcode.
      rewrite !elem_of_cons.
      destruct Hcode as [-> | [-> | [-> | [-> | []]]]]; simpl;
        (split; [split; [done | by intros [? ?]] | auto 10]).
  - rewrite (processChat_invalid req st e Hinvalid). simpl.
    split; [split; [by exists e | done] |]. rewrite !elem_of_cons. auto 10.
Qed.

(** Every error of [executeQuery] carries the name of the service. *)
Lemma executeQuery_throws (query : jsstring) (st st' : State) (e : Exn) :
  executeQuery host w query st = (Throw e, st') ->
  exists m, e = Error (lit "Failed to execute query via n8n: " ++ m).
Proof.
  unfold executeQuery, postQuery, saveResultsAsJson, dateNow, ask, record,
    modify, lift, mbind, M_bind, bind, tryCatch, mret, M_ret, ret, throw.
  destruct (negb (truthy (VStr (webhookUrl w)))
            || streq (trim (webhookUrl w)) []);
    [intros [= <- <-]; eauto |].
  destruct (post w query) as [data | ax | e0].
  - destruct (negb (truthy data)); [intros [= <- <-]; eauto |].
    destruct (isString (getProp data (lit "message")) _); [done |].
    destruct (negb (truthy (getProp data (lit "results"))));
      [intros [= <- <-]; eauto |].
    destruct (getProp data (lit "results"));
      try (intros [= <- <-]; eauto); done.
  - destruct (bool_decide (ax_code ax = Some (lit "ECONNREFUSED")));
      [intros [= <- <-]; eauto |].
    destruct (bool_decide _ || bool_decide _); [intros [= <- <-]; eauto |].
    destruct (ax_response ax) as [[code body]|]; intros [= <- <-]; eauto.
  - intros [= <- <-]; eauto.
Qed.

(** The steps of [processChat] up to the generated statement. *)
Lemma chatSteps_generated (message : Value) (st st1 : State)
    (databaseSchema : option DatabaseSchema)
    (generated : jsstring) (k : jsstring -> M Reply) :
  getSchema w false st = (Ok databaseSchema, st1) ->
  generateSql w message databaseSchema = Ok generated ->
  ((getSchema w false ≫= fun databaseSchema =>
    ask (GenerateSql message) (generateSql w message databaseSchema) ≫= k) st)
  = k generated (recordCall (GenerateSql message) st1).
Proof.
  intros Hschema Hgen. rewrite run_mbind, Hschema. cbv beta iota.
  rewrite run_mbind. unfold ask at 1, record, modify, lift.
  by rewrite run_mbind, Hgen.
Qed.

(** X22. When the validator rejects the statement that the model has
    written, the request fails before anything is posted to the webhook:
    one row with the status 'error', an empty statement and the message
    "SQL generation failed: " with the error of the validator goes to the
    audit log, and the error that the client receives is chosen by that
    message. For the errors that do not quote the statement it is the
    code INTERNAL_ERROR with "Failed to process your request": the code
    VALIDATION_ERROR of the rejection does not reach the client. *)
Theorem processChat_rejected_sql (req : Request) (st st1 : State)
    (databaseSchema : option DatabaseSchema) (generated : jsstring)
    (e : Exn) :
  validateChatMessage (body_message req) = Ok true ->
  getSchema w false st = (Ok databaseSchema, st1) ->
  generateSql w (body_message req) databaseSchema = Ok generated ->
  validateSqlQuery host generated = Throw e ->
  let reason := lit "SQL generation failed: " ++ JS.message e in
  processChat host w req st
  = (Throw (chatError reason),
     logged w (failureRow (body_message req) reason)
       (recordCall (GenerateSql (body_message req)) st1))
  /\ posted (calls (processChat host w req st).2) = posted (calls st)
  /\ (e ∈ structuralErrors ->
      chatError reason
      = AppError (lit "Failed to process your request") INTERNAL_ERROR).
Proof.
  intros Hvalid Hschema Hgen Hsql. cbv zeta.
  assert (Hrun : processChat host w req st
                 = (Throw (chatError (lit "SQL generation failed: "
                                      ++ JS.message e)),
                    logged w (failureRow (body_message req)
                                (lit "SQL generation failed: "
                                 ++ JS.message e))
                      (recordCall (GenerateSql (body_message req)) st1))).
  { rewrite (processChat_valid req st Hvalid). unfold chatSteps.
    rewrite (chatSteps_generated _ st st1 databaseSchema generated)
      by done.
    rewrite run_mbind, run_tryCatch, run_mbind. unfold lift.
    by rewrite Hsql. }
  split; [exact Hrun | split].
  - rewrite Hrun. cbn [snd].
    pose proof (keeps (R := SamePosts) (m := getSchema w false) st) as H1.
    rewrite Hschema in H1. simpl in H1. unfold SamePosts in H1.
    rewrite <- H1. unfold logged, posted.
    destruct (insertAuditLog w _); simpl; rewrite !omap_app; simpl;
      by rewrite !app_nil_r.
  - unfold structuralErrors. rewrite !elem_of_cons, elem_of_nil.
    intros [-> | [-> | [-> | [-> | [-> | []]]]]]; vm_compute; reflexivity.
Qed.

(** X23. When the executor fails, the client receives the status 503:
    the message of the error names n8n, so the code is DATABASE_ERROR,
    or SERVICE_UNAVAILABLE if the message also names OpenAI. The row
    that goes to the audit log has the status 'error' and the message
    of the executor, and does not hold the statement that failed. *)
Theorem processChat_executor_failure (req : Request) (st st1 st2 : State)
    (databaseSchema : option DatabaseSchema) (generated : jsstring)
    (e : Exn) (production : bool) (toLowerCase : jsstring -> jsstring) :
  validateChatMessage (body_message req) = Ok true ->
  getSchema w false st = (Ok databaseSchema, st1) ->
  generateSql w (body_message req) databaseSchema = Ok generated ->
  validateSqlQuery host generated = Ok true ->
  executeQuery host w (ensureQueryLimit generated defaultLimit)
    (recordCall (GenerateSql (body_message req)) st1) = (Throw e, st2) ->
  exists text code,
    processChat host w req st
    = (Throw (AppError text code),
       logged w (failureRow (body_message req) (JS.message e)) st2)
    /\ (code = DATABASE_ERROR \/ code = SERVICE_UNAVAILABLE)
    /\ httpStatus status production toLowerCase
         (processChat host w req st).1 = 503%N
    /\ query_text (failureRow (body_message req) (JS.message e)) = []
    /\ error_message (failureRow (body_message req) (JS.message e))
       = Some (JS.message e).
Proof.
  intros Hvalid Hschema Hgen Hsql Hexec.
  assert (Hrun : processChat host w req st
                 = (Throw (chatError (JS.message e)),
                    logged w (failureRow (body_message req) (JS.message e))
                      st2)).
  { rewrite (processChat_valid req st Hvalid). unfold chatSteps.
    rewrite (chatSteps_generated _ st st1 databaseSchema generated)
      by done.
    rewrite run_mbind, run_tryCatch, run_mbind. unfold lift.
    rewrite Hsql. cbv beta iota. rewrite run_mret. cbv beta iota.
    by rewrite run_mbind, Hexec. }
  destruct (executeQuery_throws _ _ _ _ Hexec) as [m ->].
  assert (Hn8n : includes (lit "Failed to execute query via n8n: " ++ m)
                   (lit "n8n") = true).
  { apply includes_spec.
    exists (lit "Failed to execute query via "), (lit ": " ++ m).
    reflexivity. }
  rewrite Hrun. unfold chatError. cbn [JS.message]. rewrite Hn8n.
  destruct (includes _ (lit "OpenAI")); eexists _, _;
    (split; [reflexivity |]); repeat split; auto.
Qed.

Lemma posted_recordCall (c : Call) (st : State) :
  posted (calls (recordCall c st))
  = posted (calls st) ++ match c with Post q => [q] | _ => [] end.
Proof. unfold posted. simpl. rewrite omap_app. by destruct c. Qed.

Lemma posted_logged (row : AuditRow) (st : State) :
  posted (calls (logged w row st)) = posted (calls st).
Proof.
  unfold logged, appendAuditLog.
  destruct (insertAuditLog w row); cbn [calls];
    fold (calls (recordCall (InsertAuditLog row) st));
    rewrite posted_recordCall; by rewrite app_nil_r.
Qed.

(** What the steps of [processChat] post to the webhook. *)
Lemma chatSteps_posts (req : Request) (message conversationId : Value)
    (st : State) :
  exists new,
    posted (calls (chatSteps host w req message conversationId st).2)
    = posted (calls st) ++ new
    /\ (length new <= 1)%nat
    /\ Forall (fun q => exists generated,
                  validateSqlQuery host generated = Ok true
                  /\ q = ensureQueryLimit generated defaultLimit) new.
Proof.
  unfold chatSteps. rewrite run_mbind.
  pose proof (keeps (R := SamePosts) (m := getSchema w false) st) as H1.
  unfold SamePosts in H1.
  destruct (getSchema w false st) as [[databaseSchema | e] st1];
    simpl in H1; rewrite <- H1;
    [|nothing_posted].
  rewrite run_mbind. unfold ask at 1, record, modify, lift.
  rewrite run_mbind. cbv beta iota.
  destruct (generateSql w message databaseSchema) as [generated | e];
    [|cbn [snd]; rewrite posted_recordCall; nothing_posted].
  rewrite run_mbind, run_tryCatch, run_mbind. unfold lift.
  destruct (validateSqlQuery_cases generated) as [Hv | [e Hv]]; rewrite Hv;
    [|cbv beta iota; unfold throw; cbn [snd]; rewrite posted_recordCall;
      nothing_posted].
  cbv beta iota. rewrite run_mret. cbv beta iota. rewrite run_mbind.
  set (sql := ensureQueryLimit generated defaultLimit).
  set (st2 := recordCall (GenerateSql message) st1).
  pose proof (executeQuery_calls sql st2) as Hcalls.
  assert (Hposted : exists new,
             posted (calls (executeQuery host w sql st2).2)
             = posted (calls st1) ++ new
             /\ (length new <= 1)%nat
             /\ Forall (fun q => exists generated,
                           validateSqlQuery host generated = Ok true
                           /\ q = ensureQueryLimit generated defaultLimit)
                  new).
  { rewrite Hcalls. unfold st2. rewrite posted_app, posted_recordCall.
    rewrite app_nil_r.
    destruct (negb (truthy (VStr (webhookUrl w))) || _).
    - nothing_posted.
    - exists [sql]. split; [done | split; [simpl; lia |]].
      constructor; [by exists generated | constructor]. }
  destruct (executeQuery host w sql st2) as [[queryExecution | e] st3];
    [|exact Hposted].
  cbn [snd] in Hposted. destruct Hposted as (new & Hnew & Hlen & Hall).
  exists new. split; [|done]. rewrite <- Hnew.
  match goal with
  | |- posted (calls (?m st3).2) = _ =>
      assert (Hk : Keeps SamePosts m); [|exact (Hk st3)]
  end.
  destruct (default false (qAsynchronous queryExecution)); [apply _ |].
  apply (Keeps_mbind SamePosts notPost); [apply _ |]. intros answer.
  apply (Keeps_mbind SamePosts notPost); [apply _ |]. intros _.
  apply (Keeps_mbind SamePosts notPost); [apply _ |]. intros stamped.
  cbv zeta. apply _.
Qed.

(** X24. Whatever the model writes, the only statement that
    [processChat] posts to the webhook is a statement that
    [validateSqlQuery] has accepted, with the row limit of
    [ensureQueryLimit]; it posts at most one, and none for a request
    whose message is not valid. *)
Theorem processChat_posts_validated (req : Request) (st : State) :
  exists new,
    posted (calls (processChat host w req st).2) = posted (calls st) ++ new
    /\ (length new <= 1)%nat
    /\ Forall (fun q =>
                 validateChatMessage (body_message req) = Ok true
                 /\ exists generated,
                      validateSqlQuery host generated = Ok true
                      /\ q = ensureQueryLimit generated defaultLimit) new.
Proof.
  destruct (validateChatMessage_cases (body_message req))
    as [Hvalid | [e Hinvalid]].
  - rewrite (processChat_valid req st Hvalid).
    match goal with
    | |- context [chatSteps host w req ?m ?c st] =>
        destruct (chatSteps_posts req m c st) as (new & Hnew & Hlen & Hall);
        destruct (chatSteps host w req m c st) as [[reply | e] st1]
    end; cbn [snd] in *; exists new;
      rewrite ?posted_logged; (split; [done | split; [done |]]);
      (eapply Forall_impl; [exact Hall |]); by intros q Hq.
  - rewrite (processChat_invalid req st e Hinvalid). nothing_posted.
Qed.

(** X25. When the schema cannot be refreshed, a step of the refresh
    failing while the cache is stale, the request fails with "Failed to
    process your request" and the code INTERNAL_ERROR, the status 500,
    not with the code of a database error; the model is not called,
    nothing is posted, and the row of the audit log says "Schema
    discovery failed". *)
Theorem processChat_schema_failure (req : Request) (st : State)
    (production : bool) (toLowerCase : jsstring -> jsstring) :
  validateChatMessage (body_message req) = Ok true ->
  Stale w false st ->
  RefreshStepFails w ->
  exists st1,
    processChat host w req st
    = (Throw (AppError (lit "Failed to process your request")
                INTERNAL_ERROR),
       logged w (failureRow (body_message req)
                   (lit "Schema discovery failed")) st1)
    /\ httpStatus status production toLowerCase
         (processChat host w req st).1 = 500%N
    /\ SameCache st st1
    /\ posted (calls st1) = posted (calls st)
    /\ asked (calls st1) = asked (calls st).
Proof.
  intros Hvalid Hstale Hfail.
  destruct (refreshSchema_step_fails w (tick st) Hfail) as [e He].
  destruct (refreshSchema w (tick st)) as [r st1] eqn:E.
  simpl in He. subst r.
  destruct (refreshSchema_throws w _ _ _ E) as [-> Hcache].
  assert (Hschema : getSchema w false st
                    = (Throw (Error (lit "Schema discovery failed")), st1)).
  { by rewrite (getSchema_stale w _ _ Hstale), E. }
  exists st1.
  assert (Hrun : processChat host w req st
                 = (Throw (AppError (lit "Failed to process your request")
                             INTERNAL_ERROR),
                    logged w (failureRow (body_message req)
                                (lit "Schema discovery failed")) st1)).
  { rewrite (processChat_valid req st Hvalid). unfold chatSteps.
    by rewrite run_mbind, Hschema. }
  rewrite Hrun. split; [done | split; [done | split; [done | split]]].
  - pose proof (keeps (R := SamePosts) (m := getSchema w false) st) as H1.
    by rewrite Hschema in H1.
  - pose proof (keeps (R := SameAsked) (m := getSchema w false) st) as H1.
    by rewrite Hschema in H1.
Qed.

(** X26. When every step succeeds and the executor returns rows,
    [processChat] answers 200 with the text of the model as the message,
    the statement that was executed (the generated one with its row
    limit), the rows with their timestamps formatted, and the
    conversation identifier of the request, or a fresh UUID if the
    request has none; the row of the audit log holds that statement, the
    message of the user, the status 'success', and the row count and the
    execution time of the executor. The answer does not depend on
    whether the results file could be saved. *)
Theorem processChat_answers (req : Request) (st st1 st2 : State)
    (databaseSchema : option DatabaseSchema) (generated answer : jsstring)
    (queryExecution : QueryExecutionResponse) :
  let sql := ensureQueryLimit generated defaultLimit in
  let formattedResults := formatTimestamps host (results queryExecution) in
  validateChatMessage (body_message req) = Ok true ->
  getSchema w false st = (Ok databaseSchema, st1) ->
  generateSql w (body_message req) databaseSchema = Ok generated ->
  validateSqlQuery host generated = Ok true ->
  executeQuery host w sql (recordCall (GenerateSql (body_message req)) st1)
  = (Ok queryExecution, st2) ->
  qAsynchronous queryExecution = None ->
  generateResponse w (body_message req) sql formattedResults = Ok answer ->
  exists reply st',
    processChat host w req st = (Ok reply, st')
    /\ status reply = 200%N
    /\ Types.message (body reply) = answer
    /\ Types.sql (body reply) = Some sql
    /\ data (body reply) = formattedResults
    /\ conversationId (body reply)
       = (if truthy (body_conversationId req) then body_conversationId req
          else VStr (uuidv4 w))
    /\ asynchronous (body reply) = None
    /\ auditWrites (calls st')
       = auditWrites (calls st)
         ++ [auditRow {| queryText := sql;
                         userInput := body_message req;
                         executionTime :=
                           Some (qExecutionTime queryExecution);
                         rowCount := Some (qRowCount queryExecution);
                         responseStatus := St_success;
                         errorMessage := None |}].
Proof.
  intros sql formattedResults Hvalid Hschema Hgen Hsql Hexec Hsync Hanswer.
  pose proof (keeps (R := SameAudit) (m := getSchema w false) st) as [Ha1 _].
  rewrite Hschema in Ha1. simpl in Ha1.
  pose proof (keeps (R := SameAudit) (m := executeQuery host w sql)
                (recordCall (GenerateSql (body_message req)) st1))
    as [Ha2 _].
  rewrite Hexec in Ha2. simpl in Ha2.
  rewrite (processChat_valid req st Hvalid). unfold chatSteps.
  rewrite (chatSteps_generated _ st st1 databaseSchema generated) by done.
  rewrite run_mbind, run_tryCatch, run_mbind. unfold lift.
  rewrite Hsql. cbv beta iota. rewrite run_mret. cbv beta iota.
  fold sql. rewrite run_mbind, Hexec. cbv beta iota.
  rewrite Hsync. simpl (default false None). cbv beta iota zeta.
  fold formattedResults.
  rewrite run_mbind. unfold ask at 1, record, modify, lift.
  rewrite run_mbind, Hanswer. cbv beta iota.
  rewrite run_mbind, logQuery_run. cbv beta iota.
  match goal with
  | |- context [logged w ?r ?s] => set (row := r); set (st4 := s)
  end.
  destruct (logged_audit w row st4) as [Hlog _].
  assert (Hst4 : auditWrites (calls (logged w row st4))
                 = auditWrites (calls st) ++ [row]).
  { rewrite Hlog. subst st4. unfold auditWrites in *. simpl in *.
    rewrite omap_app in Ha2. simpl in Ha2. rewrite app_nil_r in Ha2.
    rewrite omap_app. simpl. rewrite app_nil_r. by rewrite Ha2, Ha1. }
  rewrite run_mbind. unfold dateNow at 1. cbv beta iota zeta.
  rewrite run_mbind, run_tryCatch, run_mbind.
  match goal with
  | |- context [saveResultsAsJson w ?d ?r ?s] =>
      pose proof (keeps (R := SameAudit) (m := saveResultsAsJson w d r) s)
        as [Ha3 _];
      destruct (saveResultsAsJson w d r s) as [[f | e] st7]
  end; simpl in Ha3; cbv beta iota; rewrite ?run_mret; cbv beta iota;
    rewrite run_mbind;
    (destruct (truthy (header (x_request_id req)));
     [rewrite run_mbind; unfold dateNow at 1 |];
     cbv beta iota; rewrite ?run_mret; cbv beta iota;
     eexists _, _; (split; [reflexivity |]); repeat (split; [reflexivity |]);
     cbn [calls tick]; by rewrite Ha3).
Qed.

End MoreChatFacts.

(* ===================================================================== *)
(** * The raw query route, the error handler and the audit log             *)
(* ===================================================================== *)

Section RawQueryFacts.

Context (host : Host) (w : World).

(** X27. POST /query rejects a body whose query is not a string or is
    the empty string with "Query is required and must be a string", and
    a statement that the validator rejects with "SQL validation failed: "
    and the error of the validator; both with the code VALIDATION_ERROR,
    the status 400, and before anything is posted or logged: the state
    is what it was. *)
Theorem executeRawQuery_bad_request (query : Value) (st : State)
    (production : bool) (toLowerCase : jsstring -> jsstring) :
  let sent :=
    httpStatus raw_status production toLowerCase
      (executeRawQuery host w query st).1 in
  ((forall c s, query <> VStr (c :: s)) ->
   executeRawQuery host w query st
   = (Throw (AppError (lit "Query is required and must be a string")
               VALIDATION_ERROR), st)
   /\ sent = 400%N)
  /\ (forall text e,
        query = VStr text -> text <> [] ->
        validateSqlQuery host text = Throw e ->
        executeRawQuery host w query st
        = (Throw (AppError (lit "SQL validation failed: " ++ JS.message e)
                    VALIDATION_ERROR), st)
        /\ sent = 400%N).
Proof.
  cbv zeta. split.
  - intros Hq. destruct query as [| | | | [|c s] | | |]; try done.
    by destruct (Hq c s).
  - intros text e -> Hne Hsql. destruct text as [|c s]; [done |].
    unfold executeRawQuery.
    change (truthy (VStr (c :: s))) with true. cbn [negb].
    rewrite run_mbind, run_tryCatch. unfold lift. rewrite Hsql. done.
Qed.

(** X28. A statement that the validator accepts is posted by POST /query
    as it is given: no row limit is added. If the executor returns, the
    route answers 200 with the rows, their timestamps formatted, and one
    row goes to the audit log, with the status 'success' also when the
    executor has only acknowledged a started workflow. If the executor
    throws, nothing goes to the audit log, and the client receives the
    status 500 with the code INTERNAL_ERROR. *)
Theorem executeRawQuery_valid (text : jsstring) (st : State)
    (production : bool) (toLowerCase : jsstring -> jsstring) :
  text <> [] ->
  validateSqlQuery host text = Ok true ->
  match executeQuery host w text st with
  | (Ok queryExecution, st1) =>
      executeRawQuery host w (VStr text) st
      = (Ok {| raw_status := 200;
               raw_results :=
                 formatTimestamps host (results queryExecution);
               raw_rowCount := qRowCount queryExecution;
               raw_executionTime := qExecutionTime queryExecution |},
         logged w
           (auditRow {| queryText := text;
                        userInput := VStr (lit "Raw query execution");
                        executionTime :=
                          Some (qExecutionTime queryExecution);
                        rowCount := Some (qRowCount queryExecution);
                        responseStatus := St_success;
                        errorMessage := None |}) st1)
  | (Throw e, st1) =>
      executeRawQuery host w (VStr text) st = (Throw e, st1)
      /\ auditWrites (calls st1) = auditWrites (calls st)
      /\ httpStatus raw_status production toLowerCase
           (executeRawQuery host w (VStr text) st).1 = 500%N
  end
  /\ posted (calls (executeRawQuery host w (VStr text) st).2)
     = posted (calls st)
       ++ (if negb (truthy (VStr (webhookUrl w)))
              || streq (trim (webhookUrl w)) []
           then [] else [text]).
Proof.
  intros Hne Hsql.
  assert (Hrun : executeRawQuery host w (VStr text) st
                 = match executeQuery host w text st with
                   | (Ok queryExecution, st1) =>
                       (Ok {| raw_status := 200;
                              raw_results :=
                                formatTimestamps host
                                  (results queryExecution);
                              raw_rowCount := qRowCount queryExecution;
                              raw_executionTime :=
                                qExecutionTime queryExecution |},
                        logged w
                          (auditRow
                             {| queryText := text;
                                userInput :=
                                  VStr (lit "Raw query execution");
                                executionTime :=
                                  Some (qExecutionTime queryExecution);
                                rowCount :=
                                  Some (qRowCount queryExecution);
                                responseStatus := St_success;
                                errorMessage := None |}) st1)
                   | (Throw e, st1) => (Throw e, st1)
                   end).
  { unfold executeRawQuery. destruct text as [|c s]; [done |].
    change (truthy (VStr (c :: s))) with true. cbn [negb].
    rewrite run_mbind, run_tryCatch. unfold lift. rewrite Hsql.
    cbv beta iota. rewrite run_mbind.
    destruct (executeQuery host w (c :: s) st) as [[qe | e] st1]; [|done].
    by rewrite run_mbind, logQuery_run. }
  pose proof (executeQuery_calls host w text st) as Hcalls.
  pose proof (keeps (R := SameAudit) (m := executeQuery host w text) st)
    as [Haudit _].
  rewrite Hrun.
  destruct (executeQuery host w text st) as [[qe | e] st1] eqn:Hexec;
    cbn [snd] in *.
  - split; [done |]. rewrite posted_logged, Hcalls, posted_app.
    by destruct (negb (truthy (VStr (webhookUrl w))) || _).
  - destruct (executeQuery_throws host w _ _ _ _ Hexec) as [m ->].
    split; [done |]. rewrite Hcalls, posted_app.
    by destruct (negb (truthy (VStr (webhookUrl w))) || _).
Qed.

End RawQueryFacts.

Section MiddlewareFacts.

(** X29. The response of the error handler to an [AppError] has the
    status of its code in the table of the codes (400 for
    VALIDATION_ERROR only, and 500 or more for INTERNAL_ERROR,
    DATABASE_ERROR, SERVICE_UNAVAILABLE and TIMEOUT), its message and
    its code. [asyncHandler] turns every other error of a handler into
    an [AppError] with the message of the error, and with the code
    TIMEOUT if the name of the error is TimeoutError and INTERNAL_ERROR
    otherwise, so that a route answers such an error with the status
    504 or 500 whatever its message says; it leaves the result and the
    state of a handler that returns as they are. In production the
    response holds no troubleshooting details. *)
Theorem route_error_response (production : bool)
    (toLowerCase : jsstring -> jsstring) :
  (forall m code,
      let response :=
        errorHandlerMiddleware production toLowerCase (AppError m code) in
      er_status response = ERROR_CODES code /\ er_message response = m
      /\ er_errorCode response = code
      /\ (ERROR_CODES code = 400%N <-> code = VALIDATION_ERROR)
      /\ (400 <= ERROR_CODES code <= 504)%N
      /\ (production = true -> er_details response = None))
  /\ (forall A (fn : M A) st,
        (asyncHandler fn st).2 = (fn st).2
        /\ match (fn st).1 with
           | Ok a => (asyncHandler fn st).1 = Ok a
           | Throw (AppError m code) =>
               (asyncHandler fn st).1 = Throw (AppError m code)
           | Throw e =>
               (asyncHandler fn st).1
               = Throw (AppError
                          (if bool_decide (JS.message e = [])
                           then lit "An unexpected error occurred"
                           else JS.message e)
                          (if bool_decide (errorName e = lit "TimeoutError")
                           then TIMEOUT else INTERNAL_ERROR))
               /\ forall sent : A -> N,
                    httpStatus sent production toLowerCase (fn st).1
                    = (if bool_decide (errorName e = lit "TimeoutError")
                       then 504%N else 500%N)
           end).
Proof.
  split.
  - intros m code. cbv zeta. unfold errorHandlerMiddleware.
    cbn [er_status er_message er_errorCode er_details].
    repeat split; try (by destruct code); try (destruct code; simpl; lia).
    intros ->. done.
  - intros A fn st. unfold asyncHandler. rewrite run_tryCatch.
    destruct (fn st) as [[a | e] st1] eqn:E; [done |].
    destruct e as [m | m | m code | n m];
      cbn [fst snd passedOn throw JS.message errorName httpStatus];
      (split; [done |]); try done; unfold truthy, streq;
      (split; [|intros sent]); repeat case_bool_decide; simpl;
      congruence.
Qed.

End MiddlewareFacts.

Section AuditFacts.

Context (w : World).

(** X30. [logQuery] never throws: a failure of the insertion is
    swallowed, and the table is then left as it was. The row it sends
    holds the statement, the input and the status of the entry; a row
    count of 0, an execution time of 0 and an empty error message are
    stored as NULL, like the ones that are absent. *)
Theorem logQuery_spec (entry : AuditLogEntry) (st : State) :
  (logQuery w entry st).1 = Ok tt
  /\ auditWrites (calls (logQuery w entry st).2)
     = auditWrites (calls st) ++ [auditRow entry]
  /\ audit_logs (logQuery w entry st).2
     = match insertAuditLog w (auditRow entry) with
       | Ok _ => audit_logs st ++ [auditRow entry]
       | Throw _ => audit_logs st
       end
  /\ query_text (auditRow entry) = queryText entry
  /\ user_input (auditRow entry) = userInput entry
  /\ response_status (auditRow entry) = responseStatus entry
  /\ (row_count (auditRow entry) = None
      <-> rowCount entry = None \/ rowCount entry = Some 0%nat)
  /\ (execution_time (auditRow entry) = None
      <-> executionTime entry = None
          \/ exists t, executionTime entry = Some t /\ (t == 0)%Q)
  /\ (error_message (auditRow entry) = None
      <-> errorMessage entry = None \/ errorMessage entry = Some []).
Proof.
  rewrite logQuery_run. cbn [fst snd].
  destruct (logged_audit w (auditRow entry) st) as [-> ->].
  do 6 (split; [done |]). unfold auditRow, orNull. simpl. split; [|split].
  - destruct (rowCount entry) as [[|n]|]; simpl;
      (split; [intros H; first [done | by left | by right]
              | intros [H | H]; done]).
  - destruct (executionTime entry) as [t|];
      [|split; [by left | done]].
    destruct (Qeq_bool 0 t) eqn:Ht.
    + apply Qeq_bool_eq in Ht. split; [|done]. intros _. right.
      exists t. split; [done | by symmetry].
    + split; [done |]. intros [? | (t' & [= <-] & Ht')]; [done |].
      apply Qeq_bool_neq in Ht. by destruct Ht.
  - destruct (errorMessage entry) as [[|c m]|]; simpl;
      (split; [intros H; first [done | by left | by right]
              | intros [H | H]; done]).
Qed.

End AuditFacts.
(* ===================================================================== *)
(** * The further properties at concrete inputs                            *)
(* ===================================================================== *)

Section MoreInstances.

(** "SELECT (1" has an opening parenthesis that is not closed. *)
Lemma validateSqlQuery_rejects_unbalanced_witness :
  validateSqlQuery utcHost (lit "SELECT (1") = Throw unbalancedParens.
Proof.
  apply (validateSqlQuery_rejects_unbalanced utcHost (lit "SELECT (1")).
  - apply NotDenylisted_by_test. vm_compute. reflexivity.
  - eexists. vm_compute. reflexivity.
  - vm_compute. discriminate.
Defined.

(** "SELECT 1 -- x" holds a comment. *)
Lemma validateSqlQuery_rejects_comments_witness :
  validateSqlQuery utcHost (lit "SELECT 1 -- x") = Throw commentInjection.
Proof.
  apply (validateSqlQuery_rejects_comments utcHost (lit "SELECT 1 -- x")).
  - apply NotDenylisted_by_test. vm_compute. reflexivity.
  - eexists. vm_compute. reflexivity.
  - vm_compute. reflexivity.
  - intros H. apply includes_char in H. vm_compute in H. discriminate H.
  - left. exists (lit "SELECT 1 "), (lit " x"). reflexivity.
Defined.

(** SELECT and two thousand digits. *)
Lemma validateSqlQuery_rejects_long_witness :
  validateSqlQuery utcHost (lit "SELECT " ++ replicate 2000 49%N)
  = Throw tooLong.
Proof.
  apply (validateSqlQuery_rejects_long utcHost
           (lit "SELECT " ++ replicate 2000 49%N)).
  - apply NotDenylisted_by_test. vm_compute. reflexivity.
  - eexists. vm_compute. reflexivity.
  - vm_compute. reflexivity.
  - intros H. apply includes_char in H. vm_compute in H. discriminate H.
  - intros H. apply includes_spec in H. vm_compute in H. discriminate H.
  - intros H. apply includes_spec in H. vm_compute in H. discriminate H.
  - apply Nat.ltb_lt. vm_compute. reflexivity.
Defined.

(** The default limit, in front of the semicolon. *)
Lemma ensureQueryLimit_has_limit_witness :
  Contains (nodes limitPattern)
    (ensureQueryLimit (lit "SELECT * FROM users;") defaultLimit).
Proof.
  apply (ensureQueryLimit_has_limit (lit "SELECT * FROM users;")
           defaultLimit).
  exact I.
Defined.

(** A text without markup. *)
Lemma sanitizeString_plain_witness :
  sanitizeString (VStr (lit "  hello world ")) = trim (lit "  hello world ").
Proof.
  apply (sanitizeString_plain (lit "  hello world ")).
  apply Forall_forall.
  intros c Hc%list_elem_of_In Hin%list_elem_of_In.
  vm_compute in Hc. vm_compute in Hin.
  repeat (destruct Hc as [<- | Hc];
          [repeat (destruct Hin as [Hin | Hin]; [discriminate Hin |]);
           exact Hin |]).
  exact Hc.
Defined.

(** The date of the specification, at any millisecond. *)
Lemma formatDate_spec_witness :
  formatDate (VDate (Some 1697380222500)) = lit "2023-10-15 14:30:22".
Proof.
  apply (proj2 (formatDate_spec (VDate (Some 1697380222500)))
           {| year := 2023; month := 10; day := 15;
              hour := 14; minute := 30; second := 22 |} 500).
  - repeat split; vm_compute; discriminate.
  - split; vm_compute; discriminate.
  - vm_compute. reflexivity.
Defined.

(** A refresh against the database with the table users. *)
Lemma refreshSchema_succeeds_witness :
  exists tablesMetadata st',
    refreshSchema startedWorld initialState = (Ok tt, st')
    /\ schema st' = Some {| tables := tablesMetadata |}
    /\ name <$> tablesMetadata
       = TABLE_NAME <$> [ {| TABLE_NAME := lit "users" |} ].
Proof.
  destruct (refreshSchema_succeeds startedWorld initialState
              [ {| TABLE_NAME := lit "users" |} ])
    as (tablesMetadata & st' & H1 & H2 & H3 & _).
  - reflexivity.
  - intros t _. split; eexists; reflexivity.
  - exists tablesMetadata, st'. auto.
Defined.

(** Two calls in a row: the second is served from the cache. *)
Lemma getSchema_second_call_witness :
  exists s,
    (getSchema startedWorld false initialState).1 = Ok s
    /\ getSchema startedWorld false
         (getSchema startedWorld false initialState).2
       = (Ok s, tick (getSchema startedWorld false initialState).2).
Proof.
  eexists. split; [vm_compute; reflexivity |].
  apply (getSchema_second_call startedWorld false initialState).
  - vm_compute. reflexivity.
  - vm_compute. discriminate.
Defined.

(** One row from the webhook. *)
Lemma executeQuery_returns_rows_witness :
  (executeQuery utcHost rowsWorld (lit "SELECT * FROM users LIMIT 100")
     initialState).1
  = Ok {| results :=
            VArr [VObj {[ lit "id" := VNum 1;
                          lit "created_at"
                          := VStr (lit "2023-10-15T14:30:22.000Z") ]}];
          qRowCount := 1;
          qExecutionTime := seconds 1000;
          qAsynchronous := None |}.
Proof.
  apply (executeQuery_returns_rows utcHost rowsWorld
           (lit "SELECT * FROM users LIMIT 100")
           (VObj {[ lit "results"
                    := VArr [VObj {[ lit "id" := VNum 1;
                                     lit "created_at"
                                     := VStr (lit "2023-10-15T14:30:22.000Z")
                                  ]}] ]})
           [VObj {[ lit "id" := VNum 1;
                    lit "created_at"
                    := VStr (lit "2023-10-15T14:30:22.000Z") ]}]
           initialState).
  - vm_compute. discriminate.
  - reflexivity.
  - vm_compute. discriminate.
  - vm_compute. reflexivity.
Defined.

(** A file that is not there. *)
Lemma getJsonResults_outcome_witness :
  getJsonResults (fun _ => NoEntry) (fun _ => true) (lit "query_1.json")
  = Throw (AppError (lit "Results file not found") NOT_FOUND)
  /\ httpStatus (fun _ : jsstring => 200%N) true (fun s => s)
       (getJsonResults (fun _ => NoEntry) (fun _ => true)
          (lit "query_1.json"))
     = 404%N.
Proof.
  apply (getJsonResults_outcome (fun _ => NoEntry) (fun _ => true)
           (lit "query_1.json") true (fun s => s)).
  apply matchWhole_spec. exists (lit "query_1.json").
  vm_compute. reflexivity.
Defined.

(** The file of a request with a UUID. *)
Lemma saveResultsAsJson_retrievable_witness :
  calls (saveResultsAsJson startedWorld VNull
           (header (Some (lit "3f2b8c1e-0000-4000-8000-000000000000")))
           initialState).2
  = [WriteFile (lit "query_2023-10-15T14-30-22-000Z_3f2b8c1e.json")]
  /\ forall readFile parses,
       getJsonResults readFile parses
         (lit "query_2023-10-15T14-30-22-000Z_3f2b8c1e.json")
       <> Throw (AppError (lit "Invalid filename") VALIDATION_ERROR).
Proof.
  destruct (saveResultsAsJson_retrievable startedWorld VNull
              (Some (lit "3f2b8c1e-0000-4000-8000-000000000000"))
              initialState) as (H1 & _ & H3).
  split; [exact H1 |]. apply H3.
  - vm_compute. split; discriminate.
  - apply Forall_forall. intros c Hc. apply inChars.
    apply list_elem_of_In in Hc. vm_compute in Hc.
    repeat (destruct Hc as [<- | Hc]; [reflexivity |]). destruct Hc.
Defined.

(** The model writes SHOW TABLES. *)
Lemma processChat_rejected_sql_witness :
  (processChat utcHost showWorld howManyUsers initialState).1
  = Throw (AppError (lit "Failed to process your request") INTERNAL_ERROR)
  /\ posted (calls (processChat utcHost showWorld howManyUsers
                      initialState).2)
     = posted (calls initialState).
Proof.
  pose proof (fun st1 databaseSchema =>
                processChat_rejected_sql utcHost showWorld howManyUsers
                  initialState st1 databaseSchema (lit "SHOW TABLES")
                  notReadOnly) as H.
  edestruct H as (H1 & H2 & H3).
  - vm_compute. reflexivity.
  - vm_compute. reflexivity.
  - reflexivity.
  - vm_compute. reflexivity.
  - split; [|exact H2]. rewrite H1. cbn [fst].
    rewrite H3; [reflexivity |].
    unfold structuralErrors. apply elem_of_cons. by left.
Defined.

(** The webhook refuses the connection. *)
Lemma processChat_executor_failure_witness :
  httpStatus status true (fun s => s)
    (processChat utcHost refusedWorld howManyUsers initialState).1
  = 503%N.
Proof.
  pose proof (fun st1 st2 databaseSchema e =>
                processChat_executor_failure utcHost refusedWorld
                  howManyUsers initialState st1 st2 databaseSchema
                  (lit "SELECT * FROM users") e true (fun s => s)) as H0.
  edestruct H0 as (text & code & _ & _ & H & _).
  - vm_compute. reflexivity.
  - vm_compute. reflexivity.
  - reflexivity.
  - vm_compute. reflexivity.
  - vm_compute. reflexivity.
  - exact H.
Defined.

(** The database is down. *)
Lemma processChat_schema_failure_witness :
  (processChat utcHost downWorld howManyUsers initialState).1
  = Throw (AppError (lit "Failed to process your request") INTERNAL_ERROR).
Proof.
  destruct (processChat_schema_failure utcHost downWorld howManyUsers
              initialState true (fun s => s)) as (st1 & H & _).
  - vm_compute. reflexivity.
  - left. reflexivity.
  - left. exists (Error (lit "connect ECONNREFUSED")). reflexivity.
  - by rewrite H.
Defined.

(** Every step succeeds. *)
Lemma processChat_answers_witness :
  exists reply st',
    processChat utcHost rowsWorld howManyUsers initialState = (Ok reply, st')
    /\ status reply = 200%N
    /\ Types.message (body reply) = lit "There is one user."
    /\ Types.sql (body reply) = Some (lit "SELECT * FROM users LIMIT 100").
Proof.
  pose proof (fun st1 st2 databaseSchema queryExecution =>
                processChat_answers utcHost rowsWorld howManyUsers
                  initialState st1 st2 databaseSchema
                  (lit "SELECT * FROM users") (lit "There is one user.")
                  queryExecution) as H.
  cbv zeta in H.
  edestruct H as (reply & st' & H1 & H2 & H3 & H4 & _).
  - vm_compute. reflexivity.
  - vm_compute. reflexivity.
  - reflexivity.
  - vm_compute. reflexivity.
  - vm_compute. reflexivity.
  - reflexivity.
  - reflexivity.
  - exists reply, st'. repeat split; assumption.
Defined.

(** A raw statement is posted as it is. *)
Lemma executeRawQuery_valid_witness :
  posted (calls (executeRawQuery utcHost startedWorld
                   (VStr (lit "SELECT 1")) initialState).2)
  = [lit "SELECT 1"].
Proof.
  apply (executeRawQuery_valid utcHost startedWorld (lit "SELECT 1")
           initialState true (fun s => s)).
  - discriminate.
  - vm_compute. reflexivity.
Defined.

End MoreInstances.
